(** * Scheduling delivery via CalDAV

    A shallow embedding of [twistedcaldav/scheduling/caldav.py]
    (class [ScheduleViaCalDAV]) together with the properties of the
    delivery engine that the specification states about it. *)

From Stdlib Require Import String Ascii List Bool Arith ZArith Lia.
From stdpp Require gmap strings.
Import ListNotations.
Local Open Scope string_scope.
Local Open Scope list_scope.

Set Implicit Arguments.

(** ** Python string primitives used by the address classifier *)

Module PyStr.

(** [s.startswith(p)] *)
Definition startswith (s p : string) : bool := String.prefix p s.

(** [s[n:]] *)
Fixpoint slice_from (n : nat) (s : string) : string :=
  match n, s with
  | O, _ => s
  | S _, EmptyString => EmptyString
  | S n', String _ s' => slice_from n' s'
  end.

(** [s.split(sep)] for a one-character separator; the result is never
    empty. *)
Fixpoint split (sep : ascii) (s : string) : list string :=
  match s with
  | EmptyString => [EmptyString]
  | String c s' =>
      if Ascii.eqb c sep then EmptyString :: split sep s'
      else match split sep s' with
           | [] => [String c EmptyString]
           | piece :: pieces => String c piece :: pieces
           end
  end.

(** [l[0]] on the result of a split *)
Definition item0 (l : list string) : string := hd EmptyString l.

(** [s.endswith(suffix)] *)
Definition endswith (s suffix : string) : bool :=
  Nat.leb (String.length suffix) (String.length s)
  && String.eqb
       (substring (String.length s - String.length suffix)
                  (String.length suffix) s)
       suffix.

(** Truth value of a string in a condition: non-empty. *)
Definition truthy (s : string) : bool :=
  match s with EmptyString => false | String _ _ => true end.

End PyStr.

(** ** Configuration: [config.Scheduling["CalDAV"]] (stdconfig.py) *)

Record CalDAVSchedulingConfig : Type := {
  EmailDomain : string;
  HTTPDomain : string;
  AddressPatterns : list string
}.

(** The defaults of stdconfig.py. *)
Definition defaultConfig : CalDAVSchedulingConfig :=
  {| EmailDomain := ""; HTTPDomain := ""; AddressPatterns := [] |}.

(** A server whose HTTP domain is [example.com], with no address pattern. *)
Definition exampleConfig : CalDAVSchedulingConfig :=
  {| EmailDomain := ""; HTTPDomain := "example.com"; AddressPatterns := [] |}.

Section AddressClassifier.

(** [re.match(pattern, cuaddr) is not None] of the Python library. *)
Variable re_match : string -> string -> bool.

Variable config : CalDAVSchedulingConfig.

(** Modelled from the spec: [DeliveryService.matchCalendarUserAddress]
    (scheduling/delivery.py is not part of the sources at hand), the
    fallback shared by all delivery mechanisms: the address matches when
    one of the configured regular-expression address patterns matches. *)
Definition DeliveryService_matchCalendarUserAddress (cuaddr : string) : bool :=
  existsb (fun pattern => re_match pattern cuaddr) (AddressPatterns config).

(** [ScheduleViaCalDAV.matchCalendarUserAddress] *)
Definition matchCalendarUserAddress (cuaddr : string) : bool :=
  if PyStr.startswith cuaddr "mailto:" && PyStr.truthy (EmailDomain config) then
    let splits := PyStr.split "?"%char (PyStr.slice_from 7 cuaddr) in
    let domain := EmailDomain config in
    if PyStr.endswith (PyStr.item0 splits) domain then true
    else DeliveryService_matchCalendarUserAddress cuaddr
  else if (PyStr.startswith cuaddr "http://" || PyStr.startswith cuaddr "https://")
          && PyStr.truthy (HTTPDomain config) then
    let splits :=
      PyStr.split "?"%char (PyStr.slice_from 2 (PyStr.item0 (PyStr.split ":"%char cuaddr))) in
    let domain := HTTPDomain config in
    if PyStr.endswith (PyStr.item0 splits) domain then true
    else DeliveryService_matchCalendarUserAddress cuaddr
  else if PyStr.startswith cuaddr "/" then true
  else DeliveryService_matchCalendarUserAddress cuaddr.

(** The host portion the specification describes: the text after the
    scheme's [://] and before any [?]. *)
Definition spec_host (cuaddr : string) : string :=
  let rest :=
    if PyStr.startswith cuaddr "https://" then PyStr.slice_from 8 cuaddr
    else PyStr.slice_from 7 cuaddr in
  PyStr.item0 (PyStr.split "?"%char rest).

End AddressClassifier.

(** ** Data model *)

(** [twisted.web2.responsecode] *)
Module responsecode.
Definition OK : Z := 200%Z.
Definition FORBIDDEN : Z := 403%Z.
Definition NOT_FOUND : Z := 404%Z.
End responsecode.

Definition caldav_namespace : string := "urn:ietf:params:xml:ns:caldav".
Definition calendarserver_namespace : string := "http://calendarserver.org/ns/".

(** A resource handle as the engine sees it: its file path ([fp.path]) and
    the answers of [exists()] and [isCalendarCollectionResource]. *)
Record Resource : Type := {
  fp_path : string;
  exists_ : bool;
  isCalendarCollection : bool
}.

(** A principal, by what its methods [principalURL()],
    [calendarUserAddresses()] and [autoSchedule()] answer. *)
Record Principal : Type := {
  principalURL : string;
  calendarUserAddresses : list string;
  autoSchedule : bool
}.

(** A local calendar user ([scheduling.cuaddress.LocalCalendarUser]): the
    recipients handed to this delivery service are of this class. *)
Record LocalUser : Type := {
  cuaddr : string;
  principal : Principal;
  inbox : Resource;
  inboxURL : string
}.

Inductive CalendarUser : Type :=
| LocalCalendarUser (u : LocalUser)
| RemoteCalendarUser (addr : string)
| OtherCalendarUser (addr : string).

Definition cu_cuaddr (u : CalendarUser) : string :=
  match u with
  | LocalCalendarUser l => cuaddr l
  | RemoteCalendarUser a => a
  | OtherCalendarUser a => a
  end.

(** [isinstance(u, LocalCalendarUser)] and [isinstance(u, RemoteCalendarUser)] *)
Definition isLocal (u : CalendarUser) : bool :=
  match u with LocalCalendarUser _ => true | _ => false end.
Definition isRemote (u : CalendarUser) : bool :=
  match u with RemoteCalendarUser _ => true | _ => false end.

(** Dead properties written on a stored inbox item. *)
Module caldavxml.
Inductive ScheduleStateValue : Type := ScheduleProcessed | ScheduleUnprocessed.
Inductive DeadProperty : Type :=
| Originator (href : string)
| Recipient (href : string)
| ScheduleState (v : ScheduleStateValue).
End caldavxml.

(** Free-busy periods are pairs of instants; [fbinfo] is the triple
    (BUSY, BUSY-TENTATIVE, BUSY-UNAVAILABLE). *)
Definition Period : Type := (Z * Z)%type.
Definition TimeRange : Type := (Z * Z)%type.
Definition FBInfo : Type := (list Period * list Period * list Period)%type.

Definition Property : Type := string.

(** Modelled from the spec: the object built by
    [report_common.buildFreeBusyResult] (method/report_common.py is not part
    of the sources at hand): a free-busy report carrying the iTIP method,
    the organizer property, the matched attendee property, the UID, the
    queried range and the three aggregated interval sequences. *)
Record FreeBusyResult : Type := {
  fb_method : string;
  fb_organizer : option Property;
  fb_attendee : option Property;
  fb_uid : string;
  fb_range : TimeRange;
  fb_busy : list Period;
  fb_tentative : list Period;
  fb_unavailable : list Period
}.

(** Modelled from the spec: [report_common.buildFreeBusyResult]. *)
Definition buildFreeBusyResult (fbinfo : FBInfo) (timerange : TimeRange)
    (organizer attendee : option Property) (uid : string) (method : string)
  : FreeBusyResult :=
  let '(busy, tentative, unavailable) := fbinfo in
  {| fb_method := method; fb_organizer := organizer; fb_attendee := attendee;
     fb_uid := uid; fb_range := timerange;
     fb_busy := busy; fb_tentative := tentative; fb_unavailable := unavailable |}.

(** What [responses.add] is given as its second argument: a plain response
    code, or [Failure(exc_value=HTTPError(ErrorResponse(code, (ns, name))))]. *)
Inductive ResponseStatus : Type :=
| StatusCode (code : Z)
| StatusFailure (code : Z) (ns name : string).

Record ResponseEntry : Type := {
  re_recipient : string;
  re_status : ResponseStatus;
  re_reqstatus : string;
  re_calendar : option FreeBusyResult
}.

(** Exceptions, as far as the engine tells them apart. *)
Inductive exn : Type :=
| AccessDeniedError
| ImplicitProcessorException (msg : string)
| OtherException (what : string).

Inductive outcome (A : Type) : Type :=
| Returned (a : A)
| Raised (e : exn).
Arguments Raised {A} e.

(** Calls made on collaborators, in the order they are made. *)
Inductive event : Type :=
| EvCheckPrivileges (inbox : Resource) (principalURL : string)
| EvLocateResource (url : string)
| EvDoImplicitProcessing (recipient : string)
| EvStore (destination_uri : string)
| EvWriteDeadProperty (child : Resource) (p : caldavxml.DeadProperty)
| EvGetAttendeeProperty (cuas : list string)
| EvCalendarFreeBusyURIs (principalURL : string)
| EvHasProperty (inbox : Resource)
| EvReadProperty (inbox : Resource)
| EvAvailabilityCalendar
| EvProcessAvailabilityFreeBusy
| EvGenerateFreeBusyInfo (calendar : Resource).

(** ** The delivery engine *)

Section Engine.

(** [W] is the state of the world behind the collaborators (resource
    store, directory, clock); [Calendar] is the calendar object type of
    [twistedcaldav.ical]. *)
Context {W Calendar : Type}.

Record Scheduler : Type := {
  request : string;
  calendar : Calendar;
  organizer : CalendarUser;
  originator : CalendarUser;
  timeRange : TimeRange;
  excludeUID : option string
}.

(** The tuple appended to [autoresponses]: (principal, inbox, child). *)
Definition Candidate : Type := (Principal * Resource * Resource)%type.

(** A call queued by [reactor.callLater(delay, itip.handleRequest, ...)]. *)
Record DelayedCall : Type := {
  dc_delay : Z;
  dc_request : string;
  dc_principal : Principal;
  dc_inbox : Resource;
  dc_calendar : Calendar;
  dc_child : Resource
}.

(** The collaborators of the engine. A call that reaches a collaborator
    may change the world and may raise. *)
Record Collaborators : Type := {
  (* the calendar object *)
  calendar_str : Calendar -> string;
  getOrganizerProperty : Calendar -> option Property;
  resourceUID : Calendar -> string;
  duplicate : Calendar -> Calendar;
  getAttendeeProperty :
    Calendar -> list string -> W -> outcome (option Property) * W;
  (* naming of inbox items *)
  time_time : W -> string * W;
  md5_hexdigest : string -> string;
  joinURL : string -> string -> string;
  (* resource store *)
  checkPrivileges : Resource -> string -> W -> outcome unit * W;
  locateResource : string -> W -> outcome (option Resource) * W;
  storeCalendarObjectResource :
    option Resource -> string -> Resource -> Calendar -> W -> outcome unit * W;
  writeDeadProperty :
    Resource -> caldavxml.DeadProperty -> W -> outcome unit * W;
  hasProperty : Resource -> string * string -> W -> outcome bool * W;
  readProperty : Resource -> string * string -> W -> outcome string * W;
  availability_calendar : string -> W -> outcome Calendar * W;
  (* implicit processing *)
  doImplicitProcessing :
    Calendar -> CalendarUser -> LocalUser -> W -> outcome (bool * bool) * W;
  (* iTIP auto-response executor *)
  canAutoRespond : Calendar -> bool;
  (* directory *)
  calendarFreeBusyURIs : Principal -> W -> outcome (list string) * W;
  (* report_common *)
  processAvailabilityFreeBusy :
    Calendar -> FBInfo -> TimeRange -> W -> outcome FBInfo * W;
  generateFreeBusyInfo :
    Resource -> FBInfo -> TimeRange -> nat ->
    option string -> string -> bool -> bool -> W -> outcome (FBInfo * nat) * W
}.

(** What a run of the engine reads and writes: the world, the caller's
    response queue, the [autoresponses] list, the reactor's queue of
    delayed calls and the log of collaborator calls. *)
Record state : Type := mkState {
  st_world : W;
  st_responses : list ResponseEntry;
  st_autoresponses : list Candidate;
  st_reactor : list DelayedCall;
  st_log : list event
}.

(** *** State and exceptions

    A raised exception keeps the state reached so far. *)

Definition M (A : Type) : Type := state -> outcome A * state.

Definition ret {A} (a : A) : M A := fun s => (Returned a, s).

Definition raise {A} (e : exn) : M A := fun s => (Raised e, s).

Definition bind {A B} (m : M A) (k : A -> M B) : M B :=
  fun s =>
    match m s with
    | (Returned a, s') => k a s'
    | (Raised e, s') => (Raised e, s')
    end.

(** [try: body / except <handler>: ... / else: orelse]; a handler that
    answers [None] does not catch the exception. *)
Definition try_except_else {A B} (body : M A)
    (handler : exn -> option (M B)) (orelse : A -> M B) : M B :=
  fun s =>
    match body s with
    | (Returned a, s') => orelse a s'
    | (Raised e, s') =>
        match handler e with
        | Some h => h s'
        | None => (Raised e, s')
        end
    end.

(** The state after a collaborator call that left the world at [w]. *)
Definition afterCall (s : state) (w : W) (ev : event) : state :=
  mkState w (st_responses s) (st_autoresponses s) (st_reactor s)
          (st_log s ++ [ev]).

Definition afterClock (s : state) (w : W) : state :=
  mkState w (st_responses s) (st_autoresponses s) (st_reactor s) (st_log s).

Definition afterResponse (s : state) (entry : ResponseEntry) : state :=
  mkState (st_world s) (st_responses s ++ [entry]) (st_autoresponses s)
          (st_reactor s) (st_log s).

Definition withAutoresponses (s : state) (l : list Candidate) : state :=
  mkState (st_world s) (st_responses s) l (st_reactor s) (st_log s).

Definition afterCallLater (s : state) (c : DelayedCall) : state :=
  mkState (st_world s) (st_responses s) (st_autoresponses s)
          (st_reactor s ++ [c]) (st_log s).

(** A logged call on a collaborator. *)
Definition call {A} (ev : event) (f : W -> outcome A * W) : M A :=
  fun s => let (r, w) := f (st_world s) in (r, afterCall s w ev).

(** Modelled from the spec: [responses.add] of the caller's response queue
    (scheduling/scheduler.py is not part of the sources at hand): an
    ordered, append-only collection. *)
Definition responses_add (recipient : string) (what : ResponseStatus)
    (reqstatus : string) (cal : option FreeBusyResult) : M unit :=
  fun s =>
    (Returned tt,
     afterResponse s {| re_recipient := recipient; re_status := what;
                        re_reqstatus := reqstatus; re_calendar := cal |}).

(** [autoresponses.append(c)] *)
Definition autoresponses_append (c : Candidate) : M unit :=
  fun s => (Returned tt, withAutoresponses s (st_autoresponses s ++ [c])).

(** [autoresponses = l] *)
Definition autoresponses_assign (l : list Candidate) : M unit :=
  fun s => (Returned tt, withAutoresponses s l).

Definition autoresponses_read : M (list Candidate) :=
  fun s => (Returned (st_autoresponses s), s).

(** [reactor.callLater] *)
Definition reactor_callLater (c : DelayedCall) : M unit :=
  fun s => (Returned tt, afterCallLater s c).

(** [time.time()] rendered as a string; reading the clock is not logged. *)
Definition clock (f : W -> string * W) : M string :=
  fun s => let (t, w) := f (st_world s) in (Returned t, afterClock s w).

Local Notation "x <- m ;; k" := (bind m (fun x => k))
  (at level 61, m at next level, right associativity).
Local Notation "m ;;; k" := (bind m (fun _ => k))
  (at level 61, right associativity).

Variable C : Collaborators.
Variable scheduler : Scheduler.

(** [self.freebusy] *)
Variable freebusy : bool.

Definition recipient_permissions (code : Z) : ResponseStatus :=
  StatusFailure code caldav_namespace "recipient-permissions".

(** *** [generateResponse] *)

Definition generateResponse (recipient : LocalUser) : M bool :=
  (* Hash the iCalendar data for use as the last path element of the URI path *)
  let calendar_text := calendar_str C (calendar scheduler) in
  now <- clock (time_time C) ;;
  let name :=
    (md5_hexdigest C (calendar_text ++ now ++ fp_path (inbox recipient))
       ++ ".ics")%string in
  (* Get a resource for the new item *)
  let childURL := joinURL C (inboxURL recipient) name in
  child <- call (EvLocateResource childURL) (locateResource C childURL) ;;
  (* Do implicit scheduling message processing *)
  try_except_else
    (call (EvDoImplicitProcessing (cuaddr recipient))
          (doImplicitProcessing C (calendar scheduler) (originator scheduler)
                                recipient))
    (fun e =>
       match e with
       | ImplicitProcessorException msg =>
           Some (responses_add (cuaddr recipient)
                   (recipient_permissions responsecode.FORBIDDEN) msg None ;;;
                 ret false)
       | _ => None
       end)
    (fun result =>
       let '(processed, autoprocessed) := result in
       if autoprocessed : bool then
         (* No need to write the inbox item as it has already been
            auto-processed *)
         responses_add (cuaddr recipient) (StatusCode responsecode.OK)
           "2.0;Success" None ;;;
         ret true
       else
         (* Copy calendar to inbox *)
         try_except_else
           (call (EvStore childURL)
                 (storeCalendarObjectResource C child childURL (inbox recipient)
                                              (calendar scheduler)))
           (fun _ =>
              Some (responses_add (cuaddr recipient)
                      (recipient_permissions responsecode.FORBIDDEN)
                      "3.8;No authority" None ;;;
                    ret false))
           (fun _ =>
              responses_add (cuaddr recipient) (StatusCode responsecode.OK)
                "2.0;Success" None ;;;
              match child with
              | None => raise (OtherException "AttributeError")
              | Some child =>
                  (* Store CALDAV:originator property *)
                  call (EvWriteDeadProperty child
                          (caldavxml.Originator (cu_cuaddr (originator scheduler))))
                       (writeDeadProperty C child
                          (caldavxml.Originator (cu_cuaddr (originator scheduler)))) ;;;
                  (* Store CALDAV:recipient property *)
                  call (EvWriteDeadProperty child
                          (caldavxml.Recipient (cuaddr recipient)))
                       (writeDeadProperty C child
                          (caldavxml.Recipient (cuaddr recipient))) ;;;
                  (* Store CALDAV:schedule-state property *)
                  let schedule_state :=
                    caldavxml.ScheduleState
                      (if processed : bool then caldavxml.ScheduleProcessed
                       else caldavxml.ScheduleUnprocessed) in
                  call (EvWriteDeadProperty child schedule_state)
                       (writeDeadProperty C child schedule_state) ;;;
                  (* Look for auto-schedule option *)
                  (if negb processed && autoSchedule (principal recipient) then
                     autoresponses_append
                       (principal recipient, inbox recipient, child)
                   else ret tt) ;;;
                  ret true
              end)).

(** *** [generateAttendeeFreeBusyResponse] *)

(** The loop over the free-busy set. *)
Fixpoint freeBusySetLoop (fbset : list string) (fbinfo : FBInfo)
    (matchtotal : nat) (same_calendar_user remote : bool)
  : M (FBInfo * nat) :=
  match fbset with
  | [] => ret (fbinfo, matchtotal)
  | calendarResourceURL :: fbset' =>
      calendarResource <-
        call (EvLocateResource calendarResourceURL)
             (locateResource C calendarResourceURL) ;;
      match calendarResource with
      | None =>
          freeBusySetLoop fbset' fbinfo matchtotal same_calendar_user remote
      | Some res =>
          if negb (exists_ res) || negb (isCalendarCollection res) then
            (* We will ignore missing calendars. *)
            freeBusySetLoop fbset' fbinfo matchtotal same_calendar_user remote
          else
            r <- call (EvGenerateFreeBusyInfo res)
                      (generateFreeBusyInfo C res fbinfo (timeRange scheduler)
                         matchtotal (excludeUID scheduler)
                         (cu_cuaddr (organizer scheduler))
                         same_calendar_user remote) ;;
            freeBusySetLoop fbset' (fst r) (snd r) same_calendar_user remote
      end
  end.

Definition calendar_availability : string * string :=
  (calendarserver_namespace, "calendar-availability").

(** Whether the recipient is the same calendar user as the organizer. *)
Definition sameCalendarUser (recipient : LocalUser) : bool :=
  match organizer scheduler with
  | LocalCalendarUser o =>
      String.eqb (principalURL (principal o))
                 (principalURL (principal recipient))
  | _ => false
  end.

Definition generateAttendeeFreeBusyResponse (recipient : LocalUser)
    (organizerProp : option Property) (uid : string)
    (attendeeProp : option Property) (remote : bool) : M FreeBusyResult :=
  (* Find the current recipients calendar-free-busy-set *)
  fbset <- call (EvCalendarFreeBusyURIs (principalURL (principal recipient)))
                (calendarFreeBusyURIs C (principal recipient)) ;;
  (* First list is BUSY, second BUSY-TENTATIVE, third BUSY-UNAVAILABLE *)
  let fbinfo : FBInfo := ([], [], []) in
  (* Process the availability property from the Inbox. *)
  has_prop <- call (EvHasProperty (inbox recipient))
                   (hasProperty C (inbox recipient) calendar_availability) ;;
  fbinfo <- (if has_prop : bool then
               availability <-
                 call (EvReadProperty (inbox recipient))
                      (readProperty C (inbox recipient) calendar_availability) ;;
               availability <-
                 call EvAvailabilityCalendar (availability_calendar C availability) ;;
               call EvProcessAvailabilityFreeBusy
                    (processAvailabilityFreeBusy C availability fbinfo
                       (timeRange scheduler))
             else ret fbinfo) ;;
  (* Check to see if the recipient is the same calendar user as the
     organizer. *)
  let same_calendar_user := sameCalendarUser recipient in
  (* Now process free-busy set calendars *)
  r <- freeBusySetLoop fbset fbinfo 0 same_calendar_user remote ;;
  (* Build VFREEBUSY iTIP reply for this recipient *)
  ret (buildFreeBusyResult (fst r) (timeRange scheduler) organizerProp
         attendeeProp uid "REPLY").

(** *** [generateFreeBusyResponse] *)

Definition generateFreeBusyResponse (recipient : LocalUser)
    (organizerProp : option Property) (uid : string) : M bool :=
  (* Extract the ATTENDEE property matching current recipient from the
     calendar data *)
  let cuas := calendarUserAddresses (principal recipient) in
  attendeeProp <- call (EvGetAttendeeProperty cuas)
                       (getAttendeeProperty C (calendar scheduler) cuas) ;;
  let remote := isRemote (organizer scheduler) in
  try_except_else
    (generateAttendeeFreeBusyResponse recipient organizerProp uid attendeeProp
                                      remote)
    (fun _ =>
       Some (responses_add (cuaddr recipient)
               (recipient_permissions responsecode.FORBIDDEN)
               "3.8;No authority" None ;;;
             ret false))
    (fun fbresult =>
       responses_add (cuaddr recipient) (StatusCode responsecode.OK)
         "2.0;Success" (Some fbresult) ;;;
       ret true).

(** *** [generateSchedulingResponses] *)

(** The loop over the recipients. *)
Fixpoint recipientsLoop (recipients : list LocalUser)
    (organizerProp : option Property) (uid : string) : M unit :=
  match recipients with
  | [] => ret tt
  | recipient :: recipients' =>
      (* Check access controls *)
      proceed <-
        match organizer scheduler with
        | LocalCalendarUser o =>
            try_except_else
              (call (EvCheckPrivileges (inbox recipient)
                       (principalURL (principal o)))
                    (checkPrivileges C (inbox recipient)
                       (principalURL (principal o))))
              (fun e =>
                 match e with
                 | AccessDeniedError =>
                     Some (responses_add (cuaddr recipient)
                             (recipient_permissions responsecode.NOT_FOUND)
                             "3.8;No authority" None ;;;
                           (* Process next recipient *)
                           ret false)
                 | _ => None
                 end)
              (fun _ => ret true)
        | _ => ret true
        end ;;
      (if proceed : bool then
         (* Different behavior for free-busy vs regular invite *)
         if freebusy then
           generateFreeBusyResponse recipient organizerProp uid ;;; ret tt
         else
           generateResponse recipient ;;; ret tt
       else ret tt) ;;;
      recipientsLoop recipients' organizerProp uid
  end.

(** The loop that queues the delayed auto-response tasks. *)
Fixpoint autoResponseLoop (autoresponses : list Candidate) : M unit :=
  match autoresponses with
  | [] => ret tt
  | (principal, inbox, child) :: autoresponses' =>
      (* Add delayed reactor task to handle iTIP responses *)
      reactor_callLater
        {| dc_delay := 0%Z;
           dc_request := request scheduler;
           dc_principal := principal;
           dc_inbox := inbox;
           dc_calendar := duplicate C (calendar scheduler);
           dc_child := child |} ;;;
      autoResponseLoop autoresponses'
  end.

Definition generateSchedulingResponses (recipients : list LocalUser) : M unit :=
  (* Extract the ORGANIZER property and UID value from the calendar data *)
  let organizerProp := getOrganizerProperty C (calendar scheduler) in
  let uid := resourceUID C (calendar scheduler) in
  autoresponses_assign [] ;;;
  recipientsLoop recipients organizerProp uid ;;;
  (* Now we have to do auto-respond *)
  autoresponses <- autoresponses_read ;;
  (if negb (Nat.eqb (List.length autoresponses) 0) then
     (* First check that we have a method that we can auto-respond to *)
     if negb (canAutoRespond C (calendar scheduler)) then
       autoresponses_assign []
     else ret tt
   else ret tt) ;;;
  (* Now do the actual auto response *)
  autoresponses <- autoresponses_read ;;
  autoResponseLoop autoresponses.

(** *** The aggregation as the specification words it

    "For each source location in the free-busy set, in list order: resolve
    it. If it does not exist or is not a calendar collection, skip
    silently. Otherwise, accumulate matching intervals from that
    collection into FreeBusyInfo." *)

(** A resolved location that is an existing calendar collection. *)
Definition usable (resolved : option Resource) : bool :=
  match resolved with
  | None => false
  | Some res => exists_ res && isCalendarCollection res
  end.

(** The calendar collections among the resolved locations, in list order. *)
Fixpoint validSources (resolve : string -> option Resource)
    (fbset : list string) : list Resource :=
  match fbset with
  | [] => []
  | url :: fbset' =>
      match resolve url with
      | Some res =>
          if usable (Some res) then res :: validSources resolve fbset'
          else validSources resolve fbset'
      | None => validSources resolve fbset'
      end
  end.

(** Accumulation over calendar collections only. *)
Fixpoint accumulateFreeBusy (sources : list Resource) (fbinfo : FBInfo)
    (matchtotal : nat) (same_calendar_user remote : bool)
  : M (FBInfo * nat) :=
  match sources with
  | [] => ret (fbinfo, matchtotal)
  | res :: sources' =>
      r <- call (EvGenerateFreeBusyInfo res)
                (generateFreeBusyInfo C res fbinfo (timeRange scheduler)
                   matchtotal (excludeUID scheduler)
                   (cu_cuaddr (organizer scheduler))
                   same_calendar_user remote) ;;
      accumulateFreeBusy sources' (fst r) (snd r) same_calendar_user remote
  end.

(** The URL under which [generateResponse] stores the inbox item when the
    clock reads [now]. *)
Definition inboxItemURL (recipient : LocalUser) (now : string) : string :=
  joinURL C (inboxURL recipient)
    (md5_hexdigest C
       (calendar_str C (calendar scheduler) ++ now ++ fp_path (inbox recipient))
     ++ ".ics")%string.

(** The delayed call queued for a candidate. *)
Definition delayedCallFor (c : Candidate) : DelayedCall :=
  let '(principal, inbox, child) := c in
  {| dc_delay := 0%Z;
     dc_request := request scheduler;
     dc_principal := principal;
     dc_inbox := inbox;
     dc_calendar := duplicate C (calendar scheduler);
     dc_child := child |}.

End Engine.

Arguments Collaborators : clear implicits.
Arguments Scheduler : clear implicits.
Arguments DelayedCall : clear implicits.
Arguments state : clear implicits.

(** Log events that are access checks, implicit-processing calls or
    storage. *)
Definition is_check (ev : event) : bool :=
  match ev with EvCheckPrivileges _ _ => true | _ => false end.
Definition is_implicit (ev : event) : bool :=
  match ev with EvDoImplicitProcessing _ => true | _ => false end.
Definition is_store (ev : event) : bool :=
  match ev with EvStore _ | EvWriteDeadProperty _ _ => true | _ => false end.

(** Response entries as the engine builds them. *)
Definition failureEntry (recipient : string) (code : Z) (reqstatus : string)
  : ResponseEntry :=
  {| re_recipient := recipient;
     re_status := recipient_permissions code;
     re_reqstatus := reqstatus;
     re_calendar := None |}.

Definition successEntry (recipient : string) (cal : option FreeBusyResult)
  : ResponseEntry :=
  {| re_recipient := recipient;
     re_status := StatusCode responsecode.OK;
     re_reqstatus := "2.0;Success";
     re_calendar := cal |}.

(** ** A small deployment, used to run the engine on concrete inputs *)

Module Demo.

(** What each collaborator answers; the world is trivial. *)
Record Script : Type := {
  sc_check : Resource -> outcome unit;
  sc_locate : string -> outcome (option Resource);
  sc_implicit : LocalUser -> outcome (bool * bool);
  sc_store : string -> outcome unit;
  sc_write : Resource -> caldavxml.DeadProperty -> outcome unit;
  sc_attendee : list string -> outcome (option Property);
  sc_fbset : Principal -> outcome (list string);
  sc_hasprop : Resource -> outcome bool;
  sc_collect :
    Resource -> FBInfo -> TimeRange -> nat -> option string ->
    outcome (FBInfo * nat);
  sc_canAutoRespond : bool
}.

Definition collaborators (sc : Script) : Collaborators unit string :=
  {| calendar_str := fun cal => cal;
     getOrganizerProperty := fun _ => Some "ORGANIZER:mailto:olga@example.com";
     resourceUID := fun _ => "uid-1";
     duplicate := fun cal => cal;
     getAttendeeProperty := fun _ cuas w => (sc_attendee sc cuas, w);
     time_time := fun w => ("1257894000.0", w);
     md5_hexdigest := fun _ => "0cc175b9c0f1b6a831c399e269772661";
     joinURL := fun base name => (base ++ name)%string;
     checkPrivileges := fun inbox _ w => (sc_check sc inbox, w);
     locateResource := fun url w => (sc_locate sc url, w);
     storeCalendarObjectResource := fun child url _ _ w =>
       (match child with
        | Some _ => sc_store sc url
        | None => Raised (OtherException "AttributeError")
        end, w);
     writeDeadProperty := fun child p w => (sc_write sc child p, w);
     hasProperty := fun inbox _ w => (sc_hasprop sc inbox, w);
     readProperty := fun _ _ w => (Returned "", w);
     availability_calendar := fun text w => (Returned text, w);
     doImplicitProcessing := fun _ _ recipient w => (sc_implicit sc recipient, w);
     canAutoRespond := fun _ => sc_canAutoRespond sc;
     calendarFreeBusyURIs := fun p w => (sc_fbset sc p, w);
     processAvailabilityFreeBusy := fun _ fbinfo _ w => (Returned fbinfo, w);
     generateFreeBusyInfo :=
       fun res fbinfo range matchtotal excludeuid _ _ _ w =>
         (sc_collect sc res fbinfo range matchtotal excludeuid, w) |}.

Definition user (name : string) (auto : bool) : LocalUser :=
  {| cuaddr := ("mailto:" ++ name ++ "@example.com")%string;
     principal :=
       {| principalURL := ("/principals/users/" ++ name ++ "/")%string;
          calendarUserAddresses := [("mailto:" ++ name ++ "@example.com")%string];
          autoSchedule := auto |};
     inbox := {| fp_path := ("/data/calendars/" ++ name ++ "/inbox")%string;
                 exists_ := true; isCalendarCollection := false |};
     inboxURL := ("/calendars/users/" ++ name ++ "/inbox/")%string |}.

Definition olga : LocalUser := user "olga" false.
Definition alice : LocalUser := user "alice" true.
Definition bob : LocalUser := user "bob" false.
Definition carol : LocalUser := user "carol" false.
Definition dave : LocalUser := user "dave" false.
Definition erin : LocalUser := user "erin" true.

Definition invitation : string := "BEGIN:VCALENDAR METHOD:REQUEST END:VCALENDAR".

Definition localScheduler : Scheduler string :=
  {| request := "POST /calendars/users/olga/outbox/";
     calendar := invitation;
     organizer := LocalCalendarUser olga;
     originator := LocalCalendarUser olga;
     timeRange := (0, 100)%Z;
     excludeUID := None |}.

Definition remoteScheduler : Scheduler string :=
  {| request := "POST /inbox";
     calendar := invitation;
     organizer := RemoteCalendarUser "mailto:rita@elsewhere.org";
     originator := RemoteCalendarUser "mailto:rita@elsewhere.org";
     timeRange := (0, 100)%Z;
     excludeUID := None |}.

(** A located resource that does not exist yet (a new inbox item) or is
    missing. *)
Definition absent (url : string) : Resource :=
  {| fp_path := url; exists_ := false; isCalendarCollection := false |}.

Definition collection (url : string) : Resource :=
  {| fp_path := url; exists_ := true; isCalendarCollection := true |}.

Definition workURL : string := "/calendars/users/alice/work/".
Definition goneURL : string := "/calendars/users/alice/gone/".

(** The events of a calendar collection: (UID, BUSY period). *)
Definition eventsOf (res : Resource) : list (string * Period) :=
  if String.eqb (fp_path res) workURL then [("uid-7", (10, 20)%Z)] else [].

Definition inside (range : TimeRange) (p : Period) : bool :=
  (fst range <=? fst p)%Z && (snd p <=? snd range)%Z.

Definition excluded (excludeuid : option string) (uid : string) : bool :=
  match excludeuid with
  | Some u => String.eqb u uid
  | None => false
  end.

(** Modelled from the spec: [report_common.generateFreeBusyInfo]
    (method/report_common.py is not part of the sources at hand), the
    free-busy interval collector over one calendar collection: it adds the
    collection's intervals that match the requested range, leaving out
    the excluded UID, and updates the running match counter. *)
Definition collect (res : Resource) (fbinfo : FBInfo) (range : TimeRange)
    (matchtotal : nat) (excludeuid : option string) : outcome (FBInfo * nat) :=
  let matching :=
    filter (fun e => inside range (snd e) && negb (excluded excludeuid (fst e)))
           (eventsOf res) in
  let '(busy, tentative, unavailable) := fbinfo in
  Returned ((busy ++ map snd matching, tentative, unavailable),
            matchtotal + List.length matching).

(** Bob's inbox denies the organizer; Carol's message is rejected by the
    implicit processor; Dave's is auto-processed; Erin's inbox cannot be
    written. *)
Definition office : Script :=
  {| sc_check := fun res =>
       if String.eqb (fp_path res) (fp_path (inbox bob))
       then Raised AccessDeniedError else Returned tt;
     sc_locate := fun url =>
       if String.eqb url workURL then Returned (Some (collection url))
       else Returned (Some (absent url));
     sc_implicit := fun recipient =>
       if String.eqb (cuaddr recipient) (cuaddr carol)
       then Raised (ImplicitProcessorException "5.3;Invalid date")
       else if String.eqb (cuaddr recipient) (cuaddr dave)
       then Returned (true, true)
       else Returned (false, false);
     sc_store := fun url =>
       if PyStr.startswith url (inboxURL erin)
       then Raised (OtherException "IOError") else Returned tt;
     sc_write := fun _ _ => Returned tt;
     sc_attendee := fun cuas => Returned (Some (PyStr.item0 cuas));
     sc_fbset := fun p =>
       if String.eqb (principalURL p) (principalURL (principal alice))
       then Returned [goneURL; workURL] else Returned [goneURL];
     sc_hasprop := fun _ => Returned false;
     sc_collect := collect;
     sc_canAutoRespond := true |}.

(** The same deployment with a resource store whose lookup fails. *)
Definition brokenStore : Script :=
  {| sc_check := sc_check office;
     sc_locate := fun _ => Raised (OtherException "IOError");
     sc_implicit := sc_implicit office;
     sc_store := sc_store office;
     sc_write := sc_write office;
     sc_attendee := sc_attendee office;
     sc_fbset := sc_fbset office;
     sc_hasprop := sc_hasprop office;
     sc_collect := sc_collect office;
     sc_canAutoRespond := true |}.

(** The same deployment with a calendar whose attendee lookup fails. *)
Definition brokenCalendar : Script :=
  {| sc_check := sc_check office;
     sc_locate := sc_locate office;
     sc_implicit := sc_implicit office;
     sc_store := sc_store office;
     sc_write := sc_write office;
     sc_attendee := fun _ => Raised (OtherException "ValueError");
     sc_fbset := sc_fbset office;
     sc_hasprop := sc_hasprop office;
     sc_collect := sc_collect office;
     sc_canAutoRespond := true |}.

(** The same deployment with a collector that fails. *)
Definition brokenCollector : Script :=
  {| sc_check := sc_check office;
     sc_locate := sc_locate office;
     sc_implicit := sc_implicit office;
     sc_store := sc_store office;
     sc_write := sc_write office;
     sc_attendee := sc_attendee office;
     sc_fbset := sc_fbset office;
     sc_hasprop := sc_hasprop office;
     sc_collect := fun _ _ _ _ _ => Raised (OtherException "IOError");
     sc_canAutoRespond := true |}.

(** The same deployment receiving a message whose iTIP method has no
    automatic response. *)
Definition noAutoRespond : Script :=
  {| sc_check := sc_check office;
     sc_locate := sc_locate office;
     sc_implicit := sc_implicit office;
     sc_store := sc_store office;
     sc_write := sc_write office;
     sc_attendee := sc_attendee office;
     sc_fbset := sc_fbset office;
     sc_hasprop := sc_hasprop office;
     sc_collect := sc_collect office;
     sc_canAutoRespond := false |}.

Definition start : state unit string :=
  mkState tt [] [] [] [].

(** The inbox item a delivery to [recipient] creates. *)
Definition itemURL (recipient : LocalUser) : string :=
  inboxItemURL (collaborators office) localScheduler recipient "1257894000.0".

Definition organizerProp : option Property :=
  Some "ORGANIZER:mailto:olga@example.com".

Definition resolve (url : string) : option Resource :=
  if String.eqb url workURL then Some (collection url) else Some (absent url).

End Demo.

(** ** Collaborators that fail only in the ways the engine handles

    The access check raises nothing but [AccessDeniedError], the implicit
    processor nothing but [ImplicitProcessorException]; locating a
    resource, writing a dead property and looking up the attendee property
    do not raise, and nothing is stored at a location that was not found.
    Storage and free-busy aggregation may raise anything. *)
Record Disciplined {W Calendar : Type} (C : Collaborators W Calendar) : Prop := {
  checkPrivileges_raises :
    forall res p w e w',
      checkPrivileges C res p w = (Raised e, w') -> e = AccessDeniedError;
  locateResource_returns :
    forall url w e w', locateResource C url w <> (Raised e, w');
  doImplicitProcessing_raises :
    forall cal o r w e w',
      doImplicitProcessing C cal o r w = (Raised e, w') ->
      exists msg, e = ImplicitProcessorException msg;
  store_needs_resource :
    forall url res cal w w',
      storeCalendarObjectResource C None url res cal w <> (Returned tt, w');
  writeDeadProperty_returns :
    forall child p w e w', writeDeadProperty C child p w <> (Raised e, w');
  getAttendeeProperty_returns :
    forall cal cuas w e w', getAttendeeProperty C cal cuas w <> (Raised e, w')
}.

(** ** Parts of the state a computation leaves alone *)

(** [preserves proj m]: running [m] from any state, whatever its outcome,
    leaves [proj] of the state as it was. *)
Definition preserves {W Calendar X A : Type} (proj : state W Calendar -> X)
    (m : M (W:=W) (Calendar:=Calendar) A) : Prop :=
  forall s, proj (snd (m s)) = proj s.

(** The access checks recorded in the log. *)
Definition checksOf {W Calendar : Type} (s : state W Calendar) : list event :=
  filter is_check (st_log s).

(** ** More vocabulary for the engine *)

(** What the loop over the recipients does for one recipient: the access
    check, then the delivery. *)
Definition recipientStep {W Calendar : Type} (C : Collaborators W Calendar)
    (scheduler : Scheduler Calendar) (freebusy : bool) (recipient : LocalUser)
    (organizerProp : option Property) (uid : string) : M unit :=
  bind
    match organizer scheduler with
    | LocalCalendarUser o =>
        try_except_else
          (call (EvCheckPrivileges (inbox recipient)
                   (principalURL (principal o)))
                (checkPrivileges C (inbox recipient)
                   (principalURL (principal o))))
          (fun e =>
             match e with
             | AccessDeniedError =>
                 Some (bind
                         (responses_add (cuaddr recipient)
                            (recipient_permissions responsecode.NOT_FOUND)
                            "3.8;No authority" None)
                         (fun _ => ret false))
             | _ => None
             end)
          (fun _ => ret true)
    | _ => ret true
    end
    (fun proceed : bool =>
       if proceed then
         if freebusy then
           bind (generateFreeBusyResponse C scheduler recipient organizerProp uid)
                (fun _ => ret tt)
         else
           bind (generateResponse C scheduler recipient) (fun _ => ret tt)
       else ret tt).

(** *** Exceptions no handler covers *)

(** The access check lets the delivery to [recipient] start: from the
    state [s] of the loop, the delivery starts in [s0]. *)
Definition accessGranted {W Calendar : Type} (C : Collaborators W Calendar)
    (scheduler : Scheduler Calendar) (recipient : LocalUser)
    (s s0 : state W Calendar) : Prop :=
  match organizer scheduler with
  | LocalCalendarUser o =>
      exists w,
        checkPrivileges C (inbox recipient) (principalURL (principal o))
                        (st_world s) = (Returned tt, w)
        /\ s0 = afterCall s w
                  (EvCheckPrivileges (inbox recipient)
                     (principalURL (principal o)))
  | _ => s0 = s
  end.

(** Writing the three properties of the stored item [child], from the
    world [w]: the first write that raises raises [e], and leaves the
    world at [w']. *)
Definition annotationRaises {W Calendar : Type} (C : Collaborators W Calendar)
    (scheduler : Scheduler Calendar) (recipient : LocalUser)
    (child : Resource) (processed : bool) (w : W) (e : exn) (w' : W) : Prop :=
  let originator_prop :=
    caldavxml.Originator (cu_cuaddr (originator scheduler)) in
  let recipient_prop := caldavxml.Recipient (cuaddr recipient) in
  let state_prop :=
    caldavxml.ScheduleState
      (if processed then caldavxml.ScheduleProcessed
       else caldavxml.ScheduleUnprocessed) in
  writeDeadProperty C child originator_prop w = (Raised e, w')
  \/ (exists w1,
        writeDeadProperty C child originator_prop w = (Returned tt, w1)
        /\ writeDeadProperty C child recipient_prop w1 = (Raised e, w'))
  \/ (exists w1 w2,
        writeDeadProperty C child originator_prop w = (Returned tt, w1)
        /\ writeDeadProperty C child recipient_prop w1 = (Returned tt, w2)
        /\ writeDeadProperty C child state_prop w2 = (Raised e, w')).

(** In the delivery to [recipient] that starts in [s0], the exception [e]
    is raised at a place no handler covers: in a free-busy request, by the
    extraction of the attendee property; in an invitation, by the lookup
    of the new inbox resource, by the implicit processor when [e] is not
    an [ImplicitProcessorException], or by the annotation of the stored
    item. *)
Definition uncaughtInDelivery {W Calendar : Type}
    (C : Collaborators W Calendar) (scheduler : Scheduler Calendar)
    (freebusy : bool) (recipient : LocalUser) (s0 : state W Calendar)
    (e : exn) : Prop :=
  if freebusy then
    exists w,
      getAttendeeProperty C (calendar scheduler)
        (calendarUserAddresses (principal recipient)) (st_world s0)
      = (Raised e, w)
  else
    exists now w0,
      time_time C (st_world s0) = (now, w0)
      /\ ((exists w1,
             locateResource C (inboxItemURL C scheduler recipient now) w0
             = (Raised e, w1))
          \/ exists child w1,
               locateResource C (inboxItemURL C scheduler recipient now) w0
               = (Returned child, w1)
               /\ ((exists w2,
                      doImplicitProcessing C (calendar scheduler)
                        (originator scheduler) recipient w1 = (Raised e, w2)
                      /\ forall msg, e <> ImplicitProcessorException msg)
                   \/ exists item processed w2 w3 w4,
                        child = Some item
                        /\ doImplicitProcessing C (calendar scheduler)
                             (originator scheduler) recipient w1
                           = (Returned (processed, false), w2)
                        /\ storeCalendarObjectResource C child
                             (inboxItemURL C scheduler recipient now)
                             (inbox recipient) (calendar scheduler) w2
                           = (Returned tt, w3)
                        /\ annotationRaises C scheduler recipient item
                             processed w3 e w4)).

(** In the step of the loop for [recipient] that starts in [s], the
    exception [e] is raised at a place no handler covers: by the access
    check when [e] is not an [AccessDeniedError], or in the delivery. *)
Definition uncaught {W Calendar : Type} (C : Collaborators W Calendar)
    (scheduler : Scheduler Calendar) (freebusy : bool)
    (recipient : LocalUser) (s : state W Calendar) (e : exn) : Prop :=
  (exists o w,
      organizer scheduler = LocalCalendarUser o
      /\ checkPrivileges C (inbox recipient) (principalURL (principal o))
                         (st_world s) = (Raised e, w)
      /\ e <> AccessDeniedError)
  \/ exists s0,
       accessGranted C scheduler recipient s s0
       /\ uncaughtInDelivery C scheduler freebusy recipient s0 e.

(** The collaborator calls a free-busy run makes, and those an invitation
    run makes. *)
Definition freebusy_event (ev : event) : bool :=
  match ev with
  | EvCheckPrivileges _ _ | EvLocateResource _ | EvGetAttendeeProperty _
  | EvCalendarFreeBusyURIs _ | EvHasProperty _ | EvReadProperty _
  | EvAvailabilityCalendar | EvProcessAvailabilityFreeBusy
  | EvGenerateFreeBusyInfo _ => true
  | EvDoImplicitProcessing _ | EvStore _ | EvWriteDeadProperty _ _ => false
  end.

Definition invite_event (ev : event) : bool :=
  match ev with
  | EvCheckPrivileges _ _ | EvLocateResource _ | EvDoImplicitProcessing _
  | EvStore _ | EvWriteDeadProperty _ _ => true
  | EvGetAttendeeProperty _ | EvCalendarFreeBusyURIs _ | EvHasProperty _
  | EvReadProperty _ | EvAvailabilityCalendar | EvProcessAvailabilityFreeBusy
  | EvGenerateFreeBusyInfo _ => false
  end.

Definition run_event (freebusy : bool) (ev : event) : bool :=
  if freebusy then freebusy_event ev else invite_event ev.

(** [logs_only P m]: running [m] adds to the log, and only calls of kind
    [P]. *)
Definition logs_only {W Calendar A : Type} (P : event -> bool)
    (m : M (W:=W) (Calendar:=Calendar) A) : Prop :=
  forall s, exists l,
    st_log (snd (m s)) = st_log s ++ l /\ forallb P l = true.

(** The access checks a run makes for a local organizer [o]. *)
Definition checksFor (o : LocalUser) (recipients : list LocalUser)
  : list event :=
  map (fun recipient =>
         EvCheckPrivileges (inbox recipient) (principalURL (principal o)))
      recipients.

(** [s] contains no character [c]. *)
Fixpoint lacks (c : ascii) (s : string) : bool :=
  match s with
  | EmptyString => true
  | String c' s' => negb (Ascii.eqb c' c) && lacks c s'
  end.

(** ** Configuration objects ([config.py]) *)

Module config.

Import stdpp.base stdpp.gmap stdpp.strings.

(** Errors of the configuration code. *)
Inductive error : Type :=
| IOError
| OSError
| PlistError (what : string)
| KeyError (key : string)
| ConfigurationError (msg : string)
| KeychainAccessError
| KeychainPasswordNotFound
| AttributeError (name : string)
| TypeError
| ReError (msg : string).

Inductive result (A : Type) : Type :=
| Ok (a : A)
| Failed (e : error).
Arguments Failed {A} e.

Section Attributes.

(** A [Config] object, by the attributes it holds (its [__dict__]).  The
    names are byte strings (Python's [str]); the values are configuration
    data (strings, numbers, booleans, lists and dictionaries), none of
    them callable, none a class. *)
Context {V : Type}.

(** [value.iteritems()]: the items of a dictionary, in the order of the
    iteration; a value that is no dictionary has no such method. *)
Variable iteritems : V -> option (list (string * V)).

(** The names [setattr] does not store as plain attributes of the object:
    [__dict__], [__class__] and [__weakref__]. *)
Definition special (key : string) : bool :=
  String.eqb key "__dict__" || String.eqb key "__class__"
  || String.eqb key "__weakref__".

(** [setattr(self, key, value)].  [__dict__] takes a dictionary, which
    becomes the attributes of the object, and refuses another value;
    [__class__] takes a class only; [__weakref__] cannot be written;
    any other name is stored, [update] too. *)
Definition setattr (self : gmap string V) (key : string) (value : V)
  : result (gmap string V) :=
  if String.eqb key "__dict__" then
    match iteritems value with
    | Some attributes => Ok (list_to_map attributes)
    | None => Failed TypeError
    end
  else if String.eqb key "__class__" then Failed TypeError
  else if String.eqb key "__weakref__" then Failed (AttributeError key)
  else Ok (<[key := value]> self).

(** [for key, value in items: setattr(self, key, value)]: the outcome, and
    the object as the loop leaves it. *)
Fixpoint setattrs (self : gmap string V) (items : list (string * V))
  : result unit * gmap string V :=
  match items with
  | [] => (Ok tt, self)
  | (key, value) :: items' =>
      match setattr self key value with
      | Ok self' => setattrs self' items'
      | Failed e => (Failed e, self)
      end
  end.

(** The body of [Config.update]. *)
Definition update (self : gmap string V) (items : V)
  : result unit * gmap string V :=
  match iteritems items with
  | Some items => setattrs self items
  | None => (Failed (AttributeError "iteritems"), self)
  end.

(** The call [self.update(items)]: the attribute [update] of the object is
    the method of the class unless the object itself holds an attribute of
    that name; that one is then called, and it is not callable. *)
Definition call_update (self : gmap string V) (items : V)
  : result unit * gmap string V :=
  match self !! "update" with
  | Some _ => (Failed TypeError, self)
  | None => update self items
  end.

(** [Config(defaults)] *)
Definition Config (defaults : V) : result (gmap string V) :=
  match call_update ∅ defaults with
  | (Ok _, self) => Ok self
  | (Failed e, _) => Failed e
  end.

(** [os.path.exists] and [readPlist] *)
Variable path_exists : string -> bool.
Variable readPlist : string -> result V.

(** [parseConfig], on the module's [config] object: the outcome, and the
    object as the call leaves it. *)
Definition parseConfig (config : gmap string V) (configFile : string)
  : result unit * gmap string V :=
  if path_exists configFile then
    match readPlist configFile with
    | Ok plist => call_update config plist
    | Failed e => (Failed e, config)
    end
  else (Ok tt, config).

End Attributes.

End config.

(** ** Standard configuration ([stdconfig.py]) *)

Module stdconfig.

Import stdpp.base stdpp.gmap stdpp.strings.
Import config.

(** Values of a property list. *)
#[warnings="-register-all"]
Inductive PValue : Type :=
| PStr (s : string)
| PInt (z : Z)
| PBool (b : bool)
| PList (l : list PValue)
| PDict (d : list (string * PValue)).

(** The truth value of a property-list value in a condition. *)
Definition truthy (v : PValue) : bool :=
  match v with
  | PStr s => PyStr.truthy s
  | PInt z => negb (Z.eqb z 0)
  | PBool b => b
  | PList l => match l with [] => false | _ => true end
  | PDict d => match d with [] => false | _ => true end
  end.

Definition DEFAULT_SERVICE_PARAMS : gmap string (gmap string PValue) :=
  list_to_map
    [("twistedcaldav.directory.xmlfile.XMLDirectoryService",
      list_to_map [("xmlFile", PStr "/etc/caldavd/accounts.xml")]);
     ("twistedcaldav.directory.appleopendirectory.OpenDirectoryService",
      list_to_map [("node", PStr "/Search"); ("cacheTimeout", PInt 30)])].

Definition DEFAULT_AUGMENT_PARAMS : gmap string (gmap string PValue) :=
  list_to_map
    [("twistedcaldav.directory.augment.AugmentXMLDB",
      list_to_map [("xmlFiles", PList [PStr "/etc/caldavd/augments.xml"])]);
     ("twistedcaldav.directory.augment.AugmentSqliteDB",
      list_to_map [("dbpath", PStr "/etc/caldavd/augments.sqlite")]);
     ("twistedcaldav.directory.augment.AugmentPostgreSQLDB",
      list_to_map [("host", PStr "localhost"); ("database", PStr "augments")])].

Definition DEFAULT_PROXYDB_PARAMS : gmap string (gmap string PValue) :=
  list_to_map
    [("twistedcaldav.directory.calendaruserproxy.ProxySqliteDB",
      list_to_map [("dbpath", PStr "/etc/caldavd/proxies.sqlite")]);
     ("twistedcaldav.directory.calendaruserproxy.ProxyPostgreSQLDB",
      list_to_map [("host", PStr "localhost"); ("database", PStr "proxies")])].

(** A service entry of the configuration: [DirectoryService],
    [AugmentService], [ProxyDBService]. *)
Record ServiceConfig : Type := {
  type : string;
  params : gmap string PValue
}.

(** [for param in tuple(params): if param not in supported: del params[param]] *)
Definition dropUnsupported (supported params : gmap string PValue)
  : gmap string PValue :=
  map_fold
    (fun param _ params =>
       if decide (is_Some (supported !! param)) then params
       else delete param params)
    params params.

(** The three post-update hooks have the same body, each with its table of
    defaults. *)
Definition postUpdateService (table : gmap string (gmap string PValue))
    (service : ServiceConfig) : ServiceConfig :=
  match table !! type service with
  | Some supported =>
      {| type := type service;
         params := dropUnsupported supported (params service) |}
  | None => service
  end.

Definition _postUpdateDirectoryService : ServiceConfig -> ServiceConfig :=
  postUpdateService DEFAULT_SERVICE_PARAMS.
Definition _postUpdateAugmentService : ServiceConfig -> ServiceConfig :=
  postUpdateService DEFAULT_AUGMENT_PARAMS.
Definition _postUpdateProxyDBService : ServiceConfig -> ServiceConfig :=
  postUpdateService DEFAULT_PROXYDB_PARAMS.

Section Cleanup.

Context {V : Type}.

(** [os.environ] *)
Variable environ : gmap string string.

(** Whether unknown options are let through. *)
Definition loose : bool :=
  bool_decide (environ !! "ICAL_SERVER_CONFIG_VALIDATION" = Some "loose").

(** [unknown] of [_cleanup] *)
Definition unknown (key : string) (cleanDict : gmap string V) : gmap string V :=
  if loose then cleanDict else delete key cleanDict.

(** [_cleanup]; [renamedOptions] is empty, so that no key is renamed. *)
Definition _cleanup (configDict defaultDict : gmap string V) : gmap string V :=
  map_fold
    (fun key _ cleanDict =>
       if decide (is_Some (defaultDict !! key)) then cleanDict
       else unknown key cleanDict)
    configDict configDict.

(** [PListConfigProvider.loadConfig] *)
Definition loadConfig (readPlist : string -> result (gmap string V))
    (_configFileName : string) (_defaults : gmap string V)
  : result (gmap string V) :=
  if PyStr.truthy _configFileName then
    match readPlist _configFileName with
    | Failed IOError | Failed OSError => Ok ∅
    | Failed e => Failed e
    | Ok configDict => Ok (_cleanup configDict _defaults)
    end
  else Ok ∅.

End Cleanup.

(** *** Notifications *)

(** A dictionary of the configuration, as the list of its items in the
    order in which it is iterated; keys are distinct. *)
Definition Dict : Type := list (string * PValue).

(** [d[key]] *)
Fixpoint getitem (d : Dict) (key : string) : result PValue :=
  match d with
  | [] => Failed (KeyError key)
  | (k, v) :: d' => if String.eqb k key then Ok v else getitem d' key
  end.

(** [d[key] = value] *)
Fixpoint setitem (d : Dict) (key : string) (value : PValue) : Dict :=
  match d with
  | [] => [(key, value)]
  | (k, v) :: d' =>
      if String.eqb k key then (k, value) :: d'
      else (k, v) :: setitem d' key value
  end.

(** [configDict.Notifications], as far as the hook reads and writes it. *)
Record Notifications : Type := {
  Enabled : PValue;
  Services : list (string * Dict)
}.

Definition XMPPNotifierService : string :=
  "twistedcaldav.notify.XMPPNotifierService".

(** [v == s] for a string [s] *)
Definition equals_string (v : PValue) (s : string) : bool :=
  match v with PStr s' => String.eqb s' s | _ => false end.

(** The first loop: whether a service is enabled, stopping at the first
    that is. *)
Fixpoint anyServiceEnabled (services : list (string * Dict)) : result bool :=
  match services with
  | [] => Ok false
  | (_, service) :: services' =>
      match getitem service "Enabled" with
      | Failed e => Failed e
      | Ok enabled =>
          if truthy enabled then Ok true else anyServiceEnabled services'
      end
  end.

(** The keys whose value may be empty. *)
Definition mayBeEmpty (key : string) : bool :=
  String.eqb key "AllowedJIDs" || String.eqb key "HeartbeatMinutes"
  || String.eqb key "Password".

(** Whether a service has a true [Enabled] item. *)
Definition serviceEnabled (service : Dict) : bool :=
  match getitem service "Enabled" with
  | Ok enabled => truthy enabled
  | Failed _ => false
  end.

(** Whether a service is an XMPP notifier. *)
Definition isXMPP (service : Dict) : bool :=
  match getitem service "Service" with
  | Ok kind => equals_string kind XMPPNotifierService
  | Failed _ => false
  end.

Section Keychain.

(** [getPasswordFromKeychain] and [repr] *)
Variable getPasswordFromKeychain : PValue -> result string.
Variable repr : PValue -> string.

(** Check for empty fields. *)
Fixpoint checkEmptyFields (items : Dict) : result unit :=
  match items with
  | [] => Ok tt
  | (key, value) :: items' =>
      if negb (truthy value) && negb (mayBeEmpty key) then
        Failed (ConfigurationError
                  ("Invalid " ++ key ++ " for XMPPNotifierService: "
                   ++ repr value))
      else checkEmptyFields items'
  end.

(** The body of the second loop for one service: the outcome and the
    service as it is left. *)
Definition updateService (service : Dict) : result unit * Dict :=
  match getitem service "Service" with
  | Failed e => (Failed e, service)
  | Ok kind =>
      if equals_string kind XMPPNotifierService then
        match getitem service "Enabled" with
        | Failed e => (Failed e, service)
        | Ok enabled =>
            if truthy enabled then
              (* Get password from keychain. If not there, fall back to
                 what is in the plist. *)
              match getitem service "JID" with
              | Failed e => (Failed e, service)
              | Ok jid =>
                  match getPasswordFromKeychain jid with
                  | Ok password =>
                      let service' := setitem service "Password" (PStr password) in
                      (checkEmptyFields service', service')
                  | Failed KeychainAccessError
                  | Failed KeychainPasswordNotFound =>
                      (checkEmptyFields service, service)
                  | Failed e => (Failed e, service)
                  end
              end
            else (Ok tt, service)
        end
      else (Ok tt, service)
  end.

(** The second loop. *)
Fixpoint updateServices (services : list (string * Dict))
  : result unit * list (string * Dict) :=
  match services with
  | [] => (Ok tt, [])
  | (name, service) :: services' =>
      match updateService service with
      | (Ok _, service') =>
          let (r, rest) := updateServices services' in
          (r, (name, service') :: rest)
      | (Failed e, service') => (Failed e, (name, service') :: services')
      end
  end.

(** [_updateNotifications]: the outcome and the notifications as they are
    left. *)
Definition _updateNotifications (_reloading : bool) (n : Notifications)
  : result unit * Notifications :=
  (* Reloading not supported -- requires process running as root *)
  if _reloading then (Ok tt, n)
  else
    match anyServiceEnabled (Services n) with
    | Failed e => (Failed e, n)
    | Ok enabled =>
        let (r, services) := updateServices (Services n) in
        (r, {| Enabled := PBool enabled; Services := services |})
    end.

End Keychain.

(** *** Scheduling: the passwords of the iMIP service *)

Section SchedulingPasswords.

(** [getPasswordFromKeychain], [str], and the attribute [value.name] of
    a configuration value. *)
Variable getPasswordFromKeychain : PValue -> result string.
Variable str : PValue -> string.
Variable getattr : PValue -> string -> result PValue.

(** The body of the loop over [("Sending", "Receiving")]: the account is
    [service[direction]]; the item assignment needs a dictionary. *)
Definition updateDirection (service : Dict) (direction : string)
  : result unit * Dict :=
  match getitem service direction with
  | Failed e => (Failed e, service)
  | Ok account =>
      match getattr account "Username" with
      | Failed e => (Failed e, service)
      | Ok username =>
          if truthy username then
            match getattr account "Server" with
            | Failed e => (Failed e, service)
            | Ok server =>
                match getPasswordFromKeychain
                        (PStr (str username ++ "@" ++ str server))
                with
                | Ok password =>
                    match account with
                    | PDict d =>
                        (Ok tt,
                         setitem service direction
                           (PDict (setitem d "Password" (PStr password))))
                    | _ => (Failed TypeError, service)
                    end
                | Failed KeychainAccessError
                | Failed KeychainPasswordNotFound => (Ok tt, service)
                | Failed e => (Failed e, service)
                end
            end
          else (Ok tt, service)
      end
  end.

(** [_updateScheduling], on [configDict.Scheduling["iMIP"]]: the outcome
    and the service as it is left. *)
Definition _updateScheduling (_reloading : bool) (service : Dict)
  : result unit * Dict :=
  (* Reloading not supported -- requires process running as root *)
  if _reloading then (Ok tt, service)
  else
    match getitem service "Enabled" with
    | Failed e => (Failed e, service)
    | Ok enabled =>
        if truthy enabled then
          match getitem service "Username" with
          | Failed e => (Failed e, service)
          | Ok username =>
              match (if truthy username
                     then
                       match getPasswordFromKeychain username with
                       | Ok password =>
                           Ok (setitem service "Password" (PStr password))
                       | Failed KeychainAccessError
                       | Failed KeychainPasswordNotFound => Ok service
                       | Failed e => Failed e
                       end
                     else Ok service) with
              | Failed e => (Failed e, service)
              | Ok service1 =>
                  match updateDirection service1 "Sending" with
                  | (Ok _, service2) => updateDirection service2 "Receiving"
                  | (Failed e, service2) => (Failed e, service2)
                  end
              end
          end
        else (Ok tt, service)
    end.

End SchedulingPasswords.

(** Two answers of [d[key]] that differ at most by the [Password] of a
    dictionary. *)
Definition sameButPassword (old new : result PValue) : Prop :=
  new = old
  \/ exists d d',
       old = Ok (PDict d) /\ new = Ok (PDict d')
       /\ forall key : string,
            key <> "Password" -> getitem d' key = getitem d key.

(** Two states of the service that differ at most by passwords: its own
    and those of the two directions. *)
Definition passwordsApart (old new : Dict) : Prop :=
  (forall key : string,
     key <> "Password" -> key <> "Sending" -> key <> "Receiving" ->
     getitem new key = getitem old key)
  /\ (forall direction : string,
        direction = "Sending" \/ direction = "Receiving" ->
        sameButPassword (getitem old direction) (getitem new direction)).

(** *** Rejected clients *)

Section RejectClients.

(** [re.compile] *)
Context {Pattern : Type}.
Variable re_compile : string -> result Pattern.

(** [[re.compile(x) for x in RejectClients if x]] *)
Fixpoint compileAll (expressions : list string) : result (list Pattern) :=
  match expressions with
  | [] => Ok []
  | x :: expressions' =>
      if PyStr.truthy x then
        match re_compile x with
        | Failed e => Failed e
        | Ok pattern =>
            match compileAll expressions' with
            | Ok patterns => Ok (pattern :: patterns)
            | Failed e => Failed e
            end
        end
      else compileAll expressions'
  end.

(** [_updateRejectClients] *)
Definition _updateRejectClients (RejectClients : list string)
  : result (list Pattern) :=
  match compileAll RejectClients with
  | Failed (ReError e) =>
      Failed (ConfigurationError
                ("Invalid regular expression in RejectClients: " ++ e))
  | r => r
  end.

End RejectClients.

End stdconfig.

(** ** Further concrete inputs *)

Module Samples.

Import Demo.

(** A server for the domain [example.com]. *)
Definition mailConfig : CalDAVSchedulingConfig :=
  {| EmailDomain := "example.com";
     HTTPDomain := "example.com";
     AddressPatterns := ["mailto:.*@example\.org"] |}.

(** A server with no domain, only a pattern. *)
Definition patternConfig : CalDAVSchedulingConfig :=
  {| EmailDomain := ""; HTTPDomain := ""; AddressPatterns := ["urn:uuid:.*"] |}.

(** A matcher that knows the one pattern of [patternConfig]. *)
Definition uuidMatch (pattern cuaddr : string) : bool :=
  String.eqb pattern "urn:uuid:.*" && PyStr.startswith cuaddr "urn:uuid:".

(** The office of [Demo], where every inbox carries an availability that
    makes the recipient unavailable over [(0, 8)]. *)
Definition officeHours : Collaborators unit string :=
  let base := collaborators office in
  {| calendar_str := calendar_str base;
     getOrganizerProperty := getOrganizerProperty base;
     resourceUID := resourceUID base;
     duplicate := duplicate base;
     getAttendeeProperty := getAttendeeProperty base;
     time_time := time_time base;
     md5_hexdigest := md5_hexdigest base;
     joinURL := joinURL base;
     checkPrivileges := checkPrivileges base;
     locateResource := locateResource base;
     storeCalendarObjectResource := storeCalendarObjectResource base;
     writeDeadProperty := writeDeadProperty base;
     hasProperty := fun _ _ w => (Returned true, w);
     readProperty := fun _ _ w => (Returned "BEGIN:VAVAILABILITY", w);
     availability_calendar := availability_calendar base;
     doImplicitProcessing := doImplicitProcessing base;
     canAutoRespond := canAutoRespond base;
     calendarFreeBusyURIs := calendarFreeBusyURIs base;
     processAvailabilityFreeBusy :=
       fun _ fbinfo _ w =>
         let '(busy, tentative, unavailable) := fbinfo in
         (Returned (busy, tentative, unavailable ++ [(0, 8)%Z]), w);
     generateFreeBusyInfo := generateFreeBusyInfo base |}.

(** The office with inbox items that can be stored but not annotated. *)
Definition frozenProperties : Script :=
  {| sc_check := sc_check office;
     sc_locate := sc_locate office;
     sc_implicit := sc_implicit office;
     sc_store := sc_store office;
     sc_write := fun _ p =>
       match p with
       | caldavxml.Recipient _ => Raised (OtherException "IOError")
       | _ => Returned tt
       end;
     sc_attendee := sc_attendee office;
     sc_fbset := sc_fbset office;
     sc_hasprop := sc_hasprop office;
     sc_collect := sc_collect office;
     sc_canAutoRespond := true |}.

End Samples.

Module ConfigSamples.

Import stdpp.base stdpp.gmap stdpp.strings.
Import config stdconfig.

(** A few options of the defaults, a property list that overrides one of
    them and brings an option nobody knows, and the files of the system. *)
Definition someDefaults : gmap string PValue :=
  list_to_map
    [("ServerHostName", PStr "localhost");
     ("HTTPPort", PInt 8008);
     ("Authentication",
      PDict [("Basic", PDict [("Enabled", PBool false)]);
             ("Digest", PDict [("Enabled", PBool true)])])].

Definition somePlist : gmap string PValue :=
  list_to_map
    [("HTTPPort", PInt 80);
     ("Authentication", PDict [("Basic", PDict [("Enabled", PBool true)])]);
     ("Colour", PStr "blue")].

Definition caldavdPlist : string := "/etc/caldavd/caldavd.plist".

Definition onlyCaldavd (path : string) : bool := String.eqb path caldavdPlist.

Definition readSome (path : string) : result (gmap string PValue) :=
  if String.eqb path caldavdPlist then Ok somePlist else Failed IOError.

Definition strictEnviron : gmap string string := ∅.

Definition looseEnviron : gmap string string :=
  {["ICAL_SERVER_CONFIG_VALIDATION" := "loose"]}.

(** The items of a dictionary of the property list. *)
Definition itemsOf (v : PValue) : option (list (string * PValue)) :=
  match v with
  | PDict d => Some d
  | _ => None
  end.

(** The same defaults and property list as dictionaries, defaults with an
    option named [update], and dictionaries with a [__class__] and a
    [__dict__] item. *)
Definition defaultsDict : PValue :=
  PDict
    [("ServerHostName", PStr "localhost");
     ("HTTPPort", PInt 8008);
     ("Authentication",
      PDict [("Basic", PDict [("Enabled", PBool false)]);
             ("Digest", PDict [("Enabled", PBool true)])])].

Definition plistDict : PValue :=
  PDict
    [("HTTPPort", PInt 80);
     ("Authentication", PDict [("Basic", PDict [("Enabled", PBool true)])]);
     ("Colour", PStr "blue")].

Definition readDict (path : string) : result PValue :=
  if String.eqb path caldavdPlist then Ok plistDict else Failed IOError.

Definition updateDefaults : PValue :=
  PDict [("HTTPPort", PInt 8008); ("update", PStr "daily")].

Definition classDict : PValue :=
  PDict [("HTTPPort", PInt 80);
         ("__class__", PStr "Config");
         ("SSLPort", PInt 8443)].

Definition resetDict : PValue :=
  PDict [("HTTPPort", PInt 80);
         ("__dict__", PDict [("Colour", PStr "blue")]);
         ("SSLPort", PInt 8443)].

(** A directory service given a parameter of another service. *)
Definition xmlDirectory : ServiceConfig :=
  {| type := "twistedcaldav.directory.xmlfile.XMLDirectoryService";
     params :=
       list_to_map [("xmlFile", PStr "/etc/caldavd/users.xml");
                    ("node", PStr "/Search")] |}.

(** Notification services: the line notifier off, the XMPP notifier on and
    filled in, its password left to the keychain. *)
Definition lineNotifier : Dict :=
  [("Service", PStr "twistedcaldav.notify.SimpleLineNotifierService");
   ("Enabled", PBool false);
   ("Port", PInt 62308)].

Definition xmppNotifier : Dict :=
  [("Service", PStr XMPPNotifierService);
   ("Enabled", PBool true);
   ("Host", PStr "xmpp.example.com");
   ("Port", PInt 5222);
   ("JID", PStr "caldav@xmpp.example.com/server");
   ("Password", PStr "");
   ("ServiceAddress", PStr "pubsub.xmpp.example.com");
   ("KeepAliveSeconds", PInt 120);
   ("HeartbeatMinutes", PInt 0);
   ("AllowedJIDs", PList [])].

Definition someNotifications : Notifications :=
  {| Enabled := PBool false;
     Services := [("SimpleLineNotifier", lineNotifier);
                  ("XMPPNotifier", xmppNotifier)] |}.

Definition someKeychain (account : PValue) : result string :=
  if equals_string account "caldav@xmpp.example.com/server" then Ok "s3cret"
  else Failed KeychainPasswordNotFound.

Definition someRepr (v : PValue) : string :=
  match v with PStr s => s | _ => "..." end.

(** The iMIP service with its two mail accounts, a system without
    keychain, and attributes read as the items of a dictionary. *)
Definition imipService : Dict :=
  [("Enabled", PBool true);
   ("MailGatewayServer", PStr "localhost");
   ("Username", PStr "com.apple.calendarserver");
   ("Password", PStr "");
   ("Sending",
    PDict [("Server", PStr "smtp.example.com");
           ("Username", PStr "calendar");
           ("Password", PStr "plist-password")]);
   ("Receiving",
    PDict [("Server", PStr "imap.example.com");
           ("Username", PStr "calendar");
           ("Password", PStr "plist-password")])].

Definition noKeychain (account : PValue) : result string :=
  Failed KeychainAccessError.

Definition itemAttr (v : PValue) (name : string) : result PValue :=
  match v with
  | PDict d =>
      match getitem d name with
      | Ok value => Ok value
      | Failed _ => Failed (AttributeError name)
      end
  | _ => Failed (AttributeError name)
  end.

(** A compiler of expressions that refuses an unbalanced parenthesis, and
    a list of clients to reject with an empty and a broken expression. *)
Definition compileSome (x : string) : result string :=
  if String.eqb x "iCal/(" then Failed (ReError "unbalanced parenthesis")
  else Ok x.

Definition someRejectClients : list string :=
  ["Sunbird/.*"; ""; "iCal/("].

End ConfigSamples.

(** * Properties *)

(** ** The address classifier *)

Section AddressClassifierFacts.

Variable re_match : string -> string -> bool.

Lemma split_colon_http (rest : string) :
  PyStr.item0 (PyStr.split ":"%char ("http://" ++ rest)) = "http".
Proof. reflexivity. Qed.

Lemma split_colon_https (rest : string) :
  PyStr.item0 (PyStr.split ":"%char ("https://" ++ rest)) = "https".
Proof. reflexivity. Qed.

(** For an [http://] address the text compared with the HTTP domain is
    ["tp"], whatever follows the scheme. *)
Lemma http_branch_compares_scheme (config : CalDAVSchedulingConfig)
      (rest : string) :
  PyStr.truthy (HTTPDomain config) = true ->
  matchCalendarUserAddress re_match config ("http://" ++ rest) =
    if PyStr.endswith "tp" (HTTPDomain config) then true
    else DeliveryService_matchCalendarUserAddress re_match config
           ("http://" ++ rest).
Proof.
  intros Hdom. unfold matchCalendarUserAddress.
  replace (PyStr.startswith ("http://" ++ rest) "mailto:") with false
    by reflexivity.
  replace (PyStr.startswith ("http://" ++ rest) "http://") with true.
  - rewrite Hdom. cbn [andb orb]. rewrite split_colon_http. reflexivity.
  - unfold PyStr.startswith. cbn. destruct rest; reflexivity.
Qed.

(** C3. With the HTTP domain set to [example.com] and no address pattern
    configured, the classifier answers false for
    [https://cal.example.com/x?y], and for [http://cal.example.com], whose
    host ends with the configured domain: the text it compares with the
    domain is cut from the scheme, before the first colon. *)
Theorem http_address_not_matched :
  matchCalendarUserAddress re_match exampleConfig "https://cal.example.com/x?y"
    = false
  /\ PyStr.endswith (spec_host "http://cal.example.com")
                    (HTTPDomain exampleConfig) = true
  /\ matchCalendarUserAddress re_match exampleConfig "http://cal.example.com"
     = false.
Proof. repeat split. Qed.

End AddressClassifierFacts.

(** ** The engine *)

Section EngineFacts.

Context {W Calendar : Type}.
Variable C : Collaborators W Calendar.
Variable scheduler : Scheduler Calendar.

Implicit Types (s : state W Calendar) (recipient : LocalUser).

(** *** Running the primitives *)

Lemma call_run A (ev : event) (f : W -> outcome A * W) s r w :
  f (st_world s) = (r, w) -> call ev f s = (r, afterCall s w ev).
Proof. intros H. unfold call. rewrite H. reflexivity. Qed.

Lemma clock_run (f : W -> string * W) s t w :
  f (st_world s) = (t, w) -> clock f s = (Returned t, afterClock s w).
Proof. intros H. unfold clock. rewrite H. reflexivity. Qed.

Lemma bind_returned A B (m : M A) (k : A -> M B) s a s' :
  m s = (Returned a, s') -> bind m k s = k a s'.
Proof. intros H. unfold bind. rewrite H. reflexivity. Qed.

Lemma bind_raised A B (m : M A) (k : A -> M B) s e s' :
  m s = (Raised e, s') -> bind m k s = (Raised e, s').
Proof. intros H. unfold bind. rewrite H. reflexivity. Qed.

Lemma try_returned A B (body : M A) (handler : exn -> option (M B))
      (orelse : A -> M B) s a s' :
  body s = (Returned a, s') ->
  try_except_else body handler orelse s = orelse a s'.
Proof. intros H. unfold try_except_else. rewrite H. reflexivity. Qed.

Lemma try_raised A B (body : M A) (handler : exn -> option (M B))
      (orelse : A -> M B) s e s' :
  body s = (Raised e, s') ->
  try_except_else body handler orelse s =
    match handler e with Some h => h s' | None => (Raised e, s') end.
Proof. intros H. unfold try_except_else. rewrite H. reflexivity. Qed.

(** [generateResponse] up to the implicit-processing call. *)
Lemma generateResponse_prefix recipient s now w0 child w1 :
  time_time C (st_world s) = (now, w0) ->
  locateResource C (inboxItemURL C scheduler recipient now) w0
    = (Returned child, w1) ->
  forall r w2,
    doImplicitProcessing C (calendar scheduler) (originator scheduler)
                         recipient w1 = (r, w2) ->
    call (EvDoImplicitProcessing (cuaddr recipient))
         (doImplicitProcessing C (calendar scheduler) (originator scheduler)
                               recipient)
         (afterCall (afterClock s w0) w1
            (EvLocateResource (inboxItemURL C scheduler recipient now)))
    = (r, mkState w2 (st_responses s) (st_autoresponses s) (st_reactor s)
                  (st_log s ++
                     [EvLocateResource (inboxItemURL C scheduler recipient now);
                      EvDoImplicitProcessing (cuaddr recipient)])).
Proof.
  intros _ _ r w2 H. erewrite call_run by (cbn; exact H).
  unfold afterCall, afterClock. cbn. rewrite <- app_assoc. reflexivity.
Qed.

(** C5. When the implicit processor reports [autoprocessed = true] for a
    recipient of a non-free-busy delivery, [generateResponse] returns
    accepted; the recipient's entry is a success entry with request-status
    [2.0;Success]; the only collaborator calls made are the location of
    the new item and the implicit processing, so nothing is stored in the
    inbox; and the list of auto-response candidates is left as it was. *)
Theorem autoprocessed_needs_no_inbox_item
    recipient s now w0 child w1 processed w2 :
  time_time C (st_world s) = (now, w0) ->
  locateResource C (inboxItemURL C scheduler recipient now) w0
    = (Returned child, w1) ->
  doImplicitProcessing C (calendar scheduler) (originator scheduler)
                       recipient w1 = (Returned (processed, true), w2) ->
  generateResponse C scheduler recipient s =
    (Returned true,
     mkState w2
       (st_responses s ++ [successEntry (cuaddr recipient) None])
       (st_autoresponses s)
       (st_reactor s)
       (st_log s ++
          [EvLocateResource (inboxItemURL C scheduler recipient now);
           EvDoImplicitProcessing (cuaddr recipient)])).
Proof.
  intros Hclock Hlocate Himplicit. unfold generateResponse.
  erewrite bind_returned by (apply clock_run; exact Hclock).
  erewrite bind_returned by (apply call_run; exact Hlocate).
  erewrite try_returned
    by (eapply generateResponse_prefix; eassumption).
  reflexivity.
Qed.

(** C7. When the implicit processor raises [ImplicitProcessorException]
    for a recipient of a non-free-busy delivery, [generateResponse]
    returns not-accepted; the recipient's entry has the forbidden status
    and the exception's own message as request-status; nothing is stored
    and no auto-response candidate is added. *)
Theorem implicit_failure_entry recipient s now w0 child w1 msg w2 :
  time_time C (st_world s) = (now, w0) ->
  locateResource C (inboxItemURL C scheduler recipient now) w0
    = (Returned child, w1) ->
  doImplicitProcessing C (calendar scheduler) (originator scheduler)
                       recipient w1
    = (Raised (ImplicitProcessorException msg), w2) ->
  generateResponse C scheduler recipient s =
    (Returned false,
     mkState w2
       (st_responses s ++
          [failureEntry (cuaddr recipient) responsecode.FORBIDDEN msg])
       (st_autoresponses s)
       (st_reactor s)
       (st_log s ++
          [EvLocateResource (inboxItemURL C scheduler recipient now);
           EvDoImplicitProcessing (cuaddr recipient)])).
Proof.
  intros Hclock Hlocate Himplicit. unfold generateResponse.
  erewrite bind_returned by (apply clock_run; exact Hclock).
  erewrite bind_returned by (apply call_run; exact Hlocate).
  erewrite try_raised
    by (eapply generateResponse_prefix; eassumption).
  reflexivity.
Qed.

(** Whatever the collaborators answer, [generateResponse] adds at most one
    auto-response candidate. *)
Lemma generateResponse_at_most_one_candidate recipient s :
  exists new : list Candidate,
    st_autoresponses (snd (generateResponse C scheduler recipient s))
    = st_autoresponses s ++ new
    /\ List.length new <= 1.
Proof.
  unfold generateResponse, bind, try_except_else, clock, call, responses_add,
    autoresponses_append, ret, raise.
  repeat (cbv beta iota;
          match goal with
          | |- context [match ?x with _ => _ end] =>
              lazymatch x with
              | context [match _ with _ => _ end] => fail
              | _ => destruct x
              end
          end);
    cbn;
    solve [ exists []; rewrite app_nil_r; split; [reflexivity | cbn; lia]
          | eexists [_]; split; [reflexivity | cbn; lia] ].
Qed.

(** [generateResponse] from the point where the inbox item is stored. *)
Lemma generateResponse_after_store
    recipient s now w0 child w1 (processed : bool) w2 w3 :
  time_time C (st_world s) = (now, w0) ->
  locateResource C (inboxItemURL C scheduler recipient now) w0
    = (Returned child, w1) ->
  doImplicitProcessing C (calendar scheduler) (originator scheduler)
                       recipient w1 = (Returned (processed, false), w2) ->
  storeCalendarObjectResource C child
    (inboxItemURL C scheduler recipient now) (inbox recipient)
    (calendar scheduler) w2 = (Returned tt, w3) ->
  generateResponse C scheduler recipient s
  = bind (responses_add (cuaddr recipient) (StatusCode responsecode.OK)
            "2.0;Success" None)
      (fun _ =>
         match child with
         | None => raise (OtherException "AttributeError")
         | Some child =>
             bind (call (EvWriteDeadProperty child
                           (caldavxml.Originator
                              (cu_cuaddr (originator scheduler))))
                        (writeDeadProperty C child
                           (caldavxml.Originator
                              (cu_cuaddr (originator scheduler)))))
               (fun _ =>
             bind (call (EvWriteDeadProperty child
                           (caldavxml.Recipient (cuaddr recipient)))
                        (writeDeadProperty C child
                           (caldavxml.Recipient (cuaddr recipient))))
               (fun _ =>
             bind (call (EvWriteDeadProperty child
                           (caldavxml.ScheduleState
                              (if processed
                               then caldavxml.ScheduleProcessed
                               else caldavxml.ScheduleUnprocessed)))
                        (writeDeadProperty C child
                           (caldavxml.ScheduleState
                              (if processed
                               then caldavxml.ScheduleProcessed
                               else caldavxml.ScheduleUnprocessed))))
               (fun _ =>
             bind (if negb processed && autoSchedule (principal recipient)
                   then autoresponses_append
                          (principal recipient, inbox recipient, child)
                   else ret tt)
               (fun _ => ret true))))
         end)
      (mkState w3 (st_responses s) (st_autoresponses s) (st_reactor s)
         (st_log s ++
            [EvLocateResource (inboxItemURL C scheduler recipient now);
             EvDoImplicitProcessing (cuaddr recipient);
             EvStore (inboxItemURL C scheduler recipient now)])).
Proof.
  intros Hclock Hlocate Himplicit Hstore. unfold generateResponse.
  erewrite bind_returned by (apply clock_run; exact Hclock).
  erewrite bind_returned by (apply call_run; exact Hlocate).
  erewrite try_returned
    by (eapply generateResponse_prefix; eassumption).
  cbv beta iota.
  erewrite try_returned by (apply call_run; exact Hstore).
  unfold afterCall.
  cbn [st_world st_responses st_autoresponses st_reactor st_log].
  rewrite <- app_assoc. reflexivity.
Qed.

(** A property write that raises, after the item is stored: the exception
    leaves [generateResponse]; the success entry is in the queue and no
    candidate has been added. *)
Lemma generateResponse_annotation_raises
    recipient s now w0 item w1 (processed : bool) w2 w3 e w4 :
  time_time C (st_world s) = (now, w0) ->
  locateResource C (inboxItemURL C scheduler recipient now) w0
    = (Returned (Some item), w1) ->
  doImplicitProcessing C (calendar scheduler) (originator scheduler)
                       recipient w1 = (Returned (processed, false), w2) ->
  storeCalendarObjectResource C (Some item)
    (inboxItemURL C scheduler recipient now) (inbox recipient)
    (calendar scheduler) w2 = (Returned tt, w3) ->
  annotationRaises C scheduler recipient item processed w3 e w4 ->
  fst (generateResponse C scheduler recipient s) = Raised e
  /\ st_world (snd (generateResponse C scheduler recipient s)) = w4
  /\ st_responses (snd (generateResponse C scheduler recipient s))
     = st_responses s ++ [successEntry (cuaddr recipient) None]
  /\ st_autoresponses (snd (generateResponse C scheduler recipient s))
     = st_autoresponses s.
Proof.
  intros Hclock Hlocate Himplicit Hstore Hraises.
  erewrite generateResponse_after_store by eassumption.
  unfold bind, responses_add, call, successEntry. cbn.
  destruct Hraises
    as [H1 | [(x1 & H1 & H2) | (x1 & x2 & H1 & H2 & H3)]].
  - rewrite H1. cbn. auto.
  - rewrite H1. cbn. rewrite H2. cbn. auto.
  - rewrite H1. cbn. rewrite H2. cbn. rewrite H3. cbn. auto.
Qed.

(** C6, as the code has it. For a recipient of a non-free-busy delivery
    whose inbox item is stored: when the three property writes that
    complete the item return, [generateResponse] returns accepted and adds
    to the auto-response candidates either nothing or the single candidate
    (principal, inbox, stored item) of this recipient, and it adds the
    candidate if and only if the implicit processor reported
    [processed = false] and the recipient's principal has auto-schedule
    enabled; when one of the three writes raises, the exception leaves
    [generateResponse] and no candidate is added, whatever the implicit
    processor reported and whatever the auto-schedule option. In every
    case, stored or not, at most one candidate is added for the
    recipient. *)
Theorem candidate_iff_unprocessed_and_autoschedule recipient s :
  (exists new : list Candidate,
      st_autoresponses (snd (generateResponse C scheduler recipient s))
      = st_autoresponses s ++ new
      /\ List.length new <= 1)
  /\
  (forall now w0 child w1 (processed : bool) w2 w3 w4 w5 w6,
      let url := inboxItemURL C scheduler recipient now in
      let state_prop :=
        caldavxml.ScheduleState
          (if processed then caldavxml.ScheduleProcessed
           else caldavxml.ScheduleUnprocessed) in
      time_time C (st_world s) = (now, w0) ->
      locateResource C url w0 = (Returned (Some child), w1) ->
      doImplicitProcessing C (calendar scheduler) (originator scheduler)
                           recipient w1 = (Returned (processed, false), w2) ->
      storeCalendarObjectResource C (Some child) url (inbox recipient)
                                  (calendar scheduler) w2 = (Returned tt, w3) ->
      writeDeadProperty C child
        (caldavxml.Originator (cu_cuaddr (originator scheduler))) w3
        = (Returned tt, w4) ->
      writeDeadProperty C child (caldavxml.Recipient (cuaddr recipient)) w4
        = (Returned tt, w5) ->
      writeDeadProperty C child state_prop w5 = (Returned tt, w6) ->
      exists new : list Candidate,
        generateResponse C scheduler recipient s =
          (Returned true,
           mkState w6
             (st_responses s ++ [successEntry (cuaddr recipient) None])
             (st_autoresponses s ++ new)
             (st_reactor s)
             (st_log s ++
                [EvLocateResource url;
                 EvDoImplicitProcessing (cuaddr recipient);
                 EvStore url;
                 EvWriteDeadProperty child
                   (caldavxml.Originator (cu_cuaddr (originator scheduler)));
                 EvWriteDeadProperty child
                   (caldavxml.Recipient (cuaddr recipient));
                 EvWriteDeadProperty child state_prop]))
        /\ (new = [(principal recipient, inbox recipient, child)] <->
            processed = false /\ autoSchedule (principal recipient) = true)
        /\ (new = [] \/
            new = [(principal recipient, inbox recipient, child)]))
  /\
  (forall now w0 child w1 (processed : bool) w2 w3 e w4,
      let url := inboxItemURL C scheduler recipient now in
      time_time C (st_world s) = (now, w0) ->
      locateResource C url w0 = (Returned (Some child), w1) ->
      doImplicitProcessing C (calendar scheduler) (originator scheduler)
                           recipient w1 = (Returned (processed, false), w2) ->
      storeCalendarObjectResource C (Some child) url (inbox recipient)
                                  (calendar scheduler) w2 = (Returned tt, w3) ->
      annotationRaises C scheduler recipient child processed w3 e w4 ->
      fst (generateResponse C scheduler recipient s) = Raised e
      /\ st_autoresponses (snd (generateResponse C scheduler recipient s))
         = st_autoresponses s).
Proof.
  split; [apply generateResponse_at_most_one_candidate |]. split.
  - intros now w0 child w1 processed w2 w3 w4 w5 w6 url state_prop
           Hclock Hlocate Himplicit Hstore Hw1 Hw2 Hw3.
    exists (if negb processed && autoSchedule (principal recipient)
            then [(principal recipient, inbox recipient, child)] else []).
    split; [| split].
    + unfold generateResponse.
      erewrite bind_returned by (apply clock_run; exact Hclock).
      erewrite bind_returned by (apply call_run; exact Hlocate).
      erewrite try_returned
        by (eapply generateResponse_prefix; eassumption).
      cbv beta iota.
      erewrite try_returned by (apply call_run; exact Hstore).
      unfold bind at 1. cbn [responses_add].
      erewrite bind_returned by (apply call_run; exact Hw1).
      erewrite bind_returned by (apply call_run; exact Hw2).
      erewrite bind_returned by (apply call_run; exact Hw3).
      destruct (negb processed && autoSchedule (principal recipient));
        cbn; unfold withAutoresponses, afterCall, afterResponse; cbn;
        repeat rewrite <- app_assoc; cbn; rewrite ?app_nil_r; reflexivity.
    + destruct processed, (autoSchedule (principal recipient)); cbn;
        split; intros H; try discriminate; try (destruct H; discriminate);
        auto.
    + destruct (negb processed && autoSchedule (principal recipient)); auto.
  - intros now w0 child w1 processed w2 w3 e w4 url
           Hclock Hlocate Himplicit Hstore Hraises.
    subst url.
    edestruct generateResponse_annotation_raises as (Hfst & _ & _ & Hauto);
      [exact Hclock | exact Hlocate | exact Himplicit | exact Hstore
      | exact Hraises |].
    split; assumption.
Qed.

(** *** Frame lemmas *)

Section Frame.

Variable X : Type.
Variable proj : state W Calendar -> X.

Hypothesis proj_call :
  forall s w ev, is_check ev = false -> proj (afterCall s w ev) = proj s.
Hypothesis proj_clock : forall s w, proj (afterClock s w) = proj s.
Hypothesis proj_response :
  forall s entry, proj (afterResponse s entry) = proj s.
Hypothesis proj_autoresponses :
  forall s l, proj (withAutoresponses s l) = proj s.

Lemma preserves_ret A (a : A) : preserves proj (ret a).
Proof. intros s. reflexivity. Qed.

Lemma preserves_raise A (e : exn) : preserves proj (raise (A:=A) e).
Proof. intros s. reflexivity. Qed.

Lemma preserves_bind A B (m : M A) (k : A -> M B) :
  preserves proj m -> (forall a, preserves proj (k a)) ->
  preserves proj (bind m k).
Proof.
  intros Hm Hk s. unfold bind. specialize (Hm s).
  destruct (m s) as [[a | e] s']; cbn in *.
  - rewrite Hk. exact Hm.
  - exact Hm.
Qed.

Lemma preserves_try A B (body : M A) (handler : exn -> option (M B))
      (orelse : A -> M B) :
  preserves proj body ->
  (forall e h, handler e = Some h -> preserves proj h) ->
  (forall a, preserves proj (orelse a)) ->
  preserves proj (try_except_else body handler orelse).
Proof.
  intros Hb Hh Ho s. unfold try_except_else. specialize (Hb s).
  destruct (body s) as [[a | e] s']; cbn in *.
  - rewrite Ho. exact Hb.
  - destruct (handler e) as [h |] eqn:E; cbn.
    + rewrite (Hh e h E). exact Hb.
    + exact Hb.
Qed.

Lemma preserves_call A (ev : event) (f : W -> outcome A * W) :
  is_check ev = false -> preserves proj (call ev f).
Proof.
  intros Hev s. unfold call.
  destruct (f (st_world s)) as [r w]. cbn. apply proj_call, Hev.
Qed.

Lemma preserves_clock (f : W -> string * W) : preserves proj (clock f).
Proof.
  intros s. unfold clock.
  destruct (f (st_world s)) as [t w]. cbn. apply proj_clock.
Qed.

Lemma preserves_responses_add (addr : string) what reqstatus cal :
  preserves proj (responses_add addr what reqstatus cal).
Proof. intros s. cbn. apply proj_response. Qed.

Lemma preserves_autoresponses_append c :
  preserves proj (autoresponses_append c).
Proof. intros s. cbn. apply proj_autoresponses. Qed.

Lemma freeBusySetLoop_preserves fbset :
  forall fbinfo matchtotal scu remote,
    preserves proj
      (freeBusySetLoop C scheduler fbset fbinfo matchtotal scu remote).
Proof.
  induction fbset as [| url fbset IH]; intros; cbn [freeBusySetLoop].
  - apply preserves_ret.
  - apply preserves_bind; [apply preserves_call; reflexivity |].
    intros [res |]; [| apply IH].
    destruct (negb (exists_ res) || negb (isCalendarCollection res));
      [apply IH |].
    apply preserves_bind; [apply preserves_call; reflexivity |].
    intros r. apply IH.
Qed.

Lemma generateAttendeeFreeBusyResponse_preserves
      recipient organizerProp uid attendeeProp remote :
  preserves proj
    (generateAttendeeFreeBusyResponse C scheduler recipient organizerProp
       uid attendeeProp remote).
Proof.
  unfold generateAttendeeFreeBusyResponse.
  apply preserves_bind; [apply preserves_call; reflexivity | intros fbset].
  apply preserves_bind; [apply preserves_call; reflexivity | intros has].
  apply preserves_bind.
  - destruct has; [| apply preserves_ret].
    apply preserves_bind; [apply preserves_call; reflexivity | intros a].
    apply preserves_bind; [apply preserves_call; reflexivity | intros a'].
    apply preserves_call; reflexivity.
  - intros fbinfo.
    apply preserves_bind; [apply freeBusySetLoop_preserves | intros r].
    apply preserves_ret.
Qed.

Lemma generateFreeBusyResponse_preserves recipient organizerProp uid :
  preserves proj
    (generateFreeBusyResponse C scheduler recipient organizerProp uid).
Proof.
  unfold generateFreeBusyResponse.
  apply preserves_bind; [apply preserves_call; reflexivity | intros att].
  apply preserves_try.
  - apply generateAttendeeFreeBusyResponse_preserves.
  - intros e h [= <-].
    apply preserves_bind; [apply preserves_responses_add | intros _].
    apply preserves_ret.
  - intros fbresult.
    apply preserves_bind; [apply preserves_responses_add | intros _].
    apply preserves_ret.
Qed.

Lemma generateResponse_preserves recipient :
  preserves proj (generateResponse C scheduler recipient).
Proof.
  unfold generateResponse.
  apply preserves_bind; [apply preserves_clock | intros now].
  apply preserves_bind; [apply preserves_call; reflexivity | intros child].
  apply preserves_try.
  - apply preserves_call; reflexivity.
  - intros e h He. destruct e; try discriminate. injection He as <-.
    apply preserves_bind; [apply preserves_responses_add | intros _].
    apply preserves_ret.
  - intros [processed autoprocessed]. destruct autoprocessed.
    + apply preserves_bind; [apply preserves_responses_add | intros _].
      apply preserves_ret.
    + apply preserves_try.
      * apply preserves_call; reflexivity.
      * intros e h [= <-].
        apply preserves_bind; [apply preserves_responses_add | intros _].
        apply preserves_ret.
      * intros _.
        apply preserves_bind; [apply preserves_responses_add | intros _].
        destruct child as [child |]; [| apply preserves_raise].
        repeat (apply preserves_bind;
                [apply preserves_call; reflexivity | intros _]).
        apply preserves_bind; [| intros _; apply preserves_ret].
        destruct (negb processed && autoSchedule (principal recipient)).
        -- apply preserves_autoresponses_append.
        -- apply preserves_ret.
Qed.

End Frame.

Lemma checksOf_afterCall s (w : W) ev :
  is_check ev = false -> checksOf (afterCall s w ev) = checksOf s.
Proof.
  intros Hev. unfold checksOf, afterCall. cbn.
  rewrite filter_app. cbn. rewrite Hev. apply app_nil_r.
Qed.

(** [generateResponse], [generateFreeBusyResponse] and the aggregation queue
    no delayed call and make no access check; the aggregation adds no
    response entry. *)

Lemma generateResponse_reactor recipient :
  preserves (@st_reactor W Calendar) (generateResponse C scheduler recipient).
Proof. apply generateResponse_preserves; reflexivity. Qed.

Lemma generateFreeBusyResponse_reactor recipient organizerProp uid :
  preserves (@st_reactor W Calendar)
    (generateFreeBusyResponse C scheduler recipient organizerProp uid).
Proof. apply generateFreeBusyResponse_preserves; reflexivity. Qed.

Lemma generateResponse_checks recipient :
  preserves checksOf (generateResponse C scheduler recipient).
Proof.
  apply generateResponse_preserves; try reflexivity.
  intros; apply checksOf_afterCall; assumption.
Qed.

Lemma generateFreeBusyResponse_checks recipient organizerProp uid :
  preserves checksOf
    (generateFreeBusyResponse C scheduler recipient organizerProp uid).
Proof.
  apply generateFreeBusyResponse_preserves; try reflexivity.
  intros; apply checksOf_afterCall; assumption.
Qed.

Lemma aggregation_responses recipient organizerProp uid attendeeProp remote :
  preserves (@st_responses W Calendar)
    (generateAttendeeFreeBusyResponse C scheduler recipient organizerProp uid
       attendeeProp remote).
Proof. apply generateAttendeeFreeBusyResponse_preserves; reflexivity. Qed.

Lemma aggregation_autoresponses
      recipient organizerProp uid attendeeProp remote :
  preserves (@st_autoresponses W Calendar)
    (generateAttendeeFreeBusyResponse C scheduler recipient organizerProp uid
       attendeeProp remote).
Proof. apply generateAttendeeFreeBusyResponse_preserves; reflexivity. Qed.

(** *** The loop over the recipients *)

(** No delayed call is queued while the recipients are processed. *)
Lemma recipientsLoop_reactor freebusy recipients organizerProp uid :
  preserves (@st_reactor W Calendar)
    (recipientsLoop C scheduler freebusy recipients organizerProp uid).
Proof.
  induction recipients as [| recipient rest IH]; cbn [recipientsLoop].
  - intros s. reflexivity.
  - apply preserves_bind.
    + destruct (organizer scheduler); try (intros s; reflexivity).
      apply preserves_try.
      * intros s. unfold call.
        destruct (checkPrivileges _ _ _ _) as [r w]. reflexivity.
      * intros e h He. destruct e; try discriminate. injection He as <-.
        intros s. reflexivity.
      * intros _ s. reflexivity.
    + intros proceed. apply preserves_bind; [| intros _; exact IH].
      destruct proceed; [| intros s; reflexivity].
      destruct freebusy.
      * apply preserves_bind; [| intros _ s; reflexivity].
        apply generateFreeBusyResponse_reactor.
      * apply preserves_bind; [| intros _ s; reflexivity].
        apply generateResponse_reactor.
Qed.

(** With an organizer that is not local, no access check is made while
    the recipients are processed. *)
Lemma recipientsLoop_checks freebusy recipients organizerProp uid :
  isLocal (organizer scheduler) = false ->
  preserves checksOf
    (recipientsLoop C scheduler freebusy recipients organizerProp uid).
Proof.
  intros Hremote.
  induction recipients as [| recipient rest IH]; cbn [recipientsLoop].
  - intros s. reflexivity.
  - apply preserves_bind.
    + destruct (organizer scheduler); try discriminate;
        intros s; reflexivity.
    + intros proceed. apply preserves_bind; [| intros _; exact IH].
      destruct proceed; [| intros s; reflexivity].
      destruct freebusy.
      * apply preserves_bind; [| intros _ s; reflexivity].
        apply generateFreeBusyResponse_checks.
      * apply preserves_bind; [| intros _ s; reflexivity].
        apply generateResponse_checks.
Qed.

(** The loop that queues the delayed calls queues one call per candidate,
    in order. *)
Lemma autoResponseLoop_run (l : list Candidate) :
  forall s,
    autoResponseLoop C scheduler l s =
      (Returned tt,
       mkState (st_world s) (st_responses s) (st_autoresponses s)
               (st_reactor s ++ map (delayedCallFor C scheduler) l)
               (st_log s)).
Proof.
  induction l as [| [[p i] c] l IH]; intros s; cbn [autoResponseLoop map].
  - rewrite app_nil_r. destruct s; reflexivity.
  - unfold bind at 1. cbn [reactor_callLater]. rewrite IH.
    unfold afterCallLater. cbn. rewrite <- app_assoc. reflexivity.
Qed.

(** C4. When the organizer is a local calendar user and the access check
    on the recipient's inbox, made as the organizer's principal, raises
    [AccessDeniedError], the loop goes on with the next recipient from a
    state that differs from the one before this recipient by exactly one
    response entry for the recipient, with the not-found status and
    request-status [3.8;No authority], and by the logged access check: no
    implicit-processing call and no storage was made for the recipient.
    When the organizer is not a local calendar user (a remote one, for
    example), a run of the orchestrator makes no access check at all. *)
Theorem access_denied_entry_then_next_recipient :
  (forall o freebusy recipient rest organizerProp uid s w,
      organizer scheduler = LocalCalendarUser o ->
      checkPrivileges C (inbox recipient) (principalURL (principal o))
                      (st_world s) = (Raised AccessDeniedError, w) ->
      recipientsLoop C scheduler freebusy (recipient :: rest)
                     organizerProp uid s =
      recipientsLoop C scheduler freebusy rest organizerProp uid
        (mkState w
           (st_responses s ++
              [failureEntry (cuaddr recipient) responsecode.NOT_FOUND
                            "3.8;No authority"])
           (st_autoresponses s)
           (st_reactor s)
           (st_log s ++
              [EvCheckPrivileges (inbox recipient)
                                 (principalURL (principal o))])))
  /\
  (isLocal (organizer scheduler) = false ->
   forall freebusy recipients s,
     checksOf (snd (generateSchedulingResponses C scheduler freebusy
                      recipients s))
     = checksOf s).
Proof.
  split.
  - intros o freebusy recipient rest organizerProp uid s w Horg Hcheck.
    cbn [recipientsLoop]. rewrite Horg.
    unfold bind at 1.
    erewrite try_raised by (apply call_run; exact Hcheck).
    cbn. reflexivity.
  - intros Hremote freebusy recipients s.
    unfold generateSchedulingResponses.
    assert (Hloop := recipientsLoop_checks freebusy recipients
                       (getOrganizerProperty C (calendar scheduler))
                       (resourceUID C (calendar scheduler)) Hremote
                       (withAutoresponses s [])).
    unfold bind at 1. cbn [autoresponses_assign].
    unfold bind at 1.
    destruct (recipientsLoop _ _ _ _ _ _ _) as [[[] | e] s1]; cbn in Hloop.
    + unfold bind at 1. cbn [autoresponses_read].
      unfold bind at 1.
      destruct (negb (Nat.eqb (List.length (st_autoresponses s1)) 0));
        [destruct (negb (canAutoRespond C (calendar scheduler))) |];
        cbn; rewrite ?autoResponseLoop_run; unfold checksOf in *; cbn;
        exact Hloop.
    + unfold checksOf in *. cbn. exact Hloop.
Qed.

(** The orchestrator after the loop over the recipients. *)
Lemma generateSchedulingResponses_after_loop freebusy recipients s s1 :
  recipientsLoop C scheduler freebusy recipients
    (getOrganizerProperty C (calendar scheduler))
    (resourceUID C (calendar scheduler))
    (withAutoresponses s []) = (Returned tt, s1) ->
  generateSchedulingResponses C scheduler freebusy recipients s =
    autoResponseLoop C scheduler
      (if negb (Nat.eqb (List.length (st_autoresponses s1)) 0)
          && negb (canAutoRespond C (calendar scheduler))
       then [] else st_autoresponses s1)
      (withAutoresponses s1
         (if negb (Nat.eqb (List.length (st_autoresponses s1)) 0)
             && negb (canAutoRespond C (calendar scheduler))
          then [] else st_autoresponses s1)).
Proof.
  intros Hloop. unfold generateSchedulingResponses.
  unfold bind at 1. cbn [autoresponses_assign].
  erewrite bind_returned by exact Hloop.
  unfold bind at 1. cbn [autoresponses_read].
  destruct (negb (Nat.eqb (List.length (st_autoresponses s1)) 0));
    [destruct (negb (canAutoRespond C (calendar scheduler))) |]; cbn;
    try reflexivity; destruct s1; reflexivity.
Qed.

(** C9. Once every recipient has been processed (the loop over the
    recipients has returned), the candidates collected are all dropped
    when there are some and the auto-response executor's predicate does
    not hold of the scheduling calendar, so that none is retained when the
    predicate fails; the delayed calls queued by the orchestrator are then
    exactly one call per retained candidate, in order, each with the
    candidate's principal, inbox and stored item, zero delay, the request
    and a duplicate of the scheduling calendar. The reactor's queue at the
    end of the loop is the queue the run started with: nothing is queued
    before the loop completes. *)
Theorem auto_responses_queued_after_the_loop freebusy recipients s s1 :
  recipientsLoop C scheduler freebusy recipients
    (getOrganizerProperty C (calendar scheduler))
    (resourceUID C (calendar scheduler))
    (withAutoresponses s []) = (Returned tt, s1) ->
  let retained :=
    if negb (Nat.eqb (List.length (st_autoresponses s1)) 0)
       && negb (canAutoRespond C (calendar scheduler))
    then [] else st_autoresponses s1 in
  st_reactor s1 = st_reactor s
  /\ (exists calls : list (DelayedCall Calendar),
         generateSchedulingResponses C scheduler freebusy recipients s =
           (Returned tt,
            mkState (st_world s1) (st_responses s1) retained
                    (st_reactor s ++ calls) (st_log s1))
         /\ map (fun c => (dc_principal c, dc_inbox c, dc_child c)) calls
            = retained
         /\ Forall (fun c => dc_calendar c = duplicate C (calendar scheduler)
                             /\ dc_request c = request scheduler
                             /\ dc_delay c = 0%Z) calls)
  /\ (canAutoRespond C (calendar scheduler) = false -> retained = []).
Proof.
  intros Hloop retained.
  assert (Hreactor : st_reactor s1 = st_reactor s).
  { pose proof (recipientsLoop_reactor freebusy recipients
                  (getOrganizerProperty C (calendar scheduler))
                  (resourceUID C (calendar scheduler))
                  (withAutoresponses s [])) as H.
    rewrite Hloop in H. exact H. }
  split; [exact Hreactor |]. split.
  - exists (map (delayedCallFor C scheduler) retained). split; [| split].
    + rewrite (generateSchedulingResponses_after_loop _ _ _ Hloop).
      rewrite autoResponseLoop_run. subst retained. cbn.
      rewrite Hreactor. reflexivity.
    + rewrite map_map. rewrite <- (map_id retained) at 2.
      apply map_ext. intros [[p i] c]. reflexivity.
    + apply Forall_forall. intros c Hc. apply in_map_iff in Hc.
      destruct Hc as ([[p i] ch] & <- & _). cbn. auto.
  - intros Hcannot. subst retained. rewrite Hcannot.
    destruct (st_autoresponses s1); reflexivity.
Qed.

(** *** Free-busy failures *)

(** C2, as the code has it. An error raised by the free-busy aggregation
    for a recipient does not propagate: [generateFreeBusyResponse] returns
    not-accepted and the recipient gets one entry, with the forbidden
    status and request-status [3.8;No authority]. The attendee property
    is looked up before the guarded aggregation: an error raised by that
    lookup propagates to the caller and no entry is added. *)
Theorem freebusy_aggregation_failure_entry recipient organizerProp uid s :
  let cuas := calendarUserAddresses (principal recipient) in
  (forall att w1 e s2,
      getAttendeeProperty C (calendar scheduler) cuas (st_world s)
        = (Returned att, w1) ->
      generateAttendeeFreeBusyResponse C scheduler recipient organizerProp
        uid att (isRemote (organizer scheduler))
        (afterCall s w1 (EvGetAttendeeProperty cuas)) = (Raised e, s2) ->
      generateFreeBusyResponse C scheduler recipient organizerProp uid s =
        (Returned false,
         afterResponse s2
           (failureEntry (cuaddr recipient) responsecode.FORBIDDEN
                         "3.8;No authority"))
      /\ st_responses s2 = st_responses s)
  /\
  (forall e w1,
      getAttendeeProperty C (calendar scheduler) cuas (st_world s)
        = (Raised e, w1) ->
      generateFreeBusyResponse C scheduler recipient organizerProp uid s =
        (Raised e, afterCall s w1 (EvGetAttendeeProperty cuas))).
Proof.
  intros cuas. split.
  - intros att w1 e s2 Hatt Hagg. split.
    + unfold generateFreeBusyResponse.
      erewrite bind_returned by (apply call_run; exact Hatt).
      erewrite try_raised by exact Hagg.
      reflexivity.
    + pose proof (aggregation_responses recipient organizerProp uid att
                    (isRemote (organizer scheduler))
                    (afterCall s w1 (EvGetAttendeeProperty cuas))) as H.
      rewrite Hagg in H. exact H.
  - intros e w1 Hatt. unfold generateFreeBusyResponse.
    erewrite bind_raised by (apply call_run; exact Hatt).
    reflexivity.
Qed.

(** *** One entry per recipient *)

Section DisciplinedCollaborators.

Hypothesis discipline : Disciplined C.

Lemma generateResponse_one_entry recipient s :
  exists accepted s' entry,
    generateResponse C scheduler recipient s = (Returned accepted, s')
    /\ st_responses s' = st_responses s ++ [entry]
    /\ re_recipient entry = cuaddr recipient.
Proof.
  unfold generateResponse.
  destruct (time_time C (st_world s)) as [now w0] eqn:Hclock.
  erewrite bind_returned by (apply clock_run; exact Hclock).
  set (url := joinURL C _ _).
  destruct (locateResource C url w0) as [[child | e] w1] eqn:Hlocate;
    [| exfalso; exact (locateResource_returns discipline _ _ Hlocate)].
  erewrite bind_returned
    by (apply call_run with (s := afterClock s w0); exact Hlocate).
  destruct (doImplicitProcessing C (calendar scheduler)
              (originator scheduler) recipient w1)
    as [[[processed autoprocessed] | e] w2] eqn:Himplicit.
  - erewrite try_returned by (apply call_run; exact Himplicit).
    destruct autoprocessed.
    + do 3 eexists. split; [reflexivity |]. cbn. split; reflexivity.
    + destruct (storeCalendarObjectResource C child url (inbox recipient)
                  (calendar scheduler) w2) as [[[] | e] w3] eqn:Hstore.
      * erewrite try_returned by (apply call_run; exact Hstore).
        unfold bind at 1. cbn [responses_add].
        destruct child as [child |];
          [| exfalso; exact (store_needs_resource discipline _ _ _ _ Hstore)].
        repeat match goal with
        | |- context [call ?ev (writeDeadProperty C ?c ?p)] =>
            let H := fresh "Hwrite" in
            let w := fresh "w" in
            match goal with
            | |- context [bind (call ev (writeDeadProperty C c p)) ?k ?st] =>
                destruct (writeDeadProperty C c p (st_world st))
                  as [[[] | ?e] w] eqn:H;
                [ erewrite (@bind_returned _ _ (call ev (writeDeadProperty C c p)))
                    by (apply call_run; exact H)
                | exfalso; exact (writeDeadProperty_returns discipline _ _ _ H) ]
            end
        end.
        destruct (negb processed && autoSchedule (principal recipient));
          do 3 eexists; (split; [reflexivity |]); cbn;
          split; reflexivity.
      * erewrite try_raised by (apply call_run; exact Hstore).
        do 3 eexists. split; [reflexivity |]. cbn. split; reflexivity.
  - erewrite try_raised by (apply call_run; exact Himplicit).
    destruct (doImplicitProcessing_raises discipline _ _ _ _ Himplicit)
      as [msg ->].
    do 3 eexists. split; [reflexivity |]. cbn. split; reflexivity.
Qed.

Lemma generateFreeBusyResponse_one_entry recipient organizerProp uid s :
  exists accepted s' entry,
    generateFreeBusyResponse C scheduler recipient organizerProp uid s
      = (Returned accepted, s')
    /\ st_responses s' = st_responses s ++ [entry]
    /\ re_recipient entry = cuaddr recipient.
Proof.
  unfold generateFreeBusyResponse.
  set (cuas := calendarUserAddresses (principal recipient)).
  destruct (getAttendeeProperty C (calendar scheduler) cuas (st_world s))
    as [[att | e] w1] eqn:Hatt;
    [| exfalso; exact (getAttendeeProperty_returns discipline _ _ _ Hatt)].
  erewrite bind_returned by (apply call_run; exact Hatt).
  pose proof (aggregation_responses recipient organizerProp uid att
                (isRemote (organizer scheduler))
                (afterCall s w1 (EvGetAttendeeProperty cuas))) as Hkeep.
  destruct (generateAttendeeFreeBusyResponse C scheduler recipient
              organizerProp uid att (isRemote (organizer scheduler))
              (afterCall s w1 (EvGetAttendeeProperty cuas)))
    as [[fbresult | e] s2] eqn:Hagg; cbn in Hkeep.
  - erewrite try_returned by exact Hagg.
    do 3 eexists. split; [reflexivity |]. cbn. rewrite Hkeep.
    split; reflexivity.
  - erewrite try_raised by exact Hagg.
    do 3 eexists. split; [reflexivity |]. cbn. rewrite Hkeep.
    split; reflexivity.
Qed.

Lemma recipientsLoop_one_entry_each freebusy organizerProp uid recipients :
  forall s,
  exists s' entries,
    recipientsLoop C scheduler freebusy recipients organizerProp uid s
      = (Returned tt, s')
    /\ st_responses s' = st_responses s ++ entries
    /\ map re_recipient entries = map cuaddr recipients.
Proof.
  induction recipients as [| recipient rest IH]; intros s.
  - exists s, []. cbn. rewrite app_nil_r. auto.
  - cbn [recipientsLoop].
    assert (Hdeliver :
      forall s0, exists s1 entry,
        (if freebusy
         then bind (generateFreeBusyResponse C scheduler recipient
                      organizerProp uid) (fun _ => ret tt)
         else bind (generateResponse C scheduler recipient)
                   (fun _ => ret tt)) s0 = (Returned tt, s1)
        /\ st_responses s1 = st_responses s0 ++ [entry]
        /\ re_recipient entry = cuaddr recipient).
    { intros s0. destruct freebusy.
      - destruct (generateFreeBusyResponse_one_entry recipient
                    organizerProp uid s0) as (b & s1 & entry & Hrun & H).
        exists s1, entry. erewrite bind_returned by exact Hrun. auto.
      - destruct (generateResponse_one_entry recipient s0)
          as (b & s1 & entry & Hrun & H).
        exists s1, entry. erewrite bind_returned by exact Hrun. auto. }
    assert (Hstep :
      forall s0, exists s1 entry,
        bind (if true
              then if freebusy
                   then bind (generateFreeBusyResponse C scheduler recipient
                                organizerProp uid) (fun _ => ret tt)
                   else bind (generateResponse C scheduler recipient)
                             (fun _ => ret tt)
              else ret tt)
             (fun _ => recipientsLoop C scheduler freebusy rest
                         organizerProp uid) s0
        = recipientsLoop C scheduler freebusy rest organizerProp uid s1
        /\ st_responses s1 = st_responses s0 ++ [entry]
        /\ re_recipient entry = cuaddr recipient).
    { intros s0. destruct (Hdeliver s0) as (s1 & entry & Hrun & H).
      exists s1, entry. erewrite bind_returned by exact Hrun. auto. }
    assert (Hfinish :
      forall s1 entry,
        st_responses s1 = st_responses s ++ [entry] ->
        re_recipient entry = cuaddr recipient ->
        exists s' entries,
          recipientsLoop C scheduler freebusy rest organizerProp uid s1
            = (Returned tt, s')
          /\ st_responses s' = st_responses s ++ entries
          /\ map re_recipient entries = map cuaddr (recipient :: rest)).
    { intros s1 entry Hresp Haddr.
      destruct (IH s1) as (s' & entries & Hrun & Hresp' & Hmap).
      exists s', (entry :: entries). split; [exact Hrun |]. split.
      - rewrite Hresp', Hresp, <- app_assoc. reflexivity.
      - cbn. rewrite Haddr, Hmap. reflexivity. }
    destruct (organizer scheduler) as [o | addr | addr].
    + destruct (checkPrivileges C (inbox recipient)
                  (principalURL (principal o)) (st_world s))
        as [[[] | e] w] eqn:Hcheck.
      * unfold bind at 1.
        erewrite try_returned by (apply call_run; exact Hcheck).
        unfold ret at 1.
        destruct (Hstep (afterCall s w
                    (EvCheckPrivileges (inbox recipient)
                       (principalURL (principal o)))))
          as (s1 & entry & Hrun & Hresp & Haddr).
        rewrite Hrun. exact (Hfinish s1 entry Hresp Haddr).
      * pose proof (checkPrivileges_raises discipline _ _ _ Hcheck) as ->.
        unfold bind at 1.
        erewrite try_raised by (apply call_run; exact Hcheck).
        cbn. eapply Hfinish; reflexivity.
    + unfold bind at 1, ret at 1.
      destruct (Hstep s) as (s1 & entry & Hrun & Hresp & Haddr).
      rewrite Hrun. exact (Hfinish s1 entry Hresp Haddr).
    + unfold bind at 1, ret at 1.
      destruct (Hstep s) as (s1 & entry & Hrun & Hresp & Haddr).
      rewrite Hrun. exact (Hfinish s1 entry Hresp Haddr).
Qed.

End DisciplinedCollaborators.

(** *** The loop, step by step *)

Lemma bind_assoc A B D (m : M A) (f : A -> M B) (k : B -> M D) s :
  bind (bind m f) k s = bind m (fun a => bind (f a) k) s.
Proof. unfold bind. destruct (m s) as [[a | e] s']; reflexivity. Qed.

Lemma recipientsLoop_step freebusy recipient rest organizerProp uid s :
  recipientsLoop C scheduler freebusy (recipient :: rest) organizerProp uid s
  = bind (recipientStep C scheduler freebusy recipient organizerProp uid)
         (fun _ => recipientsLoop C scheduler freebusy rest organizerProp uid)
         s.
Proof.
  cbn [recipientsLoop]. unfold recipientStep. rewrite bind_assoc. reflexivity.
Qed.

(** The orchestrator when the loop over the recipients raises. *)
Lemma generateSchedulingResponses_loop_raised freebusy recipients s e s1 :
  recipientsLoop C scheduler freebusy recipients
    (getOrganizerProperty C (calendar scheduler))
    (resourceUID C (calendar scheduler))
    (withAutoresponses s []) = (Raised e, s1) ->
  generateSchedulingResponses C scheduler freebusy recipients s
  = (Raised e, s1).
Proof.
  intros Hloop. unfold generateSchedulingResponses.
  unfold bind at 1. cbn [autoresponses_assign].
  erewrite bind_raised by exact Hloop. reflexivity.
Qed.

(** The loop over a list of recipients followed by another. *)
Lemma recipientsLoop_app freebusy before rest organizerProp uid s :
  recipientsLoop C scheduler freebusy (before ++ rest) organizerProp uid s
  = bind (recipientsLoop C scheduler freebusy before organizerProp uid)
         (fun _ => recipientsLoop C scheduler freebusy rest organizerProp uid)
         s.
Proof.
  revert s. induction before as [| r before IH]; intros s; [reflexivity |].
  rewrite <- app_comm_cons, recipientsLoop_step.
  unfold bind at 2. rewrite recipientsLoop_step. unfold bind.
  destruct (recipientStep C scheduler freebusy r organizerProp uid s)
    as [[[] | e] s']; [| reflexivity].
  rewrite IH. reflexivity.
Qed.

(** *** Where an exception leaves the delivery *)

Lemma generateResponse_locate_raises recipient s now w0 e w1 :
  time_time C (st_world s) = (now, w0) ->
  locateResource C (inboxItemURL C scheduler recipient now) w0
    = (Raised e, w1) ->
  fst (generateResponse C scheduler recipient s) = Raised e.
Proof.
  intros Hclock Hlocate. unfold generateResponse.
  erewrite bind_returned by (apply clock_run; exact Hclock).
  erewrite bind_raised by (apply call_run; exact Hlocate).
  reflexivity.
Qed.

Lemma generateResponse_implicit_raises recipient s now w0 child w1 e w2 :
  time_time C (st_world s) = (now, w0) ->
  locateResource C (inboxItemURL C scheduler recipient now) w0
    = (Returned child, w1) ->
  doImplicitProcessing C (calendar scheduler) (originator scheduler)
                       recipient w1 = (Raised e, w2) ->
  (forall msg, e <> ImplicitProcessorException msg) ->
  fst (generateResponse C scheduler recipient s) = Raised e.
Proof.
  intros Hclock Hlocate Himplicit Hother. unfold generateResponse.
  erewrite bind_returned by (apply clock_run; exact Hclock).
  erewrite bind_returned by (apply call_run; exact Hlocate).
  erewrite try_raised
    by (eapply generateResponse_prefix; eassumption).
  destruct e; try reflexivity.
  exfalso. eapply Hother. reflexivity.
Qed.

Lemma generateFreeBusyResponse_attendee_raises
    recipient organizerProp uid s e w :
  getAttendeeProperty C (calendar scheduler)
    (calendarUserAddresses (principal recipient)) (st_world s)
  = (Raised e, w) ->
  fst (generateFreeBusyResponse C scheduler recipient organizerProp uid s)
  = Raised e.
Proof.
  intros Hattendee. unfold generateFreeBusyResponse.
  erewrite bind_raised by (apply call_run; exact Hattendee).
  reflexivity.
Qed.

Lemma uncaughtInDelivery_raises freebusy recipient organizerProp uid s0 e :
  uncaughtInDelivery C scheduler freebusy recipient s0 e ->
  fst ((if freebusy
        then generateFreeBusyResponse C scheduler recipient organizerProp uid
        else generateResponse C scheduler recipient) s0) = Raised e.
Proof.
  unfold uncaughtInDelivery. destruct freebusy.
  - intros (w & Hattendee).
    eapply generateFreeBusyResponse_attendee_raises; exact Hattendee.
  - intros (now & w0 & Hclock & [(w1 & Hlocate) | (child & w1 & Hlocate & H)]).
    + eapply generateResponse_locate_raises; eassumption.
    + destruct H as [(w2 & Himplicit & Hother)
                    | (item & processed & w2 & w3 & w4 & -> & Himplicit
                       & Hstore & Hraises)].
      * eapply generateResponse_implicit_raises; eassumption.
      * eapply generateResponse_annotation_raises; eassumption.
Qed.

(** An exception no handler covers leaves the step of the loop. *)
Lemma uncaught_raises freebusy recipient organizerProp uid s e :
  uncaught C scheduler freebusy recipient s e ->
  fst (recipientStep C scheduler freebusy recipient organizerProp uid s)
  = Raised e.
Proof.
  intros [(o & w & Horg & Hcheck & Hother) | (s0 & Hgranted & Hdelivery)];
    unfold recipientStep.
  - rewrite Horg.
    erewrite bind_raised; [reflexivity |].
    erewrite try_raised by (apply call_run; exact Hcheck).
    destruct e; try reflexivity. contradiction.
  - pose proof (@uncaughtInDelivery_raises freebusy recipient organizerProp
                  uid s0 e Hdelivery) as Hraised.
    assert (Hstep :
      forall (check : M bool),
        check s = (Returned true, s0) ->
        fst (bind check
               (fun proceed : bool =>
                  if proceed then
                    if freebusy then
                      bind (generateFreeBusyResponse C scheduler recipient
                              organizerProp uid) (fun _ => ret tt)
                    else
                      bind (generateResponse C scheduler recipient)
                           (fun _ => ret tt)
                  else ret tt) s) = Raised e).
    { intros check Hcheck. unfold bind at 1. rewrite Hcheck.
      destruct freebusy; unfold bind;
        match goal with
        | H : fst (?m s0) = Raised e |- _ =>
            destruct (m s0) as [[a | e'] s1]; cbn in H;
            [discriminate | injection H as ->; reflexivity]
        end. }
    unfold accessGranted in Hgranted.
    destruct (organizer scheduler) as [o | |] eqn:Horg.
    + destruct Hgranted as (w & Hcheck & ->).
      apply Hstep.
      erewrite try_returned by (apply call_run; exact Hcheck).
      reflexivity.
    + subst s0. apply Hstep. reflexivity.
    + subst s0. apply Hstep. reflexivity.
Qed.

(** C1, as the code has it. The engine turns into a failure entry an
    [AccessDeniedError] of the access check, an
    [ImplicitProcessorException] of the implicit processor, and any
    exception of the storage or of the free-busy aggregation; it has no
    handler for other exceptions. With collaborators that fail in those
    ways only, a run of the orchestrator on any list of recipients returns
    and adds to the response queue exactly one entry per recipient, in the
    order of the list. Whatever the collaborators, when the recipients
    [before] have been processed and, for the next [recipient], an
    exception is raised at a place no handler covers (by the access check
    other than [AccessDeniedError], by the lookup of the new inbox
    resource, by the implicit processor other than
    [ImplicitProcessorException], by the annotation of the stored item, or
    by the extraction of the attendee property), the run ends with that
    exception, in the state in which the step for that recipient ended:
    the recipients [after] are not processed. *)
Theorem one_entry_per_recipient :
  (Disciplined C ->
   forall freebusy recipients s,
   exists s' entries,
     generateSchedulingResponses C scheduler freebusy recipients s
       = (Returned tt, s')
     /\ st_responses s' = st_responses s ++ entries
     /\ map re_recipient entries = map cuaddr recipients)
  /\
  (forall freebusy before recipient after s s1 e,
     recipientsLoop C scheduler freebusy before
       (getOrganizerProperty C (calendar scheduler))
       (resourceUID C (calendar scheduler))
       (withAutoresponses s []) = (Returned tt, s1) ->
     uncaught C scheduler freebusy recipient s1 e ->
     generateSchedulingResponses C scheduler freebusy
       (before ++ recipient :: after) s
     = (Raised e,
        snd (recipientStep C scheduler freebusy recipient
               (getOrganizerProperty C (calendar scheduler))
               (resourceUID C (calendar scheduler)) s1))).
Proof.
  split.
  - intros discipline freebusy recipients s.
    destruct (recipientsLoop_one_entry_each discipline freebusy
                (getOrganizerProperty C (calendar scheduler))
                (resourceUID C (calendar scheduler)) recipients
                (withAutoresponses s []))
      as (s1 & entries & Hloop & Hresp & Hmap).
    rewrite (generateSchedulingResponses_after_loop _ _ _ Hloop).
    rewrite autoResponseLoop_run.
    eexists. exists entries. split; [reflexivity |]. split; [| exact Hmap].
    cbn. exact Hresp.
  - intros freebusy before recipient after s s1 e Hbefore Huncaught.
    apply generateSchedulingResponses_loop_raised.
    rewrite recipientsLoop_app. unfold bind at 1. rewrite Hbefore.
    rewrite recipientsLoop_step. unfold bind.
    pose proof (@uncaught_raises freebusy recipient
                  (getOrganizerProperty C (calendar scheduler))
                  (resourceUID C (calendar scheduler)) s1 e Huncaught)
      as Hraised.
    destruct (recipientStep C scheduler freebusy recipient
                (getOrganizerProperty C (calendar scheduler))
                (resourceUID C (calendar scheduler)) s1)
      as [[[] | e'] s2]; cbn in Hraised.
    + discriminate.
    + injection Hraised as ->. reflexivity.
Qed.

(** *** Free-busy aggregation *)

Lemma skip_iff_not_usable (res : Resource) :
  negb (exists_ res) || negb (isCalendarCollection res)
  = negb (usable (Some res)).
Proof. cbn. destruct (exists_ res), (isCalendarCollection res); reflexivity. Qed.

(** The loop over the free-busy set and the accumulation over the valid
    sources agree from any two states that hold the same world. *)
Lemma freeBusySetLoop_accumulate (resolve : string -> option Resource) fbset :
  (forall url w,
      In url fbset -> locateResource C url w = (Returned (resolve url), w)) ->
  forall fbinfo matchtotal scu remote s1 s2,
    st_world s1 = st_world s2 ->
    fst (freeBusySetLoop C scheduler fbset fbinfo matchtotal scu remote s1)
    = fst (accumulateFreeBusy C scheduler (validSources resolve fbset)
             fbinfo matchtotal scu remote s2)
    /\ st_world (snd (freeBusySetLoop C scheduler fbset fbinfo matchtotal
                        scu remote s1))
       = st_world (snd (accumulateFreeBusy C scheduler
                          (validSources resolve fbset) fbinfo matchtotal
                          scu remote s2)).
Proof.
  induction fbset as [| url fbset IH]; intros Hresolve fbinfo matchtotal scu
    remote s1 s2 Hworld.
  - cbn. auto.
  - assert (Hrest : forall u w, In u fbset ->
              locateResource C u w = (Returned (resolve u), w))
      by (intros; apply Hresolve; right; assumption).
    specialize (IH Hrest).
    cbn [freeBusySetLoop validSources].
    erewrite bind_returned
      by (apply call_run; apply Hresolve; left; reflexivity).
    destruct (resolve url) as [res |].
    + rewrite skip_iff_not_usable.
      destruct (usable (Some res)); cbn [negb].
      * cbn [accumulateFreeBusy]. unfold bind, call. cbn [st_world afterCall].
        rewrite Hworld.
        destruct (generateFreeBusyInfo C res fbinfo (timeRange scheduler)
                    matchtotal (excludeUID scheduler)
                    (cu_cuaddr (organizer scheduler)) scu remote
                    (st_world s2)) as [[r | e] w].
        -- apply IH. reflexivity.
        -- cbn. auto.
      * apply IH. cbn. exact Hworld.
    + apply IH. cbn. exact Hworld.
Qed.

(** C8. When the locations of a recipient's free-busy set resolve as
    [resolve] says, the loop over the set computes what the accumulation
    over its existing calendar collections alone computes, in list order:
    the same outcome (the same three interval sequences and match count,
    or the same error of the collector) and the same world. A location
    that resolves to nothing, to a resource that does not exist or to one
    that is not a calendar collection adds nothing and fails nothing;
    every existing calendar collection is handed to the collector.
    In particular, for a free-busy set of a missing location followed by a
    calendar collection from which the collector reports a busy interval,
    and an inbox without availability property, the aggregation returns a
    reply, with method [REPLY], whose busy sequence holds that interval. *)
Theorem missing_sources_are_skipped :
  (forall (resolve : string -> option Resource) fbset,
      (forall url w,
          In url fbset ->
          locateResource C url w = (Returned (resolve url), w)) ->
      forall fbinfo matchtotal scu remote s,
        fst (freeBusySetLoop C scheduler fbset fbinfo matchtotal scu remote s)
        = fst (accumulateFreeBusy C scheduler (validSources resolve fbset)
                 fbinfo matchtotal scu remote s)
        /\ st_world (snd (freeBusySetLoop C scheduler fbset fbinfo matchtotal
                            scu remote s))
           = st_world (snd (accumulateFreeBusy C scheduler
                              (validSources resolve fbset) fbinfo matchtotal
                              scu remote s)))
  /\
  (forall recipient organizerProp uid attendeeProp remote s
          gone work w1 w2 resolved w3 res w4 fbinfo' matchtotal' w5
          (p : Period),
      calendarFreeBusyURIs C (principal recipient) (st_world s)
        = (Returned [gone; work], w1) ->
      hasProperty C (inbox recipient) calendar_availability w1
        = (Returned false, w2) ->
      locateResource C gone w2 = (Returned resolved, w3) ->
      usable resolved = false ->
      locateResource C work w3 = (Returned (Some res), w4) ->
      usable (Some res) = true ->
      generateFreeBusyInfo C res ([], [], []) (timeRange scheduler) 0
        (excludeUID scheduler) (cu_cuaddr (organizer scheduler))
        (sameCalendarUser scheduler recipient) remote w4
        = (Returned (fbinfo', matchtotal'), w5) ->
      In p (fst (fst fbinfo')) ->
      exists reply s',
        generateAttendeeFreeBusyResponse C scheduler recipient organizerProp
          uid attendeeProp remote s = (Returned reply, s')
        /\ fb_method reply = "REPLY"
        /\ In p (fb_busy reply)).
Proof.
  split.
  - intros resolve fbset Hresolve fbinfo matchtotal scu remote s.
    apply freeBusySetLoop_accumulate; [exact Hresolve | reflexivity].
  - intros recipient organizerProp uid attendeeProp remote s gone work w1 w2
           resolved w3 res w4 fbinfo' matchtotal' w5 p
           Hset Hprop Hgone Hunusable Hwork Husable Hcollect Hbusy.
    unfold generateAttendeeFreeBusyResponse.
    erewrite bind_returned by (apply call_run; exact Hset).
    erewrite bind_returned by (apply call_run; exact Hprop).
    unfold bind at 1, ret at 1.
    cbn [freeBusySetLoop].
    match goal with
    | |- context [bind ?loop _ ?st] =>
        assert (Hloop : exists s2, loop st = (Returned (fbinfo', matchtotal'), s2))
    end.
    { erewrite bind_returned by (apply call_run; exact Hgone).
      assert (Hrest : forall s0,
        st_world s0 = w3 ->
        exists s2,
          freeBusySetLoop C scheduler [work] ([], [], []) 0
            (sameCalendarUser scheduler recipient) remote s0
          = (Returned (fbinfo', matchtotal'), s2)).
      { intros s0 Hs0. cbn [freeBusySetLoop].
        erewrite bind_returned
          by (apply call_run; rewrite Hs0; exact Hwork).
        cbv beta iota.
        rewrite skip_iff_not_usable, Husable. cbn [negb].
        erewrite bind_returned by (apply call_run; exact Hcollect).
        eexists. reflexivity. }
      destruct resolved as [r |].
      - cbv beta iota.
        rewrite skip_iff_not_usable, Hunusable. cbn [negb].
        apply Hrest. reflexivity.
      - apply Hrest. reflexivity. }
    destruct Hloop as (s2 & Hloop).
    erewrite bind_returned by exact Hloop.
    do 2 eexists. split; [reflexivity |].
    destruct fbinfo' as [[busy tentative] unavailable].
    split; [reflexivity | exact Hbusy].
Qed.

(** A free-busy set without any usable source leaves [fbinfo] and the
    match count as they were. *)
Lemma freeBusySetLoop_nothing_usable fbset :
  (forall url w,
      In url fbset ->
      exists resolved w',
        locateResource C url w = (Returned resolved, w')
        /\ usable resolved = false) ->
  forall fbinfo matchtotal scu remote s,
  exists s',
    freeBusySetLoop C scheduler fbset fbinfo matchtotal scu remote s
      = (Returned (fbinfo, matchtotal), s')
    /\ st_responses s' = st_responses s.
Proof.
  induction fbset as [| url fbset IH]; intros Hnone fbinfo matchtotal scu
    remote s.
  - exists s. cbn. auto.
  - assert (Hrest : forall u w, In u fbset ->
              exists resolved w',
                locateResource C u w = (Returned resolved, w')
                /\ usable resolved = false)
      by (intros; apply Hnone; right; assumption).
    specialize (IH Hrest).
    destruct (Hnone url (st_world s) (or_introl eq_refl))
      as (resolved & w' & Hlocate & Hunusable).
    cbn [freeBusySetLoop].
    erewrite bind_returned by (apply call_run; exact Hlocate).
    destruct resolved as [res |].
    + rewrite skip_iff_not_usable, Hunusable. cbn [negb].
      destruct (IH fbinfo matchtotal scu remote
                   (afterCall s w' (EvLocateResource url)))
        as (s' & Hrun & Hresp).
      exists s'. auto.
    + destruct (IH fbinfo matchtotal scu remote
                   (afterCall s w' (EvLocateResource url)))
        as (s' & Hrun & Hresp).
      exists s'. auto.
Qed.

(** C10. For a recipient of a free-busy request whose free-busy set is
    empty or holds only locations that resolve to nothing, to a missing
    resource or to a resource that is not a calendar collection, and
    whose inbox has no calendar-availability property,
    [generateFreeBusyResponse] returns accepted and adds for the
    recipient one success entry, with request-status [2.0;Success],
    carrying a free-busy object with method [REPLY] whose busy, tentative
    and unavailable sequences are empty. *)
Theorem empty_aggregation_succeeds
    recipient organizerProp uid s attendeeProp w1 fbset w2 w3 :
  getAttendeeProperty C (calendar scheduler)
    (calendarUserAddresses (principal recipient)) (st_world s)
    = (Returned attendeeProp, w1) ->
  calendarFreeBusyURIs C (principal recipient) w1 = (Returned fbset, w2) ->
  hasProperty C (inbox recipient) calendar_availability w2
    = (Returned false, w3) ->
  (forall url w,
      In url fbset ->
      exists resolved w',
        locateResource C url w = (Returned resolved, w')
        /\ usable resolved = false) ->
  exists s',
    generateFreeBusyResponse C scheduler recipient organizerProp uid s
      = (Returned true, s')
    /\ st_responses s' =
         st_responses s ++
           [successEntry (cuaddr recipient)
              (Some {| fb_method := "REPLY";
                       fb_organizer := organizerProp;
                       fb_attendee := attendeeProp;
                       fb_uid := uid;
                       fb_range := timeRange scheduler;
                       fb_busy := [];
                       fb_tentative := [];
                       fb_unavailable := [] |})].
Proof.
  intros Hatt Hfbset Hprop Hnone.
  unfold generateFreeBusyResponse.
  erewrite bind_returned by (apply call_run; exact Hatt).
  set (s1 := afterCall s w1 _).
  assert (Hagg : exists s2,
    generateAttendeeFreeBusyResponse C scheduler recipient organizerProp uid
      attendeeProp (isRemote (organizer scheduler)) s1
    = (Returned (buildFreeBusyResult ([], [], []) (timeRange scheduler)
                   organizerProp attendeeProp uid "REPLY"), s2)
    /\ st_responses s2 = st_responses s).
  { unfold generateAttendeeFreeBusyResponse.
    erewrite bind_returned by (apply call_run; exact Hfbset).
    erewrite bind_returned by (apply call_run; exact Hprop).
    unfold bind at 1, ret at 1.
    match goal with
    | |- context [bind (freeBusySetLoop C scheduler fbset ?fb ?m ?scu ?r)
                       _ ?st] =>
        destruct (freeBusySetLoop_nothing_usable fbset Hnone fb m scu r st)
          as (s2 & Hloop & Hresp)
    end.
    exists s2. erewrite bind_returned by exact Hloop.
    split; [reflexivity | exact Hresp]. }
  destruct Hagg as (s2 & Hagg & Hresp).
  erewrite try_returned by exact Hagg.
  eexists. split; [reflexivity |]. cbn. rewrite Hresp. reflexivity.
Qed.

End EngineFacts.

(** ** The engine on the small deployment *)

Import Demo.

Lemma office_disciplined : Disciplined (collaborators office).
Proof.
  constructor; cbn; intros.
  - destruct (String.eqb _ _); congruence.
  - destruct (String.eqb _ _); congruence.
  - repeat match goal with
           | H : context [if ?b then _ else _] |- _ => destruct b
           end; try congruence.
    injection H as <- _. eauto.
  - congruence.
  - congruence.
  - congruence.
Qed.

(** C1, the statement without its proviso fails: a lookup of the new inbox
    item that raises ends the run with that exception, leaving no entry for
    the recipient at hand nor for the one after; so does, in a free-busy
    request, a lookup of the attendee property that raises. *)
Lemma uncaught_exception_ends_the_run :
  generateSchedulingResponses (collaborators brokenStore) localScheduler false
    [alice; bob] start
  = (Raised (OtherException "IOError"),
     mkState tt [] [] []
       [EvCheckPrivileges (inbox alice) (principalURL (principal olga));
        EvLocateResource (itemURL alice)])
  /\
  generateSchedulingResponses (collaborators brokenCalendar) remoteScheduler
    true [alice; bob] start
  = (Raised (OtherException "ValueError"),
     mkState tt [] [] []
       [EvGetAttendeeProperty (calendarUserAddresses (principal alice))]).
Proof. split; reflexivity. Qed.

Lemma one_entry_per_recipient_witness :
  (Disciplined (collaborators office)
   /\ exists s' entries,
        generateSchedulingResponses (collaborators office) localScheduler false
          [alice; bob; carol; dave; erin] start = (Returned tt, s')
        /\ st_responses s' = st_responses start ++ entries
        /\ map re_recipient entries
           = map cuaddr [alice; bob; carol; dave; erin])
  /\ generateSchedulingResponses (collaborators brokenStore) localScheduler
       false ([] ++ alice :: [bob]) start
     = (Raised (OtherException "IOError"),
        snd (recipientStep (collaborators brokenStore) localScheduler false
               alice
               (getOrganizerProperty (collaborators brokenStore)
                  (calendar localScheduler))
               (resourceUID (collaborators brokenStore)
                  (calendar localScheduler))
               start)).
Proof.
  split; [split |].
  - exact office_disciplined.
  - apply (proj1 (@one_entry_per_recipient unit string (collaborators office)
                    localScheduler) office_disciplined).
  - apply (proj2 (@one_entry_per_recipient unit string
                    (collaborators brokenStore) localScheduler)
             false [] alice [bob] start start (OtherException "IOError")).
    + reflexivity.
    + right.
      exists (afterCall start tt
                (EvCheckPrivileges (inbox alice)
                   (principalURL (principal olga)))).
      split.
      * exists tt. split; reflexivity.
      * exists "1257894000.0", tt. split; [reflexivity |].
        left. exists tt. reflexivity.
Defined.

(** C2, the statement as made fails: an error raised while the attendee
    property is looked up propagates to the caller of
    [generateFreeBusyResponse], and no entry is added. *)
Lemma attendee_lookup_error_propagates :
  generateFreeBusyResponse (collaborators brokenCalendar) remoteScheduler alice
    organizerProp "uid-1" start
  = (Raised (OtherException "ValueError"),
     mkState tt [] [] []
       [EvGetAttendeeProperty (calendarUserAddresses (principal alice))]).
Proof. reflexivity. Qed.

Lemma freebusy_aggregation_failure_entry_witness :
  (generateFreeBusyResponse (collaborators brokenCollector) remoteScheduler
     alice organizerProp "uid-1" start
   = (Returned false,
      afterResponse
        (snd (generateAttendeeFreeBusyResponse (collaborators brokenCollector)
                remoteScheduler alice organizerProp "uid-1"
                (Some (cuaddr alice)) true
                (afterCall start tt
                   (EvGetAttendeeProperty
                      (calendarUserAddresses (principal alice))))))
        (failureEntry (cuaddr alice) responsecode.FORBIDDEN "3.8;No authority"))
   /\ st_responses
        (snd (generateAttendeeFreeBusyResponse (collaborators brokenCollector)
                remoteScheduler alice organizerProp "uid-1"
                (Some (cuaddr alice)) true
                (afterCall start tt
                   (EvGetAttendeeProperty
                      (calendarUserAddresses (principal alice))))))
      = st_responses start)
  /\
  generateFreeBusyResponse (collaborators brokenCalendar) remoteScheduler alice
    organizerProp "uid-1" start
  = (Raised (OtherException "ValueError"),
     afterCall start tt
       (EvGetAttendeeProperty (calendarUserAddresses (principal alice)))).
Proof.
  split.
  - apply (proj1 (@freebusy_aggregation_failure_entry unit string
                    (collaborators brokenCollector) remoteScheduler alice
                    organizerProp "uid-1" start)
             (Some (cuaddr alice)) tt (OtherException "IOError")).
    + reflexivity.
    + reflexivity.
  - apply (proj2 (@freebusy_aggregation_failure_entry unit string
                    (collaborators brokenCalendar) remoteScheduler alice
                    organizerProp "uid-1" start)).
    reflexivity.
Defined.

Lemma access_denied_entry_then_next_recipient_witness :
  recipientsLoop (collaborators office) localScheduler false [bob; alice]
    organizerProp "uid-1" start
  = recipientsLoop (collaborators office) localScheduler false [alice]
      organizerProp "uid-1"
      (mkState tt
         [failureEntry (cuaddr bob) responsecode.NOT_FOUND "3.8;No authority"]
         [] []
         [EvCheckPrivileges (inbox bob) (principalURL (principal olga))])
  /\
  checksOf (snd (generateSchedulingResponses (collaborators office)
                   remoteScheduler false [bob; alice] start))
  = checksOf start.
Proof.
  split.
  - apply (proj1 (@access_denied_entry_then_next_recipient unit string
                    (collaborators office) localScheduler)
             olga false bob [alice] organizerProp "uid-1" start tt).
    + reflexivity.
    + reflexivity.
  - apply (proj2 (@access_denied_entry_then_next_recipient unit string
                    (collaborators office) remoteScheduler)).
    reflexivity.
Defined.

Lemma autoprocessed_needs_no_inbox_item_witness :
  generateResponse (collaborators office) localScheduler dave start
  = (Returned true,
     mkState tt [successEntry (cuaddr dave) None] [] []
       [EvLocateResource (itemURL dave);
        EvDoImplicitProcessing (cuaddr dave)]).
Proof.
  apply (@autoprocessed_needs_no_inbox_item unit string (collaborators office)
           localScheduler dave start "1257894000.0" tt
           (Some (absent (itemURL dave))) tt true tt).
  - reflexivity.
  - reflexivity.
  - reflexivity.
Defined.

Lemma implicit_failure_entry_witness :
  generateResponse (collaborators office) localScheduler carol start
  = (Returned false,
     mkState tt
       [failureEntry (cuaddr carol) responsecode.FORBIDDEN "5.3;Invalid date"]
       [] []
       [EvLocateResource (itemURL carol);
        EvDoImplicitProcessing (cuaddr carol)]).
Proof.
  apply (@implicit_failure_entry unit string (collaborators office)
           localScheduler carol start "1257894000.0" tt
           (Some (absent (itemURL carol))) tt "5.3;Invalid date" tt).
  - reflexivity.
  - reflexivity.
  - reflexivity.
Defined.

(** C6, the statement as made fails: Alice's inbox item is stored, the
    implicit processor reported [processed = false] and her principal has
    auto-schedule on, yet no candidate is produced for her, because the
    second property write raises. *)
Lemma stored_item_without_candidate :
  storeCalendarObjectResource (collaborators Samples.frozenProperties)
    (Some (absent (itemURL alice))) (itemURL alice) (inbox alice)
    (calendar localScheduler) tt = (Returned tt, tt)
  /\ doImplicitProcessing (collaborators Samples.frozenProperties)
       (calendar localScheduler) (originator localScheduler) alice tt
     = (Returned (false, false), tt)
  /\ autoSchedule (principal alice) = true
  /\ generateResponse (collaborators Samples.frozenProperties) localScheduler
       alice start
     = (Raised (OtherException "IOError"),
        mkState tt [successEntry (cuaddr alice) None] [] []
          [EvLocateResource (itemURL alice);
           EvDoImplicitProcessing (cuaddr alice);
           EvStore (itemURL alice);
           EvWriteDeadProperty (absent (itemURL alice))
             (caldavxml.Originator (cuaddr olga));
           EvWriteDeadProperty (absent (itemURL alice))
             (caldavxml.Recipient (cuaddr alice))]).
Proof. repeat split. Qed.

Lemma candidate_iff_unprocessed_and_autoschedule_witness :
  (exists new : list Candidate,
     generateResponse (collaborators office) localScheduler alice start
     = (Returned true,
        mkState tt [successEntry (cuaddr alice) None] new []
          [EvLocateResource (itemURL alice);
           EvDoImplicitProcessing (cuaddr alice);
           EvStore (itemURL alice);
           EvWriteDeadProperty (absent (itemURL alice))
             (caldavxml.Originator (cuaddr olga));
           EvWriteDeadProperty (absent (itemURL alice))
             (caldavxml.Recipient (cuaddr alice));
           EvWriteDeadProperty (absent (itemURL alice))
             (caldavxml.ScheduleState caldavxml.ScheduleUnprocessed)])
     /\ (new = [(principal alice, inbox alice, absent (itemURL alice))] <->
         false = false /\ autoSchedule (principal alice) = true)
     /\ (new = [] \/
         new = [(principal alice, inbox alice, absent (itemURL alice))]))
  /\ (fst (generateResponse (collaborators Samples.frozenProperties)
             localScheduler alice start)
      = Raised (OtherException "IOError")
      /\ st_autoresponses
           (snd (generateResponse (collaborators Samples.frozenProperties)
                   localScheduler alice start))
         = st_autoresponses start).
Proof.
  split.
  - apply (proj1 (proj2 (@candidate_iff_unprocessed_and_autoschedule
                           unit string (collaborators office) localScheduler
                           alice start))
             "1257894000.0" tt (absent (itemURL alice)) tt false tt tt tt tt
             tt).
    + reflexivity.
    + reflexivity.
    + reflexivity.
    + reflexivity.
    + reflexivity.
    + reflexivity.
    + reflexivity.
  - apply (proj2 (proj2 (@candidate_iff_unprocessed_and_autoschedule
                           unit string
                           (collaborators Samples.frozenProperties)
                           localScheduler alice start))
             "1257894000.0" tt (absent (itemURL alice)) tt false tt tt
             (OtherException "IOError") tt).
    + reflexivity.
    + reflexivity.
    + reflexivity.
    + reflexivity.
    + right. left. exists tt. split; reflexivity.
Defined.

Lemma missing_sources_are_skipped_witness :
  (fst (freeBusySetLoop (collaborators office) localScheduler
          [goneURL; workURL] ([], [], []) 0 false false start)
   = fst (accumulateFreeBusy (collaborators office) localScheduler
            (validSources resolve [goneURL; workURL]) ([], [], []) 0
            false false start)
   /\ st_world (snd (freeBusySetLoop (collaborators office) localScheduler
                       [goneURL; workURL] ([], [], []) 0 false false start))
      = st_world (snd (accumulateFreeBusy (collaborators office)
                         localScheduler
                         (validSources resolve [goneURL; workURL])
                         ([], [], []) 0 false false start)))
  /\ validSources resolve [goneURL; workURL] = [collection workURL]
  /\ (exists reply s',
         generateAttendeeFreeBusyResponse (collaborators office) localScheduler
           alice organizerProp "uid-1" (Some (cuaddr alice)) false start
         = (Returned reply, s')
         /\ fb_method reply = "REPLY"
         /\ In (10, 20)%Z (fb_busy reply))
  /\ st_responses
       (snd (generateFreeBusyResponse (collaborators office) localScheduler
               alice organizerProp "uid-1" start))
     = [successEntry (cuaddr alice)
          (Some (buildFreeBusyResult ([(10, 20)%Z], [], []) (0, 100)%Z
                   organizerProp (Some (cuaddr alice)) "uid-1" "REPLY"))].
Proof.
  split; [| split; [reflexivity | split; [| reflexivity]]].
  - apply (proj1 (@missing_sources_are_skipped unit string
                    (collaborators office) localScheduler)
             resolve [goneURL; workURL]).
    intros url w [<- | [<- | []]]; reflexivity.
  - apply (proj2 (@missing_sources_are_skipped unit string
                    (collaborators office) localScheduler)
             alice organizerProp "uid-1" (Some (cuaddr alice)) false start
             goneURL workURL tt tt (Some (absent goneURL)) tt
             (collection workURL) tt ([(10, 20)%Z], [], []) 1 tt (10, 20)%Z).
    + reflexivity.
    + reflexivity.
    + reflexivity.
    + reflexivity.
    + reflexivity.
    + reflexivity.
    + reflexivity.
    + left. reflexivity.
Defined.

Lemma auto_responses_queued_after_the_loop_witness :
  (exists calls : list (DelayedCall string),
      snd (generateSchedulingResponses (collaborators office) localScheduler
             false [alice; dave] start)
      = mkState tt
          [successEntry (cuaddr alice) None; successEntry (cuaddr dave) None]
          [(principal alice, inbox alice, absent (itemURL alice))]
          calls
          (st_log (snd (recipientsLoop (collaborators office) localScheduler
                          false [alice; dave] organizerProp "uid-1" start)))
      /\ map (fun c => (dc_principal c, dc_inbox c, dc_child c)) calls
         = [(principal alice, inbox alice, absent (itemURL alice))]
      /\ Forall (fun c => dc_calendar c = invitation
                          /\ dc_request c = request localScheduler
                          /\ dc_delay c = 0%Z) calls)
  /\
  st_reactor (snd (generateSchedulingResponses (collaborators noAutoRespond)
                     localScheduler false [alice; dave] start)) = [].
Proof.
  split.
  - destruct (@auto_responses_queued_after_the_loop unit string
                (collaborators office) localScheduler false [alice; dave] start
                (snd (recipientsLoop (collaborators office) localScheduler false
                        [alice; dave] organizerProp "uid-1"
                        (withAutoresponses start [])))
                eq_refl) as (_ & (calls & Hrun & Hmap & Hall) & _).
    exists calls. split; [| split].
    + rewrite Hrun. reflexivity.
    + exact Hmap.
    + exact Hall.
  - destruct (@auto_responses_queued_after_the_loop unit string
                (collaborators noAutoRespond) localScheduler false
                [alice; dave] start
                (snd (recipientsLoop (collaborators noAutoRespond)
                        localScheduler false [alice; dave] organizerProp
                        "uid-1" (withAutoresponses start [])))
                eq_refl) as (_ & (calls & Hrun & Hmap & _) & Hnone).
    rewrite Hrun. cbn [snd st_reactor].
    rewrite (Hnone eq_refl) in Hmap.
    destruct calls; [reflexivity | discriminate].
Defined.

Lemma empty_aggregation_succeeds_witness :
  exists s',
    generateFreeBusyResponse (collaborators office) remoteScheduler bob
      organizerProp "uid-1" start = (Returned true, s')
    /\ st_responses s' =
         st_responses start ++
           [successEntry (cuaddr bob)
              (Some {| fb_method := "REPLY";
                       fb_organizer := organizerProp;
                       fb_attendee := Some (cuaddr bob);
                       fb_uid := "uid-1";
                       fb_range := timeRange remoteScheduler;
                       fb_busy := [];
                       fb_tentative := [];
                       fb_unavailable := [] |})].
Proof.
  apply (@empty_aggregation_succeeds unit string (collaborators office)
           remoteScheduler bob organizerProp "uid-1" start
           (Some (cuaddr bob)) tt [goneURL] tt tt).
  - reflexivity.
  - reflexivity.
  - reflexivity.
  - intros url w [<- | []].
    exists (Some (absent goneURL)), w. split; reflexivity.
Defined.

(** * Further properties *)

(** ** The address classifier: the other branches *)

Section AddressClassifierMore.

Variable re_match : string -> string -> bool.

Local Arguments String.append : simpl nomatch.

Lemma prefix_append (p rest : string) : String.prefix p (p ++ rest)%string = true.
Proof.
  induction p as [| c p IH].
  - destruct rest; reflexivity.
  - change (String c p ++ rest)%string with (String c (p ++ rest)).
    cbn [String.prefix].
    destruct (ascii_dec c c) as [_ | Hne]; [exact IH | contradiction].
Qed.

Lemma prefix_inversion (p s : string) :
  String.prefix p s = true -> exists rest, s = (p ++ rest)%string.
Proof.
  revert s. induction p as [| c p IH]; intros s H.
  - exists s. reflexivity.
  - destruct s as [| c' s]; cbn in H; [discriminate |].
    destruct (ascii_dec c c') as [<- | _]; [| discriminate].
    destruct (IH s H) as [rest ->]. exists rest. reflexivity.
Qed.

Lemma split_lacking (sep : ascii) (s : string) :
  lacks sep s = true -> PyStr.split sep s = [s].
Proof.
  induction s as [| c s IH]; cbn; intros H; [reflexivity |].
  apply andb_prop in H. destruct H as [Hc Hs].
  destruct (Ascii.eqb c sep); [discriminate |].
  rewrite (IH Hs). reflexivity.
Qed.

Lemma split_first_piece (sep : ascii) (s q : string) :
  lacks sep s = true ->
  PyStr.item0 (PyStr.split sep (s ++ String sep q)) = s.
Proof.
  induction s as [| c s IH]; cbn; intros H.
  - rewrite Ascii.eqb_refl. reflexivity.
  - apply andb_prop in H. destruct H as [Hc Hs].
    destruct (Ascii.eqb c sep); [discriminate |].
    specialize (IH Hs). unfold PyStr.item0 in IH.
    destruct (PyStr.split sep (s ++ String sep q)) as [| piece pieces];
      cbn in *; rewrite IH; reflexivity.
Qed.

Lemma substring_whole (d : string) : substring 0 (String.length d) d = d.
Proof. induction d as [| c d IH]; cbn; [reflexivity | rewrite IH; reflexivity]. Qed.

Lemma substring_after (u d : string) :
  substring (String.length u) (String.length d) (u ++ d) = d.
Proof.
  induction u as [| c u IH]; cbn; [apply substring_whole | exact IH].
Qed.

Lemma length_append (u d : string) :
  String.length (u ++ d) = String.length u + String.length d.
Proof. induction u as [| c u IH]; cbn; [reflexivity | rewrite IH; reflexivity]. Qed.

Lemma endswith_append (u d : string) : PyStr.endswith (u ++ d) d = true.
Proof.
  unfold PyStr.endswith. rewrite length_append.
  replace (String.length u + String.length d - String.length d)
    with (String.length u) by lia.
  rewrite substring_after, String.eqb_refl, andb_true_r.
  apply Nat.leb_le. lia.
Qed.

Lemma endswith_longer (s d : string) :
  String.length s < String.length d -> PyStr.endswith s d = false.
Proof.
  intros H. unfold PyStr.endswith.
  replace (Nat.leb (String.length d) (String.length s)) with false;
    [reflexivity |].
  symmetry. apply Nat.leb_gt. exact H.
Qed.

(** An address that begins with [/] is matched, whatever the
    configuration. *)
Theorem relative_address_always_matches
    (config : CalDAVSchedulingConfig) (rest : string) :
  matchCalendarUserAddress re_match config (String "/" rest) = true.
Proof.
  unfold matchCalendarUserAddress.
  replace (PyStr.startswith (String "/" rest) "mailto:") with false
    by reflexivity.
  replace (PyStr.startswith (String "/" rest) "http://") with false
    by reflexivity.
  replace (PyStr.startswith (String "/" rest) "https://") with false
    by reflexivity.
  cbn [andb orb].
  replace (PyStr.startswith (String "/" rest) "/") with true;
    [reflexivity |].
  unfold PyStr.startswith. cbn. destruct rest; reflexivity.
Qed.

(** A [mailto:] address is matched as soon as the text between [mailto:]
    and the first [?], if any, ends with the configured email domain: the
    test is a plain suffix test, and what follows the [?] plays no part. *)
Theorem mailto_suffix_matches
    (config : CalDAVSchedulingConfig) (before query : string) :
  PyStr.truthy (EmailDomain config) = true ->
  lacks "?" (before ++ EmailDomain config) = true ->
  matchCalendarUserAddress re_match config
    ("mailto:" ++ before ++ EmailDomain config) = true
  /\ matchCalendarUserAddress re_match config
       ("mailto:" ++ (before ++ EmailDomain config) ++ String "?" query) = true.
Proof.
  intros Hdom Hlacks. split.
  - unfold matchCalendarUserAddress.
    replace (PyStr.startswith ("mailto:" ++ before ++ EmailDomain config)
               "mailto:") with true
      by (symmetry; apply (prefix_append "mailto:")).
    rewrite Hdom. cbn [andb].
    replace (PyStr.slice_from 7 ("mailto:" ++ before ++ EmailDomain config))
      with (before ++ EmailDomain config)%string by reflexivity.
    rewrite (split_lacking _ _ Hlacks). cbn [PyStr.item0 hd].
    rewrite endswith_append. reflexivity.
  - unfold matchCalendarUserAddress.
    replace (PyStr.startswith
               ("mailto:" ++ (before ++ EmailDomain config) ++ String "?" query)
               "mailto:") with true
      by (symmetry; apply (prefix_append "mailto:")).
    rewrite Hdom. cbn [andb].
    replace (PyStr.slice_from 7
               ("mailto:" ++ (before ++ EmailDomain config) ++ String "?" query))
      with ((before ++ EmailDomain config) ++ String "?" query)%string
      by reflexivity.
    rewrite (split_first_piece _ _ query Hlacks).
    rewrite endswith_append. reflexivity.
Qed.

(** With neither an email domain nor an HTTP domain configured, an address
    is matched exactly when it begins with [/] or one of the configured
    address patterns matches it. *)
Theorem without_domains_path_or_pattern
    (config : CalDAVSchedulingConfig) (cuaddr : string) :
  EmailDomain config = "" ->
  HTTPDomain config = "" ->
  matchCalendarUserAddress re_match config cuaddr =
    PyStr.startswith cuaddr "/"
    || DeliveryService_matchCalendarUserAddress re_match config cuaddr.
Proof.
  intros Hemail Hhttp. unfold matchCalendarUserAddress.
  rewrite Hemail, Hhttp. cbn [PyStr.truthy]. rewrite !andb_false_r.
  destruct (PyStr.startswith cuaddr "/"); reflexivity.
Qed.

(** An HTTP domain of more than three characters has no effect on the
    classifier: every address is classified as if no HTTP domain were
    configured. *)
Theorem long_http_domain_has_no_effect
    (config : CalDAVSchedulingConfig) (cuaddr : string) :
  3 < String.length (HTTPDomain config) ->
  matchCalendarUserAddress re_match config cuaddr =
  matchCalendarUserAddress re_match
    {| EmailDomain := EmailDomain config;
       HTTPDomain := "";
       AddressPatterns := AddressPatterns config |} cuaddr.
Proof.
  intros Hlong. unfold matchCalendarUserAddress.
  cbn [EmailDomain HTTPDomain PyStr.truthy].
  unfold DeliveryService_matchCalendarUserAddress. cbn [AddressPatterns].
  destruct (PyStr.startswith cuaddr "mailto:" && PyStr.truthy (EmailDomain config));
    [reflexivity |].
  rewrite andb_false_r.
  assert (Htruthy : PyStr.truthy (HTTPDomain config) = true)
    by (destruct (HTTPDomain config); [cbn in Hlong; lia | reflexivity]).
  rewrite Htruthy, andb_true_r.
  destruct (PyStr.startswith cuaddr "http://") eqn:Hhttp.
  - destruct (prefix_inversion _ _ Hhttp) as [rest ->]. cbn [orb].
    rewrite split_colon_http.
    replace (PyStr.endswith _ (HTTPDomain config)) with false
      by (symmetry; apply endswith_longer; cbn; lia).
    replace (PyStr.startswith ("http://" ++ rest) "/") with false
      by reflexivity.
    reflexivity.
  - destruct (PyStr.startswith cuaddr "https://") eqn:Hhttps; [| reflexivity].
    destruct (prefix_inversion _ _ Hhttps) as [rest ->]. cbn [orb].
    rewrite split_colon_https.
    replace (PyStr.endswith _ (HTTPDomain config)) with false
      by (symmetry; apply endswith_longer; cbn; lia).
    replace (PyStr.startswith ("https://" ++ rest) "/") with false
      by reflexivity.
    reflexivity.
Qed.

End AddressClassifierMore.

(** ** The engine: the other paths, and what every run keeps *)

Section EngineMore.

Context {W Calendar : Type}.
Variable C : Collaborators W Calendar.
Variable scheduler : Scheduler Calendar.

Implicit Types (s : state W Calendar) (recipient : LocalUser).

Local Abbreviation Run := (M (W:=W) (Calendar:=Calendar)).

(** When storing the inbox item raises, whatever the exception,
    [generateResponse] returns not-accepted; the recipient's entry has the
    forbidden status and request-status [3.8;No authority]; no property is
    written and no auto-response candidate is added. *)
Theorem storage_failure_entry
    recipient s now w0 child w1 (processed : bool) w2 e w3 :
  time_time C (st_world s) = (now, w0) ->
  locateResource C (inboxItemURL C scheduler recipient now) w0
    = (Returned child, w1) ->
  doImplicitProcessing C (calendar scheduler) (originator scheduler)
                       recipient w1 = (Returned (processed, false), w2) ->
  storeCalendarObjectResource C child
    (inboxItemURL C scheduler recipient now) (inbox recipient)
    (calendar scheduler) w2 = (Raised e, w3) ->
  generateResponse C scheduler recipient s =
    (Returned false,
     mkState w3
       (st_responses s ++
          [failureEntry (cuaddr recipient) responsecode.FORBIDDEN
                        "3.8;No authority"])
       (st_autoresponses s)
       (st_reactor s)
       (st_log s ++
          [EvLocateResource (inboxItemURL C scheduler recipient now);
           EvDoImplicitProcessing (cuaddr recipient);
           EvStore (inboxItemURL C scheduler recipient now)])).
Proof.
  intros Hclock Hlocate Himplicit Hstore. unfold generateResponse.
  erewrite bind_returned by (apply clock_run; exact Hclock).
  erewrite bind_returned by (apply call_run; exact Hlocate).
  erewrite try_returned
    by (eapply generateResponse_prefix; eassumption).
  cbv beta iota.
  erewrite try_raised by (apply call_run; exact Hstore).
  cbn. unfold afterResponse. cbn. rewrite <- app_assoc. reflexivity.
Qed.

(** Once the inbox item is stored, the recipient's success entry is queued
    before the item is annotated: it is in the queue whether or not the
    three properties can be written.  When one of the three writes raises,
    that exception leaves [generateResponse], and when the lookup gave no
    resource to annotate an [AttributeError] does; in both cases no
    auto-response candidate has been added. *)
Theorem stored_item_reported_before_annotation
    recipient s now w0 child w1 (processed : bool) w2 w3 :
  time_time C (st_world s) = (now, w0) ->
  locateResource C (inboxItemURL C scheduler recipient now) w0
    = (Returned child, w1) ->
  doImplicitProcessing C (calendar scheduler) (originator scheduler)
                       recipient w1 = (Returned (processed, false), w2) ->
  storeCalendarObjectResource C child
    (inboxItemURL C scheduler recipient now) (inbox recipient)
    (calendar scheduler) w2 = (Returned tt, w3) ->
  st_responses (snd (generateResponse C scheduler recipient s))
    = st_responses s ++ [successEntry (cuaddr recipient) None]
  /\ (forall item e w4,
        child = Some item ->
        annotationRaises C scheduler recipient item processed w3 e w4 ->
        fst (generateResponse C scheduler recipient s) = Raised e
        /\ st_autoresponses (snd (generateResponse C scheduler recipient s))
           = st_autoresponses s)
  /\ (child = None ->
      fst (generateResponse C scheduler recipient s)
        = Raised (OtherException "AttributeError")
      /\ st_autoresponses (snd (generateResponse C scheduler recipient s))
         = st_autoresponses s).
Proof.
  intros Hclock Hlocate Himplicit Hstore.
  split; [| split].
  - erewrite generateResponse_after_store by eassumption.
    unfold bind, responses_add, call, raise, ret, autoresponses_append,
      successEntry. cbn.
    destruct child as [child |]; cbn; [| reflexivity].
    repeat
      match goal with
      | |- context [writeDeadProperty C ?r ?p ?w] =>
          destruct (writeDeadProperty C r p w) as [[[] | ?] ?]; cbn
      end;
      try reflexivity.
    destruct (negb processed && autoSchedule (principal recipient));
      reflexivity.
  - intros item e w4 -> Hraises.
    edestruct (@generateResponse_annotation_raises W Calendar C scheduler)
      as (Hfst & _ & _ & Hauto);
      [exact Hclock | exact Hlocate | exact Himplicit | exact Hstore
      | exact Hraises |].
    split; assumption.
  - intros ->.
    erewrite generateResponse_after_store by eassumption.
    split; reflexivity.
Qed.

(** *** The calls a run makes *)

Section LogShape.

Variable P : event -> bool.

Lemma logs_only_quiet A (m : Run A) :
  (forall s, st_log (snd (m s)) = st_log s) -> logs_only P m.
Proof.
  intros H s. exists []. rewrite app_nil_r. split; [apply H | reflexivity].
Qed.

Lemma logs_only_bind A B (m : Run A) (k : A -> Run B) :
  logs_only P m -> (forall a, logs_only P (k a)) -> logs_only P (bind m k).
Proof.
  intros Hm Hk s. unfold bind. destruct (Hm s) as (l & Hl & HP).
  destruct (m s) as [[a | e] s']; cbn in *.
  - destruct (Hk a s') as (l' & Hl' & HP').
    exists (l ++ l'). rewrite Hl', Hl, <- app_assoc, forallb_app, HP, HP'.
    split; reflexivity.
  - exists l. auto.
Qed.

Lemma logs_only_try A B (body : Run A) (handler : exn -> option (Run B))
      (orelse : A -> Run B) :
  logs_only P body ->
  (forall e h, handler e = Some h -> logs_only P h) ->
  (forall a, logs_only P (orelse a)) ->
  logs_only P (try_except_else body handler orelse).
Proof.
  intros Hb Hh Ho s. unfold try_except_else.
  destruct (Hb s) as (l & Hl & HP).
  destruct (body s) as [[a | e] s']; cbn in *.
  - destruct (Ho a s') as (l' & Hl' & HP').
    exists (l ++ l'). rewrite Hl', Hl, <- app_assoc, forallb_app, HP, HP'.
    split; reflexivity.
  - destruct (handler e) as [h |] eqn:E; cbn.
    + destruct (Hh e h E s') as (l' & Hl' & HP').
      exists (l ++ l'). rewrite Hl', Hl, <- app_assoc, forallb_app, HP, HP'.
      split; reflexivity.
    + exists l. auto.
Qed.

Lemma logs_only_call A (ev : event) (f : W -> outcome A * W) :
  P ev = true -> logs_only P (call (Calendar:=Calendar) ev f).
Proof.
  intros Hev s. unfold call. destruct (f (st_world s)) as [r w].
  exists [ev]. cbn. rewrite Hev. split; reflexivity.
Qed.

Lemma logs_only_add (addr : string) what reqstatus cal :
  logs_only P (responses_add (W:=W) (Calendar:=Calendar) addr what reqstatus cal).
Proof. apply logs_only_quiet. reflexivity. Qed.

Lemma logs_only_ret A (a : A) : logs_only P (ret (W:=W) (Calendar:=Calendar) a).
Proof. apply logs_only_quiet. reflexivity. Qed.

End LogShape.

Lemma freeBusySetLoop_logs fbset :
  forall fbinfo matchtotal scu remote,
    logs_only freebusy_event
      (freeBusySetLoop C scheduler fbset fbinfo matchtotal scu remote).
Proof.
  induction fbset as [| url fbset IH]; intros; cbn [freeBusySetLoop].
  - apply logs_only_ret.
  - apply logs_only_bind; [apply logs_only_call; reflexivity |].
    intros [res |]; [| apply IH].
    destruct (negb (exists_ res) || negb (isCalendarCollection res));
      [apply IH |].
    apply logs_only_bind; [apply logs_only_call; reflexivity |].
    intros r. apply IH.
Qed.

Lemma generateFreeBusyResponse_logs recipient organizerProp uid :
  logs_only freebusy_event
    (generateFreeBusyResponse C scheduler recipient organizerProp uid).
Proof.
  unfold generateFreeBusyResponse.
  apply logs_only_bind; [apply logs_only_call; reflexivity | intros att].
  apply logs_only_try.
  - unfold generateAttendeeFreeBusyResponse.
    apply logs_only_bind; [apply logs_only_call; reflexivity | intros fbset].
    apply logs_only_bind; [apply logs_only_call; reflexivity | intros has].
    apply logs_only_bind.
    + destruct has; [| apply logs_only_ret].
      apply logs_only_bind; [apply logs_only_call; reflexivity | intros a].
      apply logs_only_bind; [apply logs_only_call; reflexivity | intros a'].
      apply logs_only_call; reflexivity.
    + intros fbinfo.
      apply logs_only_bind; [apply freeBusySetLoop_logs | intros r].
      apply logs_only_ret.
  - intros e h [= <-].
    apply logs_only_bind; [apply logs_only_add | intros _].
    apply logs_only_ret.
  - intros fbresult.
    apply logs_only_bind; [apply logs_only_add | intros _].
    apply logs_only_ret.
Qed.

Lemma generateResponse_logs recipient :
  logs_only invite_event (generateResponse C scheduler recipient).
Proof.
  unfold generateResponse.
  apply logs_only_bind.
  { apply logs_only_quiet. intros s. unfold clock.
    destruct (time_time C (st_world s)). reflexivity. }
  intros now.
  apply logs_only_bind; [apply logs_only_call; reflexivity | intros child].
  apply logs_only_try.
  - apply logs_only_call; reflexivity.
  - intros e h He. destruct e; try discriminate. injection He as <-.
    apply logs_only_bind; [apply logs_only_add | intros _].
    apply logs_only_ret.
  - intros [processed autoprocessed]. destruct autoprocessed.
    + apply logs_only_bind; [apply logs_only_add | intros _].
      apply logs_only_ret.
    + apply logs_only_try.
      * apply logs_only_call; reflexivity.
      * intros e h [= <-].
        apply logs_only_bind; [apply logs_only_add | intros _].
        apply logs_only_ret.
      * intros _.
        apply logs_only_bind; [apply logs_only_add | intros _].
        destruct child as [child |];
          [| apply logs_only_quiet; reflexivity].
        repeat (apply logs_only_bind;
                [apply logs_only_call; reflexivity | intros _]).
        apply logs_only_bind; [| intros _; apply logs_only_ret].
        destruct (negb processed && autoSchedule (principal recipient));
          apply logs_only_quiet; reflexivity.
Qed.

Lemma recipientStep_logs freebusy recipient organizerProp uid :
  logs_only (run_event freebusy)
    (recipientStep C scheduler freebusy recipient organizerProp uid).
Proof.
  unfold recipientStep. apply logs_only_bind.
  - destruct (organizer scheduler); try apply logs_only_ret.
    apply logs_only_try.
    + apply logs_only_call. destruct freebusy; reflexivity.
    + intros e h He. destruct e; try discriminate. injection He as <-.
      apply logs_only_bind; [apply logs_only_add | intros _].
      apply logs_only_ret.
    + intros _. apply logs_only_ret.
  - intros proceed. destruct proceed; [| apply logs_only_ret].
    destruct freebusy; cbn [run_event].
    + apply logs_only_bind; [| intros _; apply logs_only_ret].
      apply generateFreeBusyResponse_logs.
    + apply logs_only_bind; [| intros _; apply logs_only_ret].
      apply generateResponse_logs.
Qed.

Lemma recipientsLoop_logs freebusy recipients organizerProp uid :
  logs_only (run_event freebusy)
    (recipientsLoop C scheduler freebusy recipients organizerProp uid).
Proof.
  induction recipients as [| recipient rest IH].
  - apply logs_only_ret.
  - intros s. rewrite recipientsLoop_step.
    exact (@logs_only_bind _ _ _ _ _
             (recipientStep_logs freebusy recipient organizerProp uid)
             (fun _ => IH) s).
Qed.

(** The log of collaborator calls only grows, and a run adds to it only
    calls of its own mode: a free-busy run makes no implicit-processing call,
    stores nothing and writes no property; an invitation run asks for no
    attendee property, free-busy set or availability and never calls the
    free-busy collector. *)
Theorem run_calls_only_collaborators_of_its_mode freebusy recipients s :
  exists l,
    st_log (snd (generateSchedulingResponses C scheduler freebusy recipients s))
    = st_log s ++ l
    /\ forallb (run_event freebusy) l = true.
Proof.
  revert s. change (logs_only (run_event freebusy)
                      (generateSchedulingResponses C scheduler freebusy
                         recipients)).
  unfold generateSchedulingResponses.
  apply logs_only_bind; [apply logs_only_quiet; reflexivity | intros _].
  apply logs_only_bind; [apply recipientsLoop_logs | intros _].
  apply logs_only_bind; [apply logs_only_quiet; reflexivity | intros l].
  apply logs_only_bind.
  - destruct (negb (Nat.eqb (List.length l) 0));
      [destruct (negb (canAutoRespond C (calendar scheduler))) |];
      apply logs_only_quiet; reflexivity.
  - intros _.
    apply logs_only_bind; [apply logs_only_quiet; reflexivity | intros l'].
    apply logs_only_quiet. intros s. rewrite autoResponseLoop_run. reflexivity.
Qed.

(** *** Entries and recipients *)

Lemma generateResponse_entry_or_raise recipient s :
  (exists entry,
      st_responses (snd (generateResponse C scheduler recipient s))
      = st_responses s ++ [entry]
      /\ re_recipient entry = cuaddr recipient)
  \/ (st_responses (snd (generateResponse C scheduler recipient s))
      = st_responses s
      /\ exists e, fst (generateResponse C scheduler recipient s) = Raised e).
Proof.
  unfold generateResponse, bind, try_except_else, clock, call, responses_add,
    autoresponses_append, ret, raise.
  repeat (cbv beta iota;
          match goal with
          | |- context [match ?x with _ => _ end] =>
              lazymatch x with
              | context [match _ with _ => _ end] => fail
              | _ => destruct x
              end
          end);
    cbn;
    solve [ left; eexists; split; reflexivity
          | right; split; [reflexivity | eexists; reflexivity] ].
Qed.

Lemma generateFreeBusyResponse_entry_or_raise recipient organizerProp uid s :
  (exists entry,
      st_responses
        (snd (generateFreeBusyResponse C scheduler recipient organizerProp uid s))
      = st_responses s ++ [entry]
      /\ re_recipient entry = cuaddr recipient)
  \/ (st_responses
        (snd (generateFreeBusyResponse C scheduler recipient organizerProp uid s))
      = st_responses s
      /\ exists e,
           fst (generateFreeBusyResponse C scheduler recipient organizerProp
                  uid s) = Raised e).
Proof.
  unfold generateFreeBusyResponse.
  set (cuas := calendarUserAddresses (principal recipient)).
  destruct (getAttendeeProperty C (calendar scheduler) cuas (st_world s))
    as [[att | e] w1] eqn:Hatt.
  - erewrite bind_returned by (apply call_run; exact Hatt).
    pose proof (aggregation_responses C scheduler recipient organizerProp uid
                  att (isRemote (organizer scheduler))
                  (afterCall s w1 (EvGetAttendeeProperty cuas))) as Hkeep.
    destruct (generateAttendeeFreeBusyResponse C scheduler recipient
                organizerProp uid att (isRemote (organizer scheduler))
                (afterCall s w1 (EvGetAttendeeProperty cuas)))
      as [[fbresult | e] s2] eqn:Hagg; cbn in Hkeep.
    + erewrite try_returned by exact Hagg.
      left. eexists. cbn. rewrite Hkeep. split; reflexivity.
    + erewrite try_raised by exact Hagg.
      left. eexists. cbn. rewrite Hkeep. split; reflexivity.
  - erewrite bind_raised by (apply call_run; exact Hatt).
    right. cbn. split; [reflexivity | eexists; reflexivity].
Qed.

Lemma recipientStep_entry_or_raise freebusy recipient organizerProp uid s :
  (exists entry,
      st_responses
        (snd (recipientStep C scheduler freebusy recipient organizerProp uid s))
      = st_responses s ++ [entry]
      /\ re_recipient entry = cuaddr recipient)
  \/ (st_responses
        (snd (recipientStep C scheduler freebusy recipient organizerProp uid s))
      = st_responses s
      /\ exists e,
           fst (recipientStep C scheduler freebusy recipient organizerProp uid s)
           = Raised e).
Proof.
  set (deliver :=
         if freebusy
         then bind (generateFreeBusyResponse C scheduler recipient organizerProp
                      uid) (fun _ => ret tt)
         else bind (generateResponse C scheduler recipient) (fun _ => ret tt)).
  assert (Hdeliver : forall s0,
    st_responses s0 = st_responses s ->
    (exists entry,
        st_responses (snd (deliver s0)) = st_responses s ++ [entry]
        /\ re_recipient entry = cuaddr recipient)
    \/ (st_responses (snd (deliver s0)) = st_responses s
        /\ exists e, fst (deliver s0) = Raised e)).
  { intros s0 Hs0. subst deliver. rewrite <- Hs0.
    destruct freebusy; unfold bind.
    - destruct (generateFreeBusyResponse_entry_or_raise recipient organizerProp
                  uid s0) as [H | [H [e He]]];
        destruct (generateFreeBusyResponse C scheduler recipient organizerProp
                    uid s0) as [[b | e'] s1]; cbn in *;
        [left; exact H | left; exact H | discriminate
        | right; split; [exact H | eexists; reflexivity]].
    - destruct (generateResponse_entry_or_raise recipient s0)
        as [H | [H [e He]]];
        destruct (generateResponse C scheduler recipient s0)
          as [[b | e'] s1]; cbn in *;
        [left; exact H | left; exact H | discriminate
        | right; split; [exact H | eexists; reflexivity]]. }
  destruct (organizer scheduler) as [o | addr | addr] eqn:Horg.
  - destruct (checkPrivileges C (inbox recipient)
                (principalURL (principal o)) (st_world s))
      as [[[] | e] w] eqn:Hcheck.
    + assert (Hrun :
        recipientStep C scheduler freebusy recipient organizerProp uid s
        = deliver (afterCall s w (EvCheckPrivileges (inbox recipient)
                                    (principalURL (principal o))))).
      { unfold recipientStep. rewrite Horg. unfold bind at 1.
        erewrite try_returned by (apply call_run; exact Hcheck).
        reflexivity. }
      rewrite Hrun. apply Hdeliver. reflexivity.
    + assert (Hrun :
        recipientStep C scheduler freebusy recipient organizerProp uid s
        = match e with
          | AccessDeniedError =>
              (Returned tt,
               afterResponse
                 (afterCall s w (EvCheckPrivileges (inbox recipient)
                                   (principalURL (principal o))))
                 (failureEntry (cuaddr recipient) responsecode.NOT_FOUND
                               "3.8;No authority"))
          | _ => (Raised e,
                  afterCall s w (EvCheckPrivileges (inbox recipient)
                                   (principalURL (principal o))))
          end).
      { unfold recipientStep. rewrite Horg. unfold bind at 1.
        erewrite try_raised by (apply call_run; exact Hcheck).
        destruct e; reflexivity. }
      rewrite Hrun. destruct e; cbn.
      * left. eexists. split; reflexivity.
      * right. split; [reflexivity | eexists; reflexivity].
      * right. split; [reflexivity | eexists; reflexivity].
  - assert (Hrun :
      recipientStep C scheduler freebusy recipient organizerProp uid s
      = deliver s)
      by (unfold recipientStep; rewrite Horg; reflexivity).
    rewrite Hrun. apply Hdeliver. reflexivity.
  - assert (Hrun :
      recipientStep C scheduler freebusy recipient organizerProp uid s
      = deliver s)
      by (unfold recipientStep; rewrite Horg; reflexivity).
    rewrite Hrun. apply Hdeliver. reflexivity.
Qed.

Lemma recipientsLoop_entries freebusy organizerProp uid recipients :
  forall s,
  exists k new,
    k <= List.length recipients
    /\ st_responses
         (snd (recipientsLoop C scheduler freebusy recipients organizerProp uid s))
       = st_responses s ++ new
    /\ map re_recipient new = map cuaddr (firstn k recipients)
    /\ (fst (recipientsLoop C scheduler freebusy recipients organizerProp uid s)
        = Returned tt -> k = List.length recipients).
Proof.
  induction recipients as [| recipient rest IH]; intros s.
  - exists 0, []. cbn. rewrite app_nil_r. auto.
  - rewrite recipientsLoop_step. unfold bind.
    destruct (recipientStep_entry_or_raise freebusy recipient organizerProp
                uid s) as [(entry & Hresp & Haddr) | (Hresp & e & He)];
      destruct (recipientStep C scheduler freebusy recipient organizerProp uid s)
        as [[[] | e'] s1]; cbn [fst snd] in *.
    + destruct (IH s1) as (k & new & Hk & Hresp' & Hmap & Hall).
      exists (S k), (entry :: new). cbn [List.length firstn map].
      split; [lia |]. split; [| split].
      * rewrite Hresp', Hresp, <- app_assoc. reflexivity.
      * rewrite Haddr, Hmap. reflexivity.
      * intros Hret. rewrite (Hall Hret). reflexivity.
    + exists 1, [entry]. cbn [List.length firstn map].
      split; [lia |]. split; [exact Hresp |]. split.
      * rewrite Haddr. reflexivity.
      * discriminate.
    + discriminate.
    + exists 0, []. cbn. rewrite app_nil_r.
      split; [lia |]. split; [exact Hresp |]. split; [reflexivity |].
      discriminate.
Qed.

(** Whatever the collaborators do, a run only appends to the response
    queue, and the entries it appends are, in order, one entry for each of
    the first [k] recipients of the list, for some [k]; when the run
    returns, [k] is the number of recipients. No recipient ever gets two
    entries, and no entry is for an address outside the list. *)
Theorem entries_follow_recipients freebusy recipients s :
  exists k new,
    k <= List.length recipients
    /\ st_responses
         (snd (generateSchedulingResponses C scheduler freebusy recipients s))
       = st_responses s ++ new
    /\ map re_recipient new = map cuaddr (firstn k recipients)
    /\ (fst (generateSchedulingResponses C scheduler freebusy recipients s)
        = Returned tt -> k = List.length recipients).
Proof.
  destruct (recipientsLoop_entries freebusy
              (getOrganizerProperty C (calendar scheduler))
              (resourceUID C (calendar scheduler)) recipients
              (withAutoresponses s []))
    as (k & new & Hk & Hresp & Hmap & Hall).
  exists k, new. split; [exact Hk |].
  destruct (recipientsLoop C scheduler freebusy recipients
              (getOrganizerProperty C (calendar scheduler))
              (resourceUID C (calendar scheduler)) (withAutoresponses s []))
    as [[[] | e] s1] eqn:Hloop; cbn [fst snd] in *.
  - rewrite (generateSchedulingResponses_after_loop _ _ _ _ _ Hloop).
    rewrite autoResponseLoop_run. cbn. auto.
  - rewrite (generateSchedulingResponses_loop_raised _ _ _ _ _ Hloop). cbn.
    split; [exact Hresp |]. split; [exact Hmap | discriminate].
Qed.

(** *** Free-busy runs and auto-responses *)

Lemma generateFreeBusyResponse_autoresponses recipient organizerProp uid :
  preserves (@st_autoresponses W Calendar)
    (generateFreeBusyResponse C scheduler recipient organizerProp uid).
Proof. apply generateFreeBusyResponse_preserves; reflexivity. Qed.

Lemma recipientsLoop_freebusy_autoresponses recipients organizerProp uid :
  preserves (@st_autoresponses W Calendar)
    (recipientsLoop C scheduler true recipients organizerProp uid).
Proof.
  induction recipients as [| recipient rest IH]; cbn [recipientsLoop].
  - intros s. reflexivity.
  - apply preserves_bind.
    + destruct (organizer scheduler); try (intros s; reflexivity).
      apply preserves_try.
      * intros s. unfold call.
        destruct (checkPrivileges _ _ _ _) as [r w]. reflexivity.
      * intros e h He. destruct e; try discriminate. injection He as <-.
        intros s. reflexivity.
      * intros _ s. reflexivity.
    + intros proceed. apply preserves_bind; [| intros _; exact IH].
      destruct proceed; [| intros s; reflexivity].
      apply preserves_bind; [| intros _ s; reflexivity].
      apply generateFreeBusyResponse_autoresponses.
Qed.

(** A free-busy run, whatever its outcome, collects no auto-response
    candidate and queues no delayed call. *)
Theorem freebusy_run_queues_nothing recipients s :
  st_reactor (snd (generateSchedulingResponses C scheduler true recipients s))
  = st_reactor s
  /\ st_autoresponses
       (snd (generateSchedulingResponses C scheduler true recipients s))
     = [].
Proof.
  pose proof (recipientsLoop_freebusy_autoresponses recipients
                (getOrganizerProperty C (calendar scheduler))
                (resourceUID C (calendar scheduler))
                (withAutoresponses s [])) as Hauto.
  pose proof (recipientsLoop_reactor C scheduler true recipients
                (getOrganizerProperty C (calendar scheduler))
                (resourceUID C (calendar scheduler))
                (withAutoresponses s [])) as Hreactor.
  destruct (recipientsLoop C scheduler true recipients
              (getOrganizerProperty C (calendar scheduler))
              (resourceUID C (calendar scheduler)) (withAutoresponses s []))
    as [[[] | e] s1] eqn:Hloop; cbn [fst snd] in *.
  - rewrite (generateSchedulingResponses_after_loop _ _ _ _ _ Hloop).
    rewrite autoResponseLoop_run. rewrite Hauto. cbn.
    rewrite app_nil_r. auto.
  - rewrite (generateSchedulingResponses_loop_raised _ _ _ _ _ Hloop). cbn. auto.
Qed.

(** *** The access checks of a run *)

Lemma checksOf_afterCheck s (w : W) res purl :
  checksOf (afterCall s w (EvCheckPrivileges res purl))
  = checksOf s ++ [EvCheckPrivileges res purl].
Proof. unfold checksOf, afterCall. cbn. rewrite filter_app. reflexivity. Qed.

Lemma recipientStep_checks_local o freebusy recipient organizerProp uid s :
  organizer scheduler = LocalCalendarUser o ->
  checksOf (snd (recipientStep C scheduler freebusy recipient organizerProp uid s))
  = checksOf s ++ [EvCheckPrivileges (inbox recipient)
                                     (principalURL (principal o))].
Proof.
  intros Horg.
  set (deliver :=
         if freebusy
         then bind (generateFreeBusyResponse C scheduler recipient organizerProp
                      uid) (fun _ => ret tt)
         else bind (generateResponse C scheduler recipient) (fun _ => ret tt)).
  assert (Hdeliver : preserves checksOf deliver).
  { subst deliver. destruct freebusy.
    - apply preserves_bind; [| intros _ s0; reflexivity].
      apply generateFreeBusyResponse_checks.
    - apply preserves_bind; [| intros _ s0; reflexivity].
      apply generateResponse_checks. }
  destruct (checkPrivileges C (inbox recipient)
              (principalURL (principal o)) (st_world s))
    as [[[] | e] w] eqn:Hcheck.
  - assert (Hrun :
      recipientStep C scheduler freebusy recipient organizerProp uid s
      = deliver (afterCall s w (EvCheckPrivileges (inbox recipient)
                                  (principalURL (principal o))))).
    { unfold recipientStep. rewrite Horg. unfold bind at 1.
      erewrite try_returned by (apply call_run; exact Hcheck).
      reflexivity. }
    rewrite Hrun, Hdeliver. apply checksOf_afterCheck.
  - assert (Hrun :
      checksOf (snd (recipientStep C scheduler freebusy recipient organizerProp
                       uid s))
      = checksOf (afterCall s w (EvCheckPrivileges (inbox recipient)
                                   (principalURL (principal o))))).
    { unfold recipientStep. rewrite Horg. unfold bind at 1.
      erewrite try_raised by (apply call_run; exact Hcheck).
      destruct e; reflexivity. }
    rewrite Hrun. apply checksOf_afterCheck.
Qed.

Lemma recipientsLoop_checks_local o freebusy organizerProp uid recipients :
  organizer scheduler = LocalCalendarUser o ->
  forall s s',
    recipientsLoop C scheduler freebusy recipients organizerProp uid s
      = (Returned tt, s') ->
    checksOf s' = checksOf s ++ checksFor o recipients.
Proof.
  intros Horg.
  induction recipients as [| recipient rest IH]; intros s s' Hrun.
  - cbn in Hrun. injection Hrun as <-. cbn. rewrite app_nil_r. reflexivity.
  - rewrite recipientsLoop_step in Hrun. unfold bind in Hrun.
    pose proof (@recipientStep_checks_local o freebusy recipient organizerProp
                  uid s Horg) as Hstep.
    destruct (recipientStep C scheduler freebusy recipient organizerProp uid s)
      as [[[] | e] s1]; [| discriminate].
    cbn [snd] in Hstep. rewrite (IH s1 s' Hrun), Hstep, <- app_assoc.
    reflexivity.
Qed.

(** For a local organizer, a run that returns has checked the access to
    the inbox of every recipient exactly once, in the order of the list, as
    the organizer's principal: also for the recipients whose delivery
    failed. *)
Theorem access_checked_once_per_recipient o freebusy recipients s s' :
  organizer scheduler = LocalCalendarUser o ->
  generateSchedulingResponses C scheduler freebusy recipients s
    = (Returned tt, s') ->
  checksOf s' = checksOf s ++ checksFor o recipients.
Proof.
  intros Horg Hrun.
  destruct (recipientsLoop C scheduler freebusy recipients
              (getOrganizerProperty C (calendar scheduler))
              (resourceUID C (calendar scheduler)) (withAutoresponses s []))
    as [[[] | e] s1] eqn:Hloop.
  - rewrite (generateSchedulingResponses_after_loop _ _ _ _ _ Hloop) in Hrun.
    rewrite autoResponseLoop_run in Hrun. injection Hrun as <-.
    apply (@recipientsLoop_checks_local o freebusy _ _ recipients Horg
             (withAutoresponses s []) s1 Hloop).
  - rewrite (generateSchedulingResponses_loop_raised _ _ _ _ _ Hloop) in Hrun.
    discriminate.
Qed.

(** *** Who gets an auto-response *)





(** *** Availability *)

(** For a recipient whose inbox has a calendar-availability property and
    whose free-busy set has no usable source, the aggregation returns a
    reply, with method [REPLY], that carries exactly the three interval
    sequences computed from the availability. *)
Theorem availability_alone_fills_the_reply
    recipient organizerProp uid attendeeProp remote s
    fbset w1 w2 text w3 availability w4 fbinfo w5 :
  calendarFreeBusyURIs C (principal recipient) (st_world s)
    = (Returned fbset, w1) ->
  hasProperty C (inbox recipient) calendar_availability w1
    = (Returned true, w2) ->
  readProperty C (inbox recipient) calendar_availability w2
    = (Returned text, w3) ->
  availability_calendar C text w3 = (Returned availability, w4) ->
  processAvailabilityFreeBusy C availability ([], [], []) (timeRange scheduler)
    w4 = (Returned fbinfo, w5) ->
  (forall url w,
      In url fbset ->
      exists resolved w',
        locateResource C url w = (Returned resolved, w')
        /\ usable resolved = false) ->
  exists s',
    generateAttendeeFreeBusyResponse C scheduler recipient organizerProp uid
      attendeeProp remote s
    = (Returned (buildFreeBusyResult fbinfo (timeRange scheduler) organizerProp
                   attendeeProp uid "REPLY"), s').
Proof.
  intros Hset Hprop Hread Hcal Havail Hnone.
  unfold generateAttendeeFreeBusyResponse.
  erewrite bind_returned by (apply call_run; exact Hset).
  erewrite bind_returned by (apply call_run; exact Hprop).
  erewrite bind_returned.
  2:{ erewrite bind_returned by (apply call_run; exact Hread).
      erewrite bind_returned by (apply call_run; exact Hcal).
      apply call_run. exact Havail. }
  match goal with
  | |- context [bind (freeBusySetLoop C scheduler fbset ?fb ?m ?scu ?r)
                     _ ?st] =>
      destruct (freeBusySetLoop_nothing_usable C scheduler fbset Hnone
                  fb m scu r st) as (s2 & Hloop & _)
  end.
  erewrite bind_returned by exact Hloop.
  eexists. reflexivity.
Qed.

End EngineMore.

(** ** Configuration objects *)

Module config_facts.

Import stdpp.base stdpp.gmap stdpp.strings.
Import config.

Section Attributes.

Context {V : Type}.
Variable iteritems : V -> option (list (string * V)).

Implicit Types (self : gmap string V) (items : list (string * V)).

Lemma special_false (key : string) :
  special key = false ->
  key <> "__dict__" /\ key <> "__class__" /\ key <> "__weakref__".
Proof.
  unfold special. intros H.
  repeat split; intros ->; discriminate.
Qed.

Lemma setattr_plain self (key : string) (value : V) :
  special key = false ->
  setattr iteritems self key value = Ok (<[key := value]> self).
Proof.
  unfold special, setattr. intros H.
  destruct (String.eqb key "__dict__"); [discriminate |].
  destruct (String.eqb key "__class__"); [discriminate |].
  destruct (String.eqb key "__weakref__"); [discriminate | reflexivity].
Qed.

(** A [setattr] that succeeds for a name other than [__dict__] stores a
    plain attribute. *)
Lemma setattr_ok self (key : string) (value : V) self' :
  setattr iteritems self key value = Ok self' ->
  key <> "__dict__" ->
  special key = false /\ self' = <[key := value]> self.
Proof.
  unfold special, setattr. intros H Hdict.
  destruct (String.eqb_spec key "__dict__"); [contradiction |].
  destruct (String.eqb key "__class__"); [discriminate |].
  destruct (String.eqb key "__weakref__"); [discriminate |].
  injection H as <-. split; reflexivity.
Qed.

(** Without a [__dict__] item the loop never removes an attribute,
    however it ends. *)
Lemma setattrs_keeps self items (key : string) :
  ~ In "__dict__" (List.map fst items) ->
  is_Some (self !! key) ->
  is_Some ((setattrs iteritems self items).2 !! key).
Proof.
  revert self. induction items as [| [k v] items IH]; intros self Hdict Hkey.
  - exact Hkey.
  - cbn in *.
    destruct (setattr iteritems self k v) as [self' | e] eqn:Hset;
      [| exact Hkey].
    apply setattr_ok in Hset as [_ ->]; [| intros ->; apply Hdict; auto].
    apply IH; [tauto |].
    destruct (decide (k = key)) as [-> | Hne].
    + rewrite lookup_insert_eq. eauto.
    + rewrite lookup_insert_ne by exact Hne. exact Hkey.
Qed.

Lemma setattrs_other self items (key : string) :
  Forall (fun item => special item.1 = false) items ->
  ~ In key (List.map fst items) ->
  (setattrs iteritems self items).2 !! key = self !! key.
Proof.
  revert self. induction items as [| [k v] items IH]; intros self Hplain Hkey.
  - reflexivity.
  - apply Forall_cons in Hplain as [Hk Hplain]. cbn in *.
    rewrite setattr_plain by exact Hk.
    rewrite IH by tauto.
    apply lookup_insert_ne. tauto.
Qed.

Lemma setattrs_given self items (key : string) (value : V) :
  Forall (fun item => special item.1 = false) items ->
  List.NoDup (List.map fst items) ->
  In (key, value) items ->
  (setattrs iteritems self items).2 !! key = Some value.
Proof.
  revert self.
  induction items as [| [k v] items IH]; intros self Hplain Hnodup Hin.
  - destruct Hin.
  - apply Forall_cons in Hplain as [Hk Hplain].
    cbn in Hnodup. inversion Hnodup as [| ? ? Hfresh Hnodup']; subst.
    cbn. rewrite setattr_plain by exact Hk.
    destruct Hin as [[= -> ->] | Hin].
    + rewrite setattrs_other by assumption. apply lookup_insert_eq.
    + apply IH; assumption.
Qed.

Lemma setattrs_plain_ok self items :
  Forall (fun item => special item.1 = false) items ->
  (setattrs iteritems self items).1 = Ok tt.
Proof.
  revert self. induction items as [| [k v] items IH]; intros self Hplain.
  - reflexivity.
  - apply Forall_cons in Hplain as [Hk Hplain]. cbn.
    rewrite setattr_plain by exact Hk. apply IH. exact Hplain.
Qed.

(** A loop that ends normally, without a [__dict__] item, met plain names
    only. *)
Lemma setattrs_ok_plain self items :
  (setattrs iteritems self items).1 = Ok tt ->
  ~ In "__dict__" (List.map fst items) ->
  Forall (fun item => special item.1 = false) items.
Proof.
  revert self. induction items as [| [k v] items IH]; intros self Hok Hdict.
  - constructor.
  - cbn in *.
    destruct (setattr iteritems self k v) as [self' | e] eqn:Hset;
      [| discriminate].
    apply setattr_ok in Hset as [Hk ->]; [| intros ->; apply Hdict; auto].
    constructor; [exact Hk |]. apply (IH _ Hok). tauto.
Qed.

Lemma setattrs_defines self items (key : string) :
  (setattrs iteritems self items).1 = Ok tt ->
  ~ In "__dict__" (List.map fst items) ->
  In key (List.map fst items) ->
  is_Some ((setattrs iteritems self items).2 !! key).
Proof.
  revert self. induction items as [| [k v] items IH]; intros self Hok Hdict Hin.
  - destruct Hin.
  - cbn in *.
    destruct (setattr iteritems self k v) as [self' | e] eqn:Hset;
      [| discriminate].
    apply setattr_ok in Hset as [Hk ->]; [| intros ->; apply Hdict; auto].
    destruct (in_dec string_dec key (List.map fst items)) as [Hlater | Hnot].
    + apply IH; [exact Hok | tauto | exact Hlater].
    + destruct Hin as [-> | Hin]; [| contradiction].
      apply setattrs_keeps; [tauto |]. rewrite lookup_insert_eq. eauto.
Qed.

(** When the items are a dictionary whose names are all plain, [update]
    ends normally; an attribute named by the items then has the items'
    value, whatever it held before (a nested dictionary is replaced whole,
    not merged), and every other attribute is as it was. *)
Theorem update_overrides_given_keys self (dictionary : V) items :
  iteritems dictionary = Some items ->
  List.NoDup (List.map fst items) ->
  Forall (fun item => special item.1 = false) items ->
  (update iteritems self dictionary).1 = Ok tt
  /\ (forall key value,
        In (key, value) items ->
        (update iteritems self dictionary).2 !! key = Some value)
  /\ (forall key : string,
        ~ In key (List.map fst items) ->
        (update iteritems self dictionary).2 !! key = self !! key).
Proof.
  intros Hitems Hnodup Hplain. unfold update. rewrite Hitems.
  split; [| split].
  - apply setattrs_plain_ok. exact Hplain.
  - intros key value Hin. apply setattrs_given; assumption.
  - intros key Hkey. apply setattrs_other; assumption.
Qed.

(** The names the object does not take as plain attributes.  An item
    [__class__] or [__weakref__], or an item [__dict__] that is no
    dictionary, ends [update] with an error: the items before it have been
    set, the items after it have not.  An item [__dict__] that is a
    dictionary replaces every attribute of the object: what the object
    held, and what the items before it set, is gone, and the object holds
    the entries of that dictionary and the items that follow. *)
Theorem update_special_names self (dictionary : V) before after
    (key : string) (value : V) :
  iteritems dictionary = Some (before ++ (key, value) :: after) ->
  Forall (fun item => special item.1 = false) before ->
  (key = "__class__" \/ key = "__weakref__"
   \/ key = "__dict__" /\ iteritems value = None ->
   exists e,
     update iteritems self dictionary
     = (Failed e, (setattrs iteritems self before).2))
  /\ (forall attributes,
        key = "__dict__" ->
        iteritems value = Some attributes ->
        update iteritems self dictionary
        = setattrs iteritems (list_to_map attributes) after).
Proof.
  intros Hitems Hplain. unfold update. rewrite Hitems. clear Hitems.
  revert self. induction before as [| [k v] before IH]; intros self.
  - cbn. split.
    + intros [-> | [-> | [-> Hvalue]]]; cbn; [eauto | eauto |].
      unfold setattr. cbn. rewrite Hvalue. eauto.
    + intros attributes -> Hvalue. unfold setattr. cbn. rewrite Hvalue.
      reflexivity.
  - apply Forall_cons in Hplain as [Hk Hplain]. cbn.
    rewrite setattr_plain by exact Hk. apply IH. exact Hplain.
Qed.

Variable path_exists : string -> bool.
Variable readPlist : string -> result V.

Lemma Config_ok (defaults : V) (config : gmap string V) :
  Config iteritems defaults = Ok config ->
  exists items,
    iteritems defaults = Some items
    /\ setattrs iteritems ∅ items = (Ok tt, config).
Proof.
  unfold Config, call_update, update. rewrite lookup_empty.
  destruct (iteritems defaults) as [items |]; [| discriminate].
  destruct (setattrs iteritems ∅ items) as [[[] | e] self] eqn:Hrun;
    [| discriminate].
  intros [= <-]. eauto.
Qed.

(** [parseConfig] on a configuration built from the defaults never loses an
    option, however it ends, as long as neither the defaults nor the file
    name an option [__dict__]: every option of the defaults is still
    defined afterwards.  When the file does not exist nothing changes;
    when the file is read and the call ends normally, each option the
    file gives has the file's value. *)
Theorem parseConfig_keeps_every_default
    (defaults : V) (options : list (string * V))
    (config : gmap string V) (configFile : string) :
  iteritems defaults = Some options ->
  ~ In "__dict__" (List.map fst options) ->
  Config iteritems defaults = Ok config ->
  (forall plist items,
     readPlist configFile = Ok plist ->
     iteritems plist = Some items ->
     ~ In "__dict__" (List.map fst items)) ->
  (forall key : string,
     In key (List.map fst options) ->
     is_Some ((parseConfig iteritems path_exists readPlist config
                 configFile).2 !! key))
  /\ (path_exists configFile = false ->
      parseConfig iteritems path_exists readPlist config configFile
      = (Ok tt, config))
  /\ (forall plist items,
        path_exists configFile = true ->
        readPlist configFile = Ok plist ->
        iteritems plist = Some items ->
        List.NoDup (List.map fst items) ->
        (parseConfig iteritems path_exists readPlist config configFile).1
          = Ok tt ->
        forall key value,
          In (key, value) items ->
          (parseConfig iteritems path_exists readPlist config
             configFile).2 !! key = Some value).
Proof.
  intros Hoptions Hdict Hconfig Hfile.
  destruct (Config_ok _ Hconfig) as (options' & Hoptions' & Hbuilt).
  rewrite Hoptions in Hoptions'. injection Hoptions' as <-.
  assert (Hdefined :
    forall key : string,
      In key (List.map fst options) -> is_Some (config !! key)).
  { intros key Hkey.
    pose proof (@setattrs_defines ∅ options key) as H.
    rewrite Hbuilt in H. apply H; [reflexivity | exact Hdict | exact Hkey]. }
  unfold parseConfig, call_update, update.
  split; [| split].
  - intros key Hkey. specialize (Hdefined key Hkey).
    destruct (path_exists configFile); [| exact Hdefined].
    destruct (readPlist configFile) as [plist | e]; [| exact Hdefined].
    destruct (config !! "update"); [exact Hdefined |].
    destruct (iteritems plist) as [items |] eqn:Hitems; [| exact Hdefined].
    apply setattrs_keeps; [| exact Hdefined].
    exact (Hfile plist items eq_refl Hitems).
  - intros ->. reflexivity.
  - intros plist items -> Hread Hitems Hnodup. rewrite Hread.
    destruct (config !! "update"); [discriminate |].
    rewrite Hitems. intros Hok key value Hin.
    apply setattrs_given; [| exact Hnodup | exact Hin].
    apply (setattrs_ok_plain _ _ Hok).
    exact (Hfile plist items Hread Hitems).
Qed.

(** An option named [update] among the defaults takes the place of the
    method on the configuration object: [parseConfig] on a file that
    exists and can be read then fails with a [TypeError] and changes
    nothing. *)
Theorem update_option_shadows_the_method
    (defaults : V) (options : list (string * V))
    (config : gmap string V) (configFile : string) (plist : V) :
  iteritems defaults = Some options ->
  ~ In "__dict__" (List.map fst options) ->
  In "update" (List.map fst options) ->
  Config iteritems defaults = Ok config ->
  path_exists configFile = true ->
  readPlist configFile = Ok plist ->
  parseConfig iteritems path_exists readPlist config configFile
  = (Failed TypeError, config).
Proof.
  intros Hoptions Hdict Hupdate Hconfig Hexists Hread.
  destruct (Config_ok _ Hconfig) as (options' & Hoptions' & Hbuilt).
  rewrite Hoptions in Hoptions'. injection Hoptions' as <-.
  pose proof (@setattrs_defines ∅ options "update") as H.
  rewrite Hbuilt in H.
  destruct (H eq_refl Hdict Hupdate) as [value Hvalue].
  unfold parseConfig, call_update. rewrite Hexists, Hread.
  cbn in Hvalue. rewrite Hvalue. reflexivity.
Qed.

End Attributes.

End config_facts.

(** ** Standard configuration *)

Module stdconfig_facts.

Import stdpp.base stdpp.gmap stdpp.strings.
Import config stdconfig.

(** The loop that deletes the keys a table does not know. *)
Lemma fold_delete_unknown {A B : Type} (known : gmap string B)
      (init m : gmap string A) (key : string) :
  map_fold
    (fun k (_ : A) acc =>
       if decide (is_Some (known !! k)) then acc else delete k acc)
    init m !! key
  = if decide (is_Some (known !! key)) then init !! key
    else match m !! key with Some _ => None | None => init !! key end.
Proof.
  apply (map_fold_weak_ind
           (fun (r m : gmap string A) =>
              r !! key =
              if decide (is_Some (known !! key)) then init !! key
              else match m !! key with Some _ => None | None => init !! key end)).
  - rewrite lookup_empty. destruct (decide _); reflexivity.
  - intros k value m' r Hfresh IH.
    destruct (decide (k = key)) as [-> | Hne].
    + rewrite lookup_insert_eq.
      destruct (decide (is_Some (known !! key))) as [Hknown | Hunknown].
      * exact IH.
      * apply lookup_delete_eq.
    + rewrite lookup_insert_ne by exact Hne.
      destruct (decide (is_Some (known !! k)));
        [| rewrite lookup_delete_ne by exact Hne]; exact IH.
Qed.

(** *** Unknown options *)

Section Cleanup.

Context {V : Type}.
Variable environ : gmap string string.
Implicit Types (configDict defaultDict : gmap string V).

Lemma cleanup_loose configDict defaultDict :
  loose environ = true -> _cleanup environ configDict defaultDict = configDict.
Proof.
  intros Hloose. unfold _cleanup, unknown. rewrite Hloose.
  apply (map_fold_weak_ind (fun r _ => r = configDict)); [reflexivity |].
  intros key value m r _ ->. destruct (decide _); reflexivity.
Qed.

Lemma cleanup_strict configDict defaultDict (key : string) :
  loose environ = false ->
  _cleanup environ configDict defaultDict !! key =
    if decide (is_Some (defaultDict !! key)) then configDict !! key else None.
Proof.
  intros Hloose. unfold _cleanup, unknown. rewrite Hloose.
  rewrite fold_delete_unknown.
  destruct (decide _); [reflexivity |].
  destruct (configDict !! key); reflexivity.
Qed.

(** [_cleanup] keeps, with its value, every option of the configuration
    that the defaults know and drops every other top-level option; with
    [ICAL_SERVER_CONFIG_VALIDATION] set to [loose] in the environment it
    drops nothing. *)
Theorem cleanup_keeps_exactly_the_known_options configDict defaultDict :
  (loose environ = true -> _cleanup environ configDict defaultDict = configDict)
  /\ (loose environ = false ->
      forall key : string,
        _cleanup environ configDict defaultDict !! key =
          if decide (is_Some (defaultDict !! key)) then configDict !! key
          else None).
Proof.
  split.
  - apply cleanup_loose.
  - intros Hloose key. apply cleanup_strict. exact Hloose.
Qed.

(** Cleaning up a cleaned-up configuration changes nothing. *)
Theorem cleanup_idempotent configDict defaultDict :
  _cleanup environ (_cleanup environ configDict defaultDict) defaultDict
  = _cleanup environ configDict defaultDict.
Proof.
  destruct (loose environ) eqn:Hloose.
  - rewrite !cleanup_loose by exact Hloose. reflexivity.
  - apply map_eq. intros key. rewrite !cleanup_strict by exact Hloose.
    destruct (decide _); reflexivity.
Qed.

Variable readPlist : string -> result (gmap string V).

(** [loadConfig] answers the empty configuration, and no error, when no
    file name is set or when reading the file raises [IOError] or
    [OSError]; and unless validation is loose, every option of a
    configuration it loads is an option of the defaults. *)
Theorem loadConfig_known_options_or_empty
    (_configFileName : string) (_defaults : gmap string V) :
  (PyStr.truthy _configFileName = false ->
   loadConfig environ readPlist _configFileName _defaults = Ok ∅)
  /\ (readPlist _configFileName = Failed IOError
      \/ readPlist _configFileName = Failed OSError ->
      loadConfig environ readPlist _configFileName _defaults = Ok ∅)
  /\ (loose environ = false ->
      forall cfg,
        loadConfig environ readPlist _configFileName _defaults = Ok cfg ->
        forall key : string,
          is_Some (cfg !! key) -> is_Some (_defaults !! key)).
Proof.
  unfold loadConfig. split; [| split].
  - intros ->. reflexivity.
  - intros [-> | ->]; destruct (PyStr.truthy _configFileName); reflexivity.
  - intros Hloose cfg Hload key Hkey.
    destruct (PyStr.truthy _configFileName).
    + destruct (readPlist _configFileName) as [configDict | e].
      * injection Hload as <-.
        rewrite cleanup_strict in Hkey by exact Hloose.
        destruct (decide (is_Some (_defaults !! key))) as [Hknown |];
          [exact Hknown | destruct Hkey; discriminate].
      * destruct e; try discriminate; injection Hload as <-;
          rewrite lookup_empty in Hkey; destruct Hkey; discriminate.
    + injection Hload as <-. rewrite lookup_empty in Hkey.
      destruct Hkey; discriminate.
Qed.

End Cleanup.

(** *** Parameters of the services *)

Lemma dropUnsupported_lookup (supported params : gmap string PValue)
      (param : string) :
  dropUnsupported supported params !! param =
    if decide (is_Some (supported !! param)) then params !! param else None.
Proof.
  unfold dropUnsupported. rewrite fold_delete_unknown.
  destruct (decide _); [reflexivity |].
  destruct (params !! param); reflexivity.
Qed.

(** The post-update hooks of the directory, augment and proxy-database
    services leave the service type alone. For a type of the hook's table
    of defaults they keep, with its value, each parameter the table lists
    for that type and drop every other; for any other type they change
    nothing. Running a hook twice is running it once. *)
Theorem postUpdate_keeps_exactly_the_supported_params
    (table : gmap string (gmap string PValue)) (service : ServiceConfig) :
  type (postUpdateService table service) = type service
  /\ (forall supported,
         table !! type service = Some supported ->
         forall param : string,
           params (postUpdateService table service) !! param =
             if decide (is_Some (supported !! param))
             then params service !! param else None)
  /\ (table !! type service = None -> postUpdateService table service = service)
  /\ postUpdateService table (postUpdateService table service)
     = postUpdateService table service.
Proof.
  unfold postUpdateService.
  destruct (table !! type service) as [supported |] eqn:Htype; cbn.
  - split; [reflexivity |]. split; [| split; [discriminate |]].
    + intros supported' [= <-] param. apply dropUnsupported_lookup.
    + rewrite Htype. f_equal. apply map_eq. intros param.
      rewrite !dropUnsupported_lookup. destruct (decide _); reflexivity.
  - rewrite Htype. split; [reflexivity |].
    split; [discriminate |]. split; reflexivity.
Qed.

(** *** Notifications *)

Lemma getitem_setitem_ne (d : Dict) (key key' : string) (value : PValue) :
  key <> key' -> getitem (setitem d key value) key' = getitem d key'.
Proof.
  intros Hne. induction d as [| [k v] d IH]; cbn.
  - destruct (String.eqb_spec key key'); [contradiction | reflexivity].
  - destruct (String.eqb_spec k key) as [-> | Hk]; cbn.
    + destruct (String.eqb_spec key key'); [contradiction | reflexivity].
    + rewrite IH. reflexivity.
Qed.

Lemma getitem_setitem_eq (d : Dict) (key : string) (value : PValue) :
  getitem (setitem d key value) key = Ok value.
Proof.
  induction d as [| [k v] d IH]; cbn.
  - rewrite String.eqb_refl. reflexivity.
  - destruct (String.eqb_spec k key) as [-> | Hk]; cbn.
    + rewrite String.eqb_refl. reflexivity.
    + destruct (String.eqb_spec k key); [contradiction | exact IH].
Qed.

Section Keychain.

Variable getPasswordFromKeychain : PValue -> result string.
Variable repr : PValue -> string.

Lemma checkEmptyFields_ok (items : Dict) :
  checkEmptyFields repr items = Ok tt ->
  forall key value,
    In (key, value) items -> mayBeEmpty key = false -> truthy value = true.
Proof.
  induction items as [| [k v] items IH]; cbn; intros Hok key value Hin Hkey.
  - contradiction.
  - destruct (negb (truthy v) && negb (mayBeEmpty k)) eqn:Hbad;
      [discriminate |].
    destruct Hin as [[= -> ->] | Hin].
    + rewrite Hkey in Hbad. cbn in Hbad.
      destruct (truthy value); [reflexivity | discriminate].
    + exact (IH Hok key value Hin Hkey).
Qed.

(** What the second loop does to one service. *)
Lemma updateService_spec (service : Dict) :
  let (r, service') := updateService getPasswordFromKeychain repr service in
  (forall key : string,
      key <> "Password" -> getitem service' key = getitem service key)
  /\ (service' = service
      \/ exists jid password,
           getitem service "JID" = Ok jid
           /\ getPasswordFromKeychain jid = Ok password
           /\ getitem service' "Password" = Ok (PStr password))
  /\ (r = Ok tt ->
      isXMPP service' = true -> serviceEnabled service' = true ->
      checkEmptyFields repr service' = Ok tt).
Proof.
  unfold updateService, isXMPP, serviceEnabled.
  destruct (getitem service "Service") as [kind | e] eqn:Hkind.
  2:{ split; [auto | split; [auto | discriminate]]. }
  destruct (equals_string kind XMPPNotifierService) eqn:Hxmpp.
  2:{ split; [auto | split; [auto |]]. rewrite Hkind, Hxmpp. discriminate. }
  destruct (getitem service "Enabled") as [enabled | e] eqn:Henabled.
  2:{ split; [auto | split; [auto | discriminate]]. }
  destruct (truthy enabled) eqn:Htruthy.
  2:{ split; [auto | split; [auto |]]. rewrite Henabled, Htruthy.
      discriminate. }
  destruct (getitem service "JID") as [jid | e] eqn:Hjid.
  2:{ split; [auto | split; [auto | discriminate]]. }
  destruct (getPasswordFromKeychain jid) as [password | e] eqn:Hkeychain.
  - split; [| split].
    + intros key Hkey. apply getitem_setitem_ne. congruence.
    + right. exists jid, password. rewrite getitem_setitem_eq. auto.
    + auto.
  - destruct e; (split; [auto | split; [auto |]]); auto; discriminate.
Qed.

(** The services before and after the second loop, pairwise. *)
Lemma updateServices_spec (services : list (string * Dict)) :
  let (r, services') :=
    updateServices getPasswordFromKeychain repr services in
  Forall2
    (fun old new : string * Dict =>
       new.1 = old.1
       /\ (forall key : string,
              key <> "Password" -> getitem new.2 key = getitem old.2 key)
       /\ (new.2 = old.2
           \/ exists jid password,
                getitem old.2 "JID" = Ok jid
                /\ getPasswordFromKeychain jid = Ok password
                /\ getitem new.2 "Password" = Ok (PStr password)))
    services services'
  /\ (r = Ok tt ->
      Forall
        (fun new : string * Dict =>
           isXMPP new.2 = true -> serviceEnabled new.2 = true ->
           checkEmptyFields repr new.2 = Ok tt)
        services').
Proof.
  induction services as [| [name service] services IH]; cbn.
  - split; [constructor | intros _; constructor].
  - pose proof (updateService_spec service) as Hone.
    destruct (updateService getPasswordFromKeychain repr service)
      as [[[] | e] service'].
    + destruct (updateServices getPasswordFromKeychain repr services)
        as [r services'].
      destruct Hone as (Hkeep & Hpw & Hcheck), IH as (Hall & Hchecks).
      split.
      * constructor; [cbn; auto | exact Hall].
      * intros Hr. constructor; [cbn; auto | auto].
    + destruct Hone as (Hkeep & Hpw & _). split; [| discriminate].
      constructor; [cbn; auto |].
      clear. induction services as [| item services IH]; constructor; auto.
Qed.

(** When the configuration is not being reloaded and
    [_updateNotifications] returns, every enabled XMPP notifier service of
    the configuration has a non-empty value for each of its items, but for
    [AllowedJIDs], [HeartbeatMinutes] and [Password].  (While the
    configuration is being reloaded the hook checks nothing.) *)
Theorem accepted_xmpp_services_have_no_empty_field
    (n n' : Notifications) (name : string) (service : Dict) :
  _updateNotifications getPasswordFromKeychain repr false n = (Ok tt, n') ->
  In (name, service) (Services n') ->
  isXMPP service = true ->
  serviceEnabled service = true ->
  forall key value,
    In (key, value) service -> mayBeEmpty key = false -> truthy value = true.
Proof.
  unfold _updateNotifications.
  destruct (anyServiceEnabled (Services n)) as [enabled | e]; [| discriminate].
  pose proof (updateServices_spec (Services n)) as Hspec.
  destruct (updateServices getPasswordFromKeychain repr (Services n))
    as [r services'].
  intros [= -> <-] Hin Hxmpp Henabled. cbn in Hin.
  destruct Hspec as (_ & Hchecks).
  specialize (Hchecks eq_refl). rewrite Forall_forall in Hchecks.
  apply checkEmptyFields_ok.
  apply (Hchecks (name, service)); [| exact Hxmpp | exact Henabled].
  apply list_elem_of_In. exact Hin.
Qed.

Lemma anyServiceEnabled_existsb (services : list (string * Dict)) :
  Forall (fun item : string * Dict =>
            exists enabled, getitem item.2 "Enabled" = Ok enabled) services ->
  anyServiceEnabled services
  = Ok (existsb (fun item : string * Dict => serviceEnabled item.2) services).
Proof.
  induction 1 as [| [name service] services [enabled Henabled] _ IH]; cbn.
  - reflexivity.
  - cbn in Henabled. unfold serviceEnabled. rewrite Henabled.
    destruct (truthy enabled); [reflexivity | exact IH].
Qed.

(** When every service has an [Enabled] item and the configuration is not
    being reloaded, [_updateNotifications] leaves [Notifications.Enabled]
    true if some service is enabled and false otherwise, also when it then
    fails on a service. *)
Theorem notifications_enabled_iff_some_service_is (n : Notifications) :
  Forall (fun item : string * Dict =>
            exists enabled, getitem item.2 "Enabled" = Ok enabled)
         (Services n) ->
  Enabled (_updateNotifications getPasswordFromKeychain repr false n).2
  = PBool (existsb (fun item : string * Dict => serviceEnabled item.2)
                   (Services n)).
Proof.
  intros Hall. unfold _updateNotifications.
  rewrite (anyServiceEnabled_existsb Hall).
  destruct (updateServices getPasswordFromKeychain repr (Services n)).
  reflexivity.
Qed.

(** Whatever its outcome, [_updateNotifications] keeps the services and
    their order, and in each service every item but [Password]; a
    [Password] it changes is the password the keychain holds for the
    service's [JID]. While the configuration is being reloaded it changes
    nothing at all. *)
Theorem notifications_only_passwords_change
    (reloading : bool) (n : Notifications) :
  let run := _updateNotifications getPasswordFromKeychain repr reloading n in
  Forall2
    (fun old new : string * Dict =>
       new.1 = old.1
       /\ (forall key : string,
              key <> "Password" -> getitem new.2 key = getitem old.2 key)
       /\ (new.2 = old.2
           \/ exists jid password,
                getitem old.2 "JID" = Ok jid
                /\ getPasswordFromKeychain jid = Ok password
                /\ getitem new.2 "Password" = Ok (PStr password)))
    (Services n) (Services run.2)
  /\ (reloading = true -> run = (Ok tt, n)).
Proof.
  assert (Hsame : forall services : list (string * Dict),
    Forall2
      (fun old new : string * Dict =>
         new.1 = old.1
         /\ (forall key : string,
                key <> "Password" -> getitem new.2 key = getitem old.2 key)
         /\ (new.2 = old.2
             \/ exists jid password,
                  getitem old.2 "JID" = Ok jid
                  /\ getPasswordFromKeychain jid = Ok password
                  /\ getitem new.2 "Password" = Ok (PStr password)))
      services services).
  { induction services as [| item services IH]; constructor; auto. }
  unfold _updateNotifications. destruct reloading; cbn zeta.
  - split; [apply Hsame | reflexivity].
  - split; [| discriminate].
    destruct (anyServiceEnabled (Services n)) as [enabled | e];
      [| apply Hsame].
    pose proof (updateServices_spec (Services n)) as Hspec.
    destruct (updateServices getPasswordFromKeychain repr (Services n))
      as [r services'].
    exact (proj1 Hspec).
Qed.

End Keychain.

Section SchedulingPasswords.

Variable getPasswordFromKeychain : PValue -> result string.
Variable str : PValue -> string.
Variable getattr : PValue -> string -> result PValue.

Lemma sameButPassword_refl (r : result PValue) : sameButPassword r r.
Proof. left. reflexivity. Qed.

Lemma sameButPassword_trans (a b c : result PValue) :
  sameButPassword a b -> sameButPassword b c -> sameButPassword a c.
Proof.
  intros [-> | (d & d' & -> & -> & H1)] [-> | (e & e' & He & -> & H2)].
  - left. reflexivity.
  - right. exists e, e'. auto.
  - right. exists d, d'. auto.
  - injection He as <-. right. exists d, e'.
    repeat split. intros key Hkey. rewrite (H2 key Hkey). exact (H1 key Hkey).
Qed.

Lemma passwordsApart_refl (service : Dict) : passwordsApart service service.
Proof.
  split; [reflexivity | intros; apply sameButPassword_refl].
Qed.

Lemma passwordsApart_trans (a b c : Dict) :
  passwordsApart a b -> passwordsApart b c -> passwordsApart a c.
Proof.
  intros [H1 D1] [H2 D2]. split.
  - intros key Hp Hs Hr. rewrite (H2 key Hp Hs Hr). exact (H1 key Hp Hs Hr).
  - intros direction Hd.
    exact (sameButPassword_trans (D1 direction Hd) (D2 direction Hd)).
Qed.

(** Setting the password of the service itself. *)
Lemma passwordsApart_own_password (service : Dict) (password : PValue) :
  passwordsApart service (setitem service "Password" password).
Proof.
  split.
  - intros key Hp _ _. apply getitem_setitem_ne. congruence.
  - intros direction Hd. left. apply getitem_setitem_ne.
    destruct Hd as [-> | ->]; discriminate.
Qed.

(** Setting the password of the account of one direction. *)
Lemma passwordsApart_direction
  (service d : Dict) (direction : string) (password : PValue) :
  direction = "Sending" \/ direction = "Receiving" ->
  getitem service direction = Ok (PDict d) ->
  passwordsApart service
    (setitem service direction (PDict (setitem d "Password" password))).
Proof.
  intros Hd Hget. split.
  - intros key _ Hs Hr. apply getitem_setitem_ne.
    destruct Hd as [-> | ->]; congruence.
  - intros direction' Hd'.
    destruct (String.eqb_spec direction direction') as [<- | Hne].
    + right. exists d, (setitem d "Password" password).
      repeat split.
      * exact Hget.
      * apply getitem_setitem_eq.
      * intros key Hkey. apply getitem_setitem_ne. congruence.
    + left. apply getitem_setitem_ne. exact Hne.
Qed.

Lemma updateDirection_passwordsApart (service : Dict) (direction : string) :
  direction = "Sending" \/ direction = "Receiving" ->
  passwordsApart service
    (snd (updateDirection getPasswordFromKeychain str getattr
            service direction)).
Proof.
  intros Hd. unfold updateDirection.
  destruct (getitem service direction) as [account | e] eqn:Hget; cbn;
    [| apply passwordsApart_refl].
  destruct (getattr account "Username") as [username | e]; cbn;
    [| apply passwordsApart_refl].
  destruct (truthy username); cbn; [| apply passwordsApart_refl].
  destruct (getattr account "Server") as [server | e]; cbn;
    [| apply passwordsApart_refl].
  destruct (getPasswordFromKeychain _) as [password | e]; cbn.
  - destruct account; cbn; try apply passwordsApart_refl.
    apply passwordsApart_direction; assumption.
  - destruct e; cbn; apply passwordsApart_refl.
Qed.

(** Whatever the keychain answers and however the hook ends, the iMIP
    service differs from the one it was given at most by passwords: its
    own [Password] item, and the [Password] item of the accounts under
    [Sending] and [Receiving]; every other item, and every other item of
    these two accounts, is as it was. *)
Theorem scheduling_only_passwords_change
  (_reloading : bool) (service : Dict) :
  passwordsApart service
    (snd (_updateScheduling getPasswordFromKeychain str getattr
            _reloading service)).
Proof.
  unfold _updateScheduling.
  destruct _reloading; cbn; [apply passwordsApart_refl |].
  destruct (getitem service "Enabled") as [enabled | e]; cbn;
    [| apply passwordsApart_refl].
  destruct (truthy enabled); cbn; [| apply passwordsApart_refl].
  destruct (getitem service "Username") as [username | e]; cbn;
    [| apply passwordsApart_refl].
  assert (Hown :
    forall service1,
      (if truthy username
       then
         match getPasswordFromKeychain username with
         | Ok password => Ok (setitem service "Password" (PStr password))
         | Failed KeychainAccessError
         | Failed KeychainPasswordNotFound => Ok service
         | Failed e => Failed e
         end
       else Ok service) = Ok service1 ->
      passwordsApart service service1).
  { intros service1. destruct (truthy username).
    - destruct (getPasswordFromKeychain username) as [password | e].
      + intros [= <-]. apply passwordsApart_own_password.
      + destruct e; intros [= <-] || discriminate; apply passwordsApart_refl.
    - intros [= <-]. apply passwordsApart_refl. }
  destruct (if truthy username then _ else _) as [service1 | e]; cbn;
    [| apply passwordsApart_refl].
  specialize (Hown service1 eq_refl).
  pose proof (@updateDirection_passwordsApart service1 "Sending"
                (or_introl eq_refl)) as Hs.
  destruct (updateDirection _ _ _ service1 "Sending") as [[[] | e] service2];
    cbn in *.
  - pose proof (@updateDirection_passwordsApart service2 "Receiving"
                  (or_intror eq_refl)) as Hr.
    exact (passwordsApart_trans Hown (passwordsApart_trans Hs Hr)).
  - exact (passwordsApart_trans Hown Hs).
Qed.

(** The fall-back to the property list.  When the keychain has a
    password for no account (each request ends in one of its two errors),
    the hook ends normally or with an error of the configuration itself,
    and the service is left exactly as the property list gave it. *)
Theorem scheduling_falls_back_to_the_plist
  (_reloading : bool) (service : Dict) :
  (forall account,
     getPasswordFromKeychain account = Failed KeychainAccessError
     \/ getPasswordFromKeychain account = Failed KeychainPasswordNotFound) ->
  snd (_updateScheduling getPasswordFromKeychain str getattr
         _reloading service) = service.
Proof.
  intros Hkeychain.
  assert (Hdir : forall s direction,
            snd (updateDirection getPasswordFromKeychain str getattr
                   s direction) = s).
  { intros s direction. unfold updateDirection.
    destruct (getitem s direction) as [account | e]; cbn; [| reflexivity].
    destruct (getattr account "Username") as [username | e]; cbn;
      [| reflexivity].
    destruct (truthy username); cbn; [| reflexivity].
    destruct (getattr account "Server") as [server | e]; cbn; [| reflexivity].
    destruct (Hkeychain (PStr (str username ++ "@" ++ str server)))
      as [-> | ->]; reflexivity. }
  unfold _updateScheduling.
  destruct _reloading; cbn; [reflexivity |].
  destruct (getitem service "Enabled") as [enabled | e]; cbn; [| reflexivity].
  destruct (truthy enabled); cbn; [| reflexivity].
  destruct (getitem service "Username") as [username | e]; cbn;
    [| reflexivity].
  assert (Hown :
    (if truthy username
     then
       match getPasswordFromKeychain username with
       | Ok password => Ok (setitem service "Password" (PStr password))
       | Failed KeychainAccessError
       | Failed KeychainPasswordNotFound => Ok service
       | Failed e => Failed e
       end
     else Ok service) = Ok service).
  { destruct (truthy username); [| reflexivity].
    destruct (Hkeychain username) as [-> | ->]; reflexivity. }
  rewrite Hown.
  pose proof (Hdir service "Sending") as Hs.
  destruct (updateDirection _ _ _ service "Sending") as [[[] | e] service2];
    cbn in *; subst service2; [apply Hdir | reflexivity].
Qed.

End SchedulingPasswords.

Section RejectClients.

Context {Pattern : Type}.
Variable re_compile : string -> result Pattern.

Lemma compileAll_ok (expressions : list string) (patterns : list Pattern) :
  compileAll re_compile expressions = Ok patterns <->
  Forall2 (fun x pattern => re_compile x = Ok pattern)
          (List.filter PyStr.truthy expressions) patterns.
Proof.
  revert patterns.
  induction expressions as [| x expressions IH]; intros patterns; cbn.
  - split.
    + intros [= <-]. constructor.
    + intros H. inversion H. reflexivity.
  - destruct (PyStr.truthy x); [| apply IH].
    split.
    + destruct (re_compile x) as [pattern | e] eqn:Hx; [| discriminate].
      destruct (compileAll re_compile expressions) as [ps | e] eqn:Hrest;
        [| discriminate].
      intros [= <-]. constructor; [exact Hx |]. apply IH. reflexivity.
    + intros H. inversion H as [| ? pattern ? ps Hx Hrest]; subst.
      rewrite Hx. apply IH in Hrest. rewrite Hrest. reflexivity.
Qed.

(** [_updateRejectClients] ends normally exactly when every non-empty
    expression compiles, and the list it then stores holds the compiled
    form of each non-empty expression, in the order of the configuration;
    empty expressions are dropped without being compiled. *)
Theorem rejectClients_compiles_the_nonempty_expressions
  (RejectClients : list string) (patterns : list Pattern) :
  _updateRejectClients re_compile RejectClients = Ok patterns <->
  Forall2 (fun x pattern => re_compile x = Ok pattern)
          (List.filter PyStr.truthy RejectClients) patterns.
Proof.
  rewrite <- compileAll_ok. unfold _updateRejectClients.
  destruct (compileAll re_compile RejectClients) as [ps | e].
  - reflexivity.
  - destruct e; split; discriminate.
Qed.

(** An error of the regular-expression compiler never leaves the hook
    as such: it is turned into a configuration error, and this is the only
    way the hook itself reports one of those when the compiler does not. *)
Theorem rejectClients_turns_compile_errors_into_configuration_errors
  (RejectClients : list string) (e : error) :
  _updateRejectClients re_compile RejectClients = Failed e ->
  (forall msg, e <> ReError msg)
  /\ exists x e',
       In x RejectClients /\ x <> ""%string /\ re_compile x = Failed e'
       /\ (e = e'
           \/ exists msg,
                e' = ReError msg
                /\ e = ConfigurationError
                         ("Invalid regular expression in RejectClients: "
                            ++ msg)).
Proof.
  intros H.
  assert (Hfail : forall l e',
            compileAll re_compile l = Failed e' ->
            exists x, In x l /\ x <> ""%string /\ re_compile x = Failed e').
  { induction l as [| x l IH]; cbn; intros e' Hl; [discriminate |].
    destruct (PyStr.truthy x) eqn:Hx.
    - destruct (re_compile x) as [pattern | e0] eqn:Hc.
      + destruct (compileAll re_compile l) as [ps | e1]; [discriminate |].
        injection Hl as <-. destruct (IH e1 eq_refl) as (y & Hy & Hne & Hcy).
        exists y. auto.
      + injection Hl as <-. exists x. repeat split; auto.
        intros ->. discriminate.
    - destruct (IH e' Hl) as (y & Hy & Hne & Hcy). exists y. auto. }
  unfold _updateRejectClients in H.
  destruct (compileAll re_compile RejectClients) as [ps | e0] eqn:Hc.
  - discriminate.
  - destruct (Hfail _ _ Hc) as (x & Hin & Hne & Hx).
    destruct e0; injection H as <-;
      (split; [intros msg'; discriminate |]);
      exists x; eexists; (repeat split; [exact Hin | exact Hne | exact Hx |]);
      solve [left; reflexivity | right; eexists; split; reflexivity].
Qed.

End RejectClients.

End stdconfig_facts.

(** ** The further properties on concrete inputs *)

Import Samples.

Lemma mailto_suffix_matches_witness :
  matchCalendarUserAddress uuidMatch mailConfig "mailto:alice@evilexample.com"
  = true
  /\ matchCalendarUserAddress uuidMatch mailConfig
       "mailto:alice@evilexample.com?subject=hi" = true.
Proof.
  apply (mailto_suffix_matches uuidMatch mailConfig "alice@evil" "subject=hi").
  - reflexivity.
  - reflexivity.
Defined.

Lemma without_domains_path_or_pattern_witness :
  matchCalendarUserAddress uuidMatch patternConfig "urn:uuid:6f1e"
  = PyStr.startswith "urn:uuid:6f1e" "/"
    || DeliveryService_matchCalendarUserAddress uuidMatch patternConfig
         "urn:uuid:6f1e".
Proof.
  apply (without_domains_path_or_pattern uuidMatch patternConfig
           "urn:uuid:6f1e").
  - reflexivity.
  - reflexivity.
Defined.

Lemma long_http_domain_has_no_effect_witness :
  matchCalendarUserAddress uuidMatch mailConfig
    "http://example.com/principals/users/alice/"
  = matchCalendarUserAddress uuidMatch
      {| EmailDomain := "example.com"; HTTPDomain := "";
         AddressPatterns := AddressPatterns mailConfig |}
      "http://example.com/principals/users/alice/".
Proof.
  apply (long_http_domain_has_no_effect uuidMatch mailConfig
           "http://example.com/principals/users/alice/").
  cbn. lia.
Defined.

Lemma storage_failure_entry_witness :
  generateResponse (collaborators office) localScheduler erin start
  = (Returned false,
     mkState tt
       [failureEntry (cuaddr erin) responsecode.FORBIDDEN "3.8;No authority"]
       [] []
       [EvLocateResource (itemURL erin);
        EvDoImplicitProcessing (cuaddr erin);
        EvStore (itemURL erin)]).
Proof.
  apply (@storage_failure_entry unit string (collaborators office)
           localScheduler erin start "1257894000.0" tt
           (Some (absent (itemURL erin))) tt false tt
           (OtherException "IOError") tt).
  - reflexivity.
  - reflexivity.
  - reflexivity.
  - reflexivity.
Defined.

Lemma stored_item_reported_before_annotation_witness :
  st_responses
    (snd (generateResponse (collaborators frozenProperties) localScheduler
            alice start))
    = st_responses start ++ [successEntry (cuaddr alice) None]
  /\ fst (generateResponse (collaborators frozenProperties) localScheduler
            alice start) = Raised (OtherException "IOError")
  /\ st_autoresponses
       (snd (generateResponse (collaborators frozenProperties)
               localScheduler alice start))
     = st_autoresponses start.
Proof.
  destruct (@stored_item_reported_before_annotation unit string
              (collaborators frozenProperties) localScheduler alice start
              "1257894000.0" tt (Some (absent (itemURL alice))) tt false tt tt
              eq_refl eq_refl eq_refl eq_refl)
    as (Hentry & Hraises & _).
  split; [exact Hentry |].
  apply (Hraises (absent (itemURL alice)) (OtherException "IOError") tt
           eq_refl).
  right. left. exists tt. split; reflexivity.
Defined.

Lemma access_checked_once_per_recipient_witness :
  checksOf (snd (generateSchedulingResponses (collaborators office)
                   localScheduler false [alice; bob; carol] start))
  = checksOf start ++ checksFor olga [alice; bob; carol].
Proof.
  apply (@access_checked_once_per_recipient unit string (collaborators office)
           localScheduler olga false [alice; bob; carol] start
           (snd (generateSchedulingResponses (collaborators office)
                   localScheduler false [alice; bob; carol] start))).
  - reflexivity.
  - vm_compute. reflexivity.
Defined.

Lemma availability_alone_fills_the_reply_witness :
  exists s',
    generateAttendeeFreeBusyResponse officeHours remoteScheduler bob
      organizerProp "uid-1" (Some (cuaddr bob)) true start
    = (Returned (buildFreeBusyResult ([], [], [(0, 8)%Z]) (0, 100)%Z
                   organizerProp (Some (cuaddr bob)) "uid-1" "REPLY"), s').
Proof.
  apply (@availability_alone_fills_the_reply unit string officeHours
           remoteScheduler bob organizerProp "uid-1" (Some (cuaddr bob)) true
           start [goneURL] tt tt "BEGIN:VAVAILABILITY" tt
           "BEGIN:VAVAILABILITY" tt ([], [], [(0, 8)%Z]) tt).
  - reflexivity.
  - reflexivity.
  - reflexivity.
  - reflexivity.
  - reflexivity.
  - intros url w [<- | []].
    exists (Some (absent goneURL)), w. split; reflexivity.
Defined.

Lemma entries_follow_recipients_witness :
  exists k new,
    k <= 2
    /\ st_responses
         (snd (generateSchedulingResponses (collaborators brokenStore)
                 localScheduler false [alice; bob] start))
       = st_responses start ++ new
    /\ map re_recipient new = map cuaddr (firstn k [alice; bob])
    /\ (fst (generateSchedulingResponses (collaborators brokenStore)
               localScheduler false [alice; bob] start)
        = Returned tt -> k = 2).
Proof.
  apply (@entries_follow_recipients unit string (collaborators brokenStore)
           localScheduler false [alice; bob] start).
Defined.


Module config_witnesses.

Import stdpp.base stdpp.gmap stdpp.strings.
Import config stdconfig ConfigSamples.

Lemma update_overrides_given_keys_witness :
  (update itemsOf {["HTTPPort" := PInt 8008; "SSLPort" := PInt 8443]}
     plistDict).1 = Ok tt
  /\ (forall key value,
        In (key, value)
           [("HTTPPort", PInt 80);
            ("Authentication",
             PDict [("Basic", PDict [("Enabled", PBool true)])]);
            ("Colour", PStr "blue")] ->
        (update itemsOf {["HTTPPort" := PInt 8008; "SSLPort" := PInt 8443]}
           plistDict).2 !! key = Some value)
  /\ (forall key : string,
        ~ In key ["HTTPPort"; "Authentication"; "Colour"] ->
        (update itemsOf {["HTTPPort" := PInt 8008; "SSLPort" := PInt 8443]}
           plistDict).2 !! key
        = ({["HTTPPort" := PInt 8008; "SSLPort" := PInt 8443]}
             : gmap string PValue) !! key).
Proof.
  apply (@config_facts.update_overrides_given_keys PValue itemsOf
           {["HTTPPort" := PInt 8008; "SSLPort" := PInt 8443]} plistDict
           [("HTTPPort", PInt 80);
            ("Authentication",
             PDict [("Basic", PDict [("Enabled", PBool true)])]);
            ("Colour", PStr "blue")]).
  - reflexivity.
  - repeat constructor; cbn; intuition discriminate.
  - repeat constructor.
Defined.

Lemma update_special_names_witness :
  (exists e,
     update itemsOf ∅ classDict
     = (Failed e, (setattrs itemsOf ∅ [("HTTPPort", PInt 80)]).2))
  /\ update itemsOf ∅ resetDict
     = setattrs itemsOf (list_to_map [("Colour", PStr "blue")])
         [("SSLPort", PInt 8443)].
Proof.
  split.
  - destruct (@config_facts.update_special_names PValue itemsOf ∅
                classDict [("HTTPPort", PInt 80)]
                [("SSLPort", PInt 8443)] "__class__" (PStr "Config"))
      as [Herror _].
    + reflexivity.
    + repeat constructor.
    + apply Herror. left. reflexivity.
  - destruct (@config_facts.update_special_names PValue itemsOf ∅
                resetDict [("HTTPPort", PInt 80)]
                [("SSLPort", PInt 8443)] "__dict__"
                (PDict [("Colour", PStr "blue")]))
      as [_ Hreset].
    + reflexivity.
    + repeat constructor.
    + apply Hreset; reflexivity.
Defined.

Lemma parseConfig_keeps_every_default_witness :
  (forall key : string,
     In key ["ServerHostName"; "HTTPPort"; "Authentication"] ->
     is_Some ((parseConfig itemsOf onlyCaldavd readDict
                 (setattrs itemsOf ∅
                    [("ServerHostName", PStr "localhost");
                     ("HTTPPort", PInt 8008);
                     ("Authentication",
                      PDict [("Basic", PDict [("Enabled", PBool false)]);
                             ("Digest", PDict [("Enabled", PBool true)])])]).2
                 caldavdPlist).2 !! key))
  /\ (parseConfig itemsOf onlyCaldavd readDict
        (setattrs itemsOf ∅
           [("ServerHostName", PStr "localhost");
            ("HTTPPort", PInt 8008);
            ("Authentication",
             PDict [("Basic", PDict [("Enabled", PBool false)]);
                    ("Digest", PDict [("Enabled", PBool true)])])]).2
        caldavdPlist).2 !! "HTTPPort" = Some (PInt 80).
Proof.
  destruct (@config_facts.parseConfig_keeps_every_default PValue itemsOf
              onlyCaldavd readDict defaultsDict
              [("ServerHostName", PStr "localhost");
               ("HTTPPort", PInt 8008);
               ("Authentication",
                PDict [("Basic", PDict [("Enabled", PBool false)]);
                       ("Digest", PDict [("Enabled", PBool true)])])]
              (setattrs itemsOf ∅
                 [("ServerHostName", PStr "localhost");
                  ("HTTPPort", PInt 8008);
                  ("Authentication",
                   PDict [("Basic", PDict [("Enabled", PBool false)]);
                          ("Digest", PDict [("Enabled", PBool true)])])]).2
              caldavdPlist)
    as (Hkeep & _ & Hgiven).
  - reflexivity.
  - cbn. intuition discriminate.
  - reflexivity.
  - intros plist items [= <-] [= <-]. cbn. intuition discriminate.
  - split; [exact Hkeep |].
    apply (Hgiven plistDict
             [("HTTPPort", PInt 80);
              ("Authentication",
               PDict [("Basic", PDict [("Enabled", PBool true)])]);
              ("Colour", PStr "blue")]).
    + reflexivity.
    + reflexivity.
    + reflexivity.
    + repeat constructor; cbn; intuition discriminate.
    + reflexivity.
    + left. reflexivity.
Defined.

Lemma update_option_shadows_the_method_witness :
  parseConfig itemsOf onlyCaldavd readDict
    (setattrs itemsOf ∅
       [("HTTPPort", PInt 8008); ("update", PStr "daily")]).2
    caldavdPlist
  = (Failed TypeError,
     (setattrs itemsOf ∅
        [("HTTPPort", PInt 8008); ("update", PStr "daily")]).2).
Proof.
  apply (@config_facts.update_option_shadows_the_method PValue itemsOf
           onlyCaldavd readDict updateDefaults
           [("HTTPPort", PInt 8008); ("update", PStr "daily")]
           (setattrs itemsOf ∅
              [("HTTPPort", PInt 8008); ("update", PStr "daily")]).2
           caldavdPlist plistDict).
  - reflexivity.
  - cbn. intuition discriminate.
  - cbn. auto.
  - reflexivity.
  - reflexivity.
  - reflexivity.
Defined.

Lemma cleanup_keeps_exactly_the_known_options_witness :
  _cleanup looseEnviron somePlist someDefaults = somePlist
  /\ (forall key : string,
         _cleanup strictEnviron somePlist someDefaults !! key =
           if decide (is_Some (someDefaults !! key)) then somePlist !! key
           else None).
Proof.
  split.
  - apply (proj1 (stdconfig_facts.cleanup_keeps_exactly_the_known_options
                    looseEnviron somePlist someDefaults)).
    reflexivity.
  - apply (proj2 (stdconfig_facts.cleanup_keeps_exactly_the_known_options
                    strictEnviron somePlist someDefaults)).
    reflexivity.
Defined.

Lemma loadConfig_known_options_or_empty_witness :
  loadConfig strictEnviron readSome "" someDefaults = Ok ∅
  /\ loadConfig strictEnviron readSome "/etc/missing.plist" someDefaults = Ok ∅
  /\ (forall key : string,
         is_Some (_cleanup strictEnviron somePlist someDefaults !! key) ->
         is_Some (someDefaults !! key)).
Proof.
  split; [| split].
  - apply (proj1 (stdconfig_facts.loadConfig_known_options_or_empty
                    strictEnviron readSome "" someDefaults)).
    reflexivity.
  - apply (proj1 (proj2 (stdconfig_facts.loadConfig_known_options_or_empty
                           strictEnviron readSome "/etc/missing.plist"
                           someDefaults))).
    left. reflexivity.
  - apply (proj2 (proj2 (stdconfig_facts.loadConfig_known_options_or_empty
                           strictEnviron readSome caldavdPlist someDefaults))).
    + reflexivity.
    + reflexivity.
Defined.

Lemma postUpdate_keeps_exactly_the_supported_params_witness :
  (forall param : string,
      params (_postUpdateDirectoryService xmlDirectory) !! param =
        if decide (is_Some
                     (({["xmlFile" := PStr "/etc/caldavd/accounts.xml"]}
                        : gmap string PValue) !! param))
        then params xmlDirectory !! param else None)
  /\ _postUpdateAugmentService xmlDirectory = xmlDirectory.
Proof.
  split.
  - apply (proj1 (proj2 (stdconfig_facts.postUpdate_keeps_exactly_the_supported_params
                           DEFAULT_SERVICE_PARAMS xmlDirectory))).
    reflexivity.
  - apply (proj1 (proj2 (proj2
             (stdconfig_facts.postUpdate_keeps_exactly_the_supported_params
                DEFAULT_AUGMENT_PARAMS xmlDirectory)))).
    reflexivity.
Defined.

Lemma accepted_xmpp_services_have_no_empty_field_witness :
  truthy (PStr "xmpp.example.com") = true.
Proof.
  apply (@stdconfig_facts.accepted_xmpp_services_have_no_empty_field
           someKeychain someRepr someNotifications
           (_updateNotifications someKeychain someRepr false someNotifications).2
           "XMPPNotifier"
           (setitem xmppNotifier "Password" (PStr "s3cret")))
    with (key := "Host").
  - reflexivity.
  - right. left. reflexivity.
  - reflexivity.
  - reflexivity.
  - right. right. left. reflexivity.
  - reflexivity.
Defined.

Lemma notifications_enabled_iff_some_service_is_witness :
  Enabled (_updateNotifications someKeychain someRepr false someNotifications).2
  = PBool true.
Proof.
  apply (@stdconfig_facts.notifications_enabled_iff_some_service_is
           someKeychain someRepr someNotifications).
  repeat constructor; eexists; reflexivity.
Defined.

Lemma notifications_only_passwords_change_witness :
  getitem (setitem xmppNotifier "Password" (PStr "s3cret")) "Host"
  = getitem xmppNotifier "Host"
  /\ _updateNotifications someKeychain someRepr true someNotifications
     = (Ok tt, someNotifications).
Proof.
  destruct (@stdconfig_facts.notifications_only_passwords_change
              someKeychain someRepr false someNotifications)
    as [Hpairs _].
  destruct (@stdconfig_facts.notifications_only_passwords_change
              someKeychain someRepr true someNotifications)
    as [_ Hreload].
  split; [| exact (Hreload eq_refl)].
  cbn in Hpairs.
  apply Forall2_cons_1 in Hpairs. destruct Hpairs as [_ Hpairs].
  apply Forall2_cons_1 in Hpairs. destruct Hpairs as [(_ & Hkeep & _) _].
  apply Hkeep. discriminate.
Defined.

Lemma scheduling_falls_back_to_the_plist_witness :
  snd (_updateScheduling noKeychain someRepr itemAttr false imipService)
  = imipService.
Proof.
  apply (stdconfig_facts.scheduling_falls_back_to_the_plist
           noKeychain someRepr itemAttr false imipService).
  intros account. left. reflexivity.
Defined.

Lemma rejectClients_turns_compile_errors_into_configuration_errors_witness :
  (forall msg,
     ConfigurationError
       "Invalid regular expression in RejectClients: unbalanced parenthesis"
     <> ReError msg)
  /\ exists x e',
       In x someRejectClients /\ x <> ""%string
       /\ compileSome x = Failed e'
       /\ (ConfigurationError
             "Invalid regular expression in RejectClients: unbalanced parenthesis"
           = e'
           \/ exists msg,
                e' = ReError msg
                /\ ConfigurationError
                     "Invalid regular expression in RejectClients: unbalanced parenthesis"
                   = ConfigurationError
                       ("Invalid regular expression in RejectClients: "
                          ++ msg)).
Proof.
  apply (stdconfig_facts.rejectClients_turns_compile_errors_into_configuration_errors
           compileSome someRejectClients).
  reflexivity.
Defined.

End config_witnesses.
